(** * Similarity-graph construction engine of [make_network.ipynb]

    A shallow embedding of the three code cells that build the user
    similarity network:

    - [create_user_vectors]  (aggregation, lurker cutoff, vector building),
    - [deduplicate]          (iterated greedy removal of near-duplicates),
    - [generate_similarity_network_vectorized] (all-pairs cosine similarity,
      thresholding, edge-list file).

    Conventions of the embedding.

    - A pandas DataFrame is the list of its rows; only the two columns the
      engine reads ([author_name], [subreddit]) are kept.
    - A Python [dict] is an insertion-ordered association list whose keys
      are pairwise distinct ([wf_dict]).
    - A Python [set] of user names is a [gset string].
    - numpy [float64] values are embedded twice.  In the engine as a whole
      they are the real numbers [R]: every arithmetic operation is the
      exact one, [np.linalg.norm] is the square root of the sum of squares,
      and rounding, overflow, underflow and NaN are outside this embedding.
      The normalisation, the matrix product and the vector builder are
      embedded a second time in IEEE 754 binary64 (the definitions named
      [..._f64]), and what rounding, underflow or NaN decide is stated
      there.
    - Exceptions are explicit: a computation returns [Ok v] or [Raise e].
      The [while] loop of [deduplicate] runs on fuel and returns [OutOfFuel]
      when the fuel does not suffice, so that its termination is a theorem
      and not a property of the encoding.
    - [print] calls are not modelled, except that an argument whose
      evaluation can raise is still evaluated.
    - The file system is a finite map from file names to contents. *)

From Stdlib Require Import Reals Lra Lia Psatz SpecFloat.
From stdpp Require Import base option list strings gmap sorting relations.

(** ** Exceptions and the result monad *)

Inductive exn : Type :=
  | StopIteration   (* next() on an exhausted iterator *)
  | AxisError       (* numpy: axis out of bounds for the array's dimension *)
  | ValueError      (* numpy: inhomogeneous shape *)
  | KeyError        (* missing dict or Series key *)
  | IndexError.     (* array index out of range *)

Inductive result (A : Type) : Type :=
  | Ok (a : A)
  | Raise (e : exn)
  | OutOfFuel.
Arguments Ok {A} a.
Arguments Raise {A} e.
Arguments OutOfFuel {A}.

#[global] Instance result_ret : MRet result := λ A a, Ok a.
#[global] Instance result_bind : MBind result := λ A B f m,
  match m with
  | Ok a => f a
  | Raise e => Raise e
  | OutOfFuel => OutOfFuel
  end.
#[global] Instance result_fmap : FMap result := λ A B f m,
  match m with
  | Ok a => Ok (f a)
  | Raise e => Raise e
  | OutOfFuel => OutOfFuel
  end.

Definition raises {A} (m : result A) (e : exn) : Prop := m = Raise e.

(** ** Numbers, vectors and the numpy operations the engine uses *)

#[global] Instance R_eq_dec : EqDecision R := Req_dec_T.
#[global] Instance Rge_decision (x y : R) : Decision (x >= y)%R := Rge_dec x y.

Abbreviation vector := (list R).

(** [np.sum] of a one-dimensional array. *)
Definition Rsum (l : list R) : R := foldr Rplus 0%R l.

(** One entry of a matrix product: the inner product of two rows, exact;
    [dot_f64] is the rounded one. *)
Definition dot (u v : vector) : R := Rsum (zip_with Rmult u v).

(** [np.linalg.norm] of one row: [sqrt(add.reduce(x * x))], exact;
    [norm_f64] is the rounded one. *)
Definition norm (v : vector) : R := sqrt (dot v v).

(** [np.zeros(n)] *)
Definition np_zeros (n : nat) : vector := replicate n 0%R.

(** The arrays [np.array] can return on a list of float rows: a list with
    no row gives the one-dimensional empty array of shape [(0,)], rows of
    one common length [d] give a matrix of shape [(n, d)], rows of
    different lengths are refused. *)
Inductive ndarray : Type :=
  | Array1D (data : list R)
  | Array2D (rows : list vector).

Definition np_array (rows : list vector) : result ndarray :=
  match rows with
  | [] => Ok (Array1D [])
  | r :: rest =>
      if forallb (λ r', Nat.eqb (length r') (length r)) rest
      then Ok (Array2D rows)
      else Raise ValueError
  end.

(** [np.linalg.norm(a, axis=1, keepdims=True)]: one norm per row; axis 1
    does not exist on a one-dimensional array. *)
Definition linalg_norm_axis1 (a : ndarray) : result (list R) :=
  match a with
  | Array1D _ => Raise AxisError
  | Array2D rows => Ok (norm <$> rows)
  end.

(** [norms[norms == 0] = 1.0] *)
Definition replace_zero_norms (norms : list R) : list R :=
  (λ n, if decide (n = 0%R) then 1%R else n) <$> norms.

(** [vecs / norms], the column of norms broadcast along each row. *)
Definition divide_rows (a : ndarray) (norms : list R) : list vector :=
  match a with
  | Array1D _ => []
  | Array2D rows => zip_with (λ row n, (λ x, (x / n)%R) <$> row) rows norms
  end.

(** [np.dot(m, m.T)] *)
Definition dot_transpose (m : list vector) : list (list R) :=
  (λ r, (λ c, dot r c) <$> m) <$> m.

(** Lines 322-326 of [deduplicate] and 358-371 of
    [generate_similarity_network_vectorized] are the same computation:
    stack the rows, take the row norms, replace zero norms by 1.0,
    divide, multiply by the transpose.  Exact arithmetic;
    [similarity_matrix_f64] is the same in binary64. *)
Definition similarity_matrix (rows : list vector) : result (list (list R)) :=
  vecs ← np_array rows;
  norms ← linalg_norm_axis1 vecs;
  let norms := replace_zero_norms norms in
  let normalized_vecs := divide_rows vecs norms in
  Ok (dot_transpose normalized_vecs).

(** Indexing a matrix and a list of names inside their bounds. *)
Definition entry (m : list (list R)) (i j : nat) : R := nth j (nth i m []) 0%R.
Definition name_at (users : list string) (i : nat) : string := nth i users "".

(** ** Deduplicator *)

Abbreviation dict := (list (string * vector)).

Definition wf_dict (d : dict) : Prop := NoDup d.*1.

(** [[curr[user] for user in users]] with [users = list(curr.keys())]. *)
Definition vectors_of (d : dict) : list vector := (λ kv, kv.2) <$> d.

Section dedup_scan.
Variables (users : list string) (sim_matrix : list (list R)) (threshold : R).

(** Body of [for j in range(i+1, len(users))]. *)
Definition inner_body (i : nat) (todrop : gset string) (j : nat) : gset string :=
  if decide (name_at users j ∈ todrop) then todrop
  else if decide (entry sim_matrix i j >= threshold)%R
       then todrop ∪ {[ name_at users j ]}
       else todrop.

(** Body of [for i in range(len(users))]. *)
Definition outer_body (todrop : gset string) (i : nat) : gset string :=
  if decide (name_at users i ∈ todrop) then todrop
  else foldl (inner_body i) todrop (seq (S i) (length users - S i)).

Definition scan_todrop : gset string :=
  foldl outer_body ∅ (seq 0 (length users)).
End dedup_scan.

(** [{user: vector for user, vector in curr.items() if user not in todrop}] *)
Definition drop_users (todrop : gset string) (curr : dict) : dict :=
  filter (λ kv, kv.1 ∉ todrop) curr.

(** One pass of the [while] body, lines 321-339. *)
Definition dedup_round (threshold : R) (curr : dict) : result dict :=
  let users := curr.*1 in
  sim_matrix ← similarity_matrix (vectors_of curr);
  let todrop := scan_todrop users sim_matrix threshold in
  Ok (drop_users todrop curr).

Record dedup_state : Type := DedupState {
  prev : Z;
  iteration : Z;
  curr : dict
}.

(** [len(curr) != prev and iteration < runs] *)
Definition dedup_guard (runs : Z) (st : dedup_state) : bool :=
  negb (Z.of_nat (length (curr st)) =? prev st)%Z && (iteration st <? runs)%Z.

Definition dedup_body (threshold : R) (st : dedup_state) : result dedup_state :=
  let prev' := Z.of_nat (length (curr st)) in
  curr' ← dedup_round threshold (curr st);
  Ok (DedupState prev' (iteration st + 1)%Z curr').

Fixpoint dedup_while (fuel : nat) (threshold : R) (runs : Z) (st : dedup_state)
  : result dedup_state :=
  if dedup_guard runs st then
    match fuel with
    | O => OutOfFuel
    | S fuel' =>
        st' ← dedup_body threshold st;
        dedup_while fuel' threshold runs st'
    end
  else Ok st.

Definition dedup_init (vectors : dict) : dedup_state := DedupState (-1) 0 vectors.

(** [def deduplicate(vectors, threshold = 1, runs=5)]; [None] stands for an
    argument the caller leaves out. *)
Definition deduplicate_default_threshold : R := 1%R.
Definition deduplicate_default_runs : Z := 5%Z.

Definition deduplicate_fuel (fuel : nat) (vectors : dict)
    (threshold : option R) (runs : option Z) : result dedup_state :=
  let threshold := default deduplicate_default_threshold threshold in
  let runs := default deduplicate_default_runs runs in
  dedup_while fuel threshold runs (dedup_init vectors).

Definition deduplicate (vectors : dict) (threshold : option R) (runs : option Z)
  : result dict :=
  curr <$> deduplicate_fuel (Z.to_nat (default deduplicate_default_runs runs))
             vectors threshold runs.

(** ** Similarity engine and edge writer *)

Abbreviation filesystem := (gmap string string).

(** [np.triu_indices_from(m, k=1)] on an [n] by [n] matrix, zipped. *)
Definition triu_indices (n : nat) : list (nat * nat) :=
  i ← seq 0 n; (λ j, (i, j)) <$> seq (S i) (n - S i).

(** The loop of lines 385-387. *)
Definition collect_edges (users : list string) (similarity : list (list R))
    (threshold : R) : list (string * string) :=
  foldl (λ edges ij,
           if decide (entry similarity ij.1 ij.2 >= threshold)%R
           then edges ++ [(name_at users ij.1, name_at users ij.2)]
           else edges)
        [] (triu_indices (length similarity)).

Definition newline : string := String (Ascii.ascii_of_nat 10) EmptyString.

(** [f"{u1} {u2}\n"] *)
Definition edge_line (e : string * string) : string :=
  e.1 +:+ " " +:+ e.2 +:+ newline.

(** [with open(output_file, 'w') as f: for u1, u2 in edges: f.write(...)] *)
Definition write_edges (output_file : string) (edges : list (string * string))
    (fs : filesystem) : filesystem :=
  foldl (λ fs' e, alter (λ content, content +:+ edge_line e) output_file fs')
        (<[output_file := ""]> fs) edges.

Definition default_threshold : R := (1 / 10)%R.
Definition default_output_file : string := "network_similarity_vec.csv".

(** [def generate_similarity_network_vectorized(user_vectors_2,
       threshold=0.1, output_file='network_similarity_vec.csv')].
    The mean and the median of the matrix (lines 374-379) are computed for
    printing only and cannot raise. *)
Definition generate_similarity_network_vectorized (user_vectors_2 : dict)
    (threshold : option R) (output_file : option string) (fs : filesystem)
  : result string * filesystem :=
  let threshold := default default_threshold threshold in
  let output_file := default default_output_file output_file in
  match
    vectors ← deduplicate user_vectors_2 (Some 1%R) None;
    let users := vectors.*1 in
    similarity ← similarity_matrix (vectors_of vectors);
    Ok (collect_edges users similarity threshold)
  with
  | Ok edges => (Ok output_file, write_edges output_file edges fs)
  | Raise e => (Raise e, fs)
  | OutOfFuel => (OutOfFuel, fs)
  end.

(** Last line of the cell:
    [edge_list_file_vec = generate_similarity_network_vectorized(user_vectors, threshold=0.95)] *)
Definition edge_list_file_vec (user_vectors : dict) (fs : filesystem)
  : result string * filesystem :=
  generate_similarity_network_vectorized user_vectors (Some (95 / 100)%R) None fs.

(** ** Activity aggregator and vector builder *)

(** One row of the DataFrame, reduced to the columns the engine reads. *)
Record post : Type := Post {
  author_name : string;
  subreddit : string
}.

Abbreviation dataframe := (list post).

(** One row of [groupby(...).size().reset_index(name='count')]. *)
Record count_row : Type := CountRow {
  row_author : string;
  row_subreddit : string;
  row_count : nat
}.

(** Python's order on [str], and the order of a two-column group key. *)
Definition str_le (s1 s2 : string) : Prop := String.leb s1 s2 = true.
Definition key_le (k1 k2 : string * string) : Prop :=
  String.ltb k1.1 k2.1 || (String.eqb k1.1 k2.1 && String.leb k1.2 k2.2) = true.

#[global] Instance str_le_dec : RelDecision str_le.
Proof. intros s1 s2. unfold str_le. apply _. Defined.
#[global] Instance key_le_dec : RelDecision key_le.
Proof. intros k1 k2. unfold key_le. apply _. Defined.

(** [Series.unique()]: the distinct values in order of first appearance. *)
Fixpoint unique {A} `{EqDecision A} (l : list A) : list A :=
  match l with
  | [] => []
  | x :: l' => x :: filter (λ y, y ≠ x) (unique l')
  end.

(** [sorted(values.unique())] *)
Definition sorted_unique (l : list string) : list string :=
  merge_sort str_le (unique l).

Definition group_key (p : post) : string * string := (author_name p, subreddit p).

(** [df.groupby(['author_name', 'subreddit']).size().reset_index(name='count')]:
    one row per group key that occurs, keys ascending, with the number of
    rows of the group. *)
Definition groupby_size (df : dataframe) : list count_row :=
  (λ k, CountRow k.1 k.2 (length (filter (λ p, group_key p = k) df)))
    <$> merge_sort key_le (unique (group_key <$> df)).

(** [rows.groupby('author_name')['count'].sum()]: a Series indexed by the
    authors, ascending. *)
Definition groupby_sum (rows : list count_row) : list (string * nat) :=
  (λ a, (a, sum_list (row_count <$> filter (λ r, row_author r = a) rows)))
    <$> sorted_unique (row_author <$> rows).

(** [series[label]] *)
Definition series_get (series : list (string * nat)) (label : string) : result nat :=
  match list_find (λ kv, kv.1 = label) series with
  | Some (_, kv) => Ok kv.2
  | None => Raise KeyError
  end.

(** [{sr: i for i, sr in enumerate(all_subreddits)}] *)
Definition index_dict (all_subreddits : list string) : gmap string nat :=
  foldl (λ m isr, <[isr.2 := isr.1]> m) ∅
        (zip (seq 0 (length all_subreddits)) all_subreddits).

(** [d[key]] on a dict of vectors. *)
Definition dict_get (d : dict) (key : string) : result vector :=
  match list_find (λ kv, kv.1 = key) d with
  | Some (_, kv) => Ok kv.2
  | None => Raise KeyError
  end.

(** [a[i] = x] on a one-dimensional array. *)
Definition array_set (a : vector) (i : nat) (x : R) : result vector :=
  if decide (i < length a) then Ok (<[i := x]> a) else Raise IndexError.

(** The vector stored under [key] is replaced, the order of the keys is kept. *)
Definition dict_replace (d : dict) (key : string) (v : vector) : dict :=
  (λ kv, if decide (kv.1 = key) then (kv.1, v) else kv) <$> d.

(** A [for] loop whose body can raise. *)
Fixpoint for_each {S A} (body : S → A → result S) (s : S) (l : list A) : result S :=
  match l with
  | [] => Ok s
  | x :: l' => s' ← body s x; for_each body s' l'
  end.

Definition lurker_threshold : nat := 3.

(** Body of [for idx, row in user_subreddit_counts.iterrows()], lines 252-261. *)
Definition vector_row_body (all_subreddits : list string)
    (subreddit_to_idx : gmap string nat) (user_total_posts : list (string * nat))
    (user_vectors : dict) (row : count_row) : result dict :=
  let user := row_author row in
  let subreddit := row_subreddit row in
  let count := row_count row in
  let user_vectors :=
    if decide (user ∈ user_vectors.*1) then user_vectors
    else user_vectors ++ [(user, np_zeros (length all_subreddits))] in
  sr_idx ← from_option Ok (Raise KeyError) (subreddit_to_idx !! subreddit);
  total ← series_get user_total_posts user;
  v ← dict_get user_vectors user;
  v' ← array_set v sr_idx (INR count / INR total)%R;
  Ok (dict_replace user_vectors user v').

(** [def create_user_vectors(df)].  The [try ... except Exception] around the
    body prints and re-raises, so the exception that leaves is the one that
    was raised. *)
Definition create_user_vectors (df : dataframe) : result (dict * list string) :=
  let user_subreddit_counts := groupby_size df in
  let user_total_posts := groupby_sum user_subreddit_counts in
  let user_total_posts :=
    filter (λ ut, lurker_threshold ≤ ut.2) user_total_posts in
  let user_subreddit_counts :=
    filter (λ r, row_author r ∈ user_total_posts.*1) user_subreddit_counts in
  let all_subreddits := sorted_unique (subreddit <$> df) in
  let subreddit_to_idx := index_dict all_subreddits in
  user_vectors ←
    for_each (vector_row_body all_subreddits subreddit_to_idx user_total_posts)
             [] user_subreddit_counts;
  (* print(... len(next(iter(user_vectors.values()))) ...) *)
  _ ← match head user_vectors with
      | Some kv => Ok (length kv.2)
      | None => Raise StopIteration
      end;
  Ok (user_vectors, all_subreddits).

(** The two top-level calls of the notebook, lines 275 and 397. *)
Definition make_network (df_recent : dataframe) (fs : filesystem)
  : result string * filesystem :=
  match create_user_vectors df_recent with
  | Ok (user_vectors, all_subreddits) => edge_list_file_vec user_vectors fs
  | Raise e => (Raise e, fs)
  | OutOfFuel => (OutOfFuel, fs)
  end.

(** ** Vocabulary of the statements *)

(** The divisor used for a row after [norms[norms == 0] = 1.0]. *)
Definition safe_norm (v : vector) : R :=
  if decide (norm v = 0%R) then 1%R else norm v.

(** A row of [normalized_vecs]. *)
Definition unit_row (v : vector) : vector := (λ x, (x / safe_norm v)%R) <$> v.

(** An entry of the similarity matrix, as a function of the two rows. *)
Definition cosine (u v : vector) : R := dot (unit_row u) (unit_row v).

(** The lists of rows [np.array] stacks into a matrix with an axis 1. *)
Definition stackable (rows : list vector) : Prop :=
  rows ≠ [] ∧ ∃ d, Forall (λ r, length r = d) rows.

(** The set [todrop] at the end of a round on [d]. *)
Definition round_todrop (threshold : R) (d : dict) : gset string :=
  scan_todrop d.*1 (dot_transpose (unit_row <$> vectors_of d)) threshold.

(** One turn of the [while] loop as a relation between loop states. *)
Definition dedup_step (threshold : R) (runs : Z) (st st' : dedup_state) : Prop :=
  dedup_guard runs st = true ∧ dedup_body threshold st = Ok st'.

(** The set marked after the anchors [0 .. k-1] have been processed. *)
Definition scan_upto (users : list string) (sim_matrix : list (list R))
    (threshold : R) (k : nat) : gset string :=
  foldl (outer_body users sim_matrix threshold) ∅ (seq 0 k).

(** The spec's wording of the edge set: every entry of the user list paired
    with every later entry, in that order, kept when the similarity of the
    two vectors reaches the threshold. *)
Fixpoint later_pairs {A} (l : list A) : list (A * A) :=
  match l with
  | [] => []
  | x :: rest => ((λ y, (x, y)) <$> rest) ++ later_pairs rest
  end.

Definition edges_spec (threshold : R) (d : dict) : list (string * string) :=
  (λ p, (p.1.1, p.2.1)) <$>
    filter (λ p, (cosine p.1.2 p.2.2 >= threshold)%R) (later_pairs d).

(** Contents of the edge-list file: the lines one after the other. *)
Definition edge_lines (edges : list (string * string)) : string :=
  foldr (λ e rest, edge_line e +:+ rest) "" edges.

(** ActivityCount and UserTotal in the spec's words: the number of posts of
    a user in a subreddit, and the number of posts of a user. *)
Definition activity_count (df : dataframe) (u s : string) : nat :=
  length (filter (λ p, author_name p = u ∧ subreddit p = s) df).

Definition user_total (df : dataframe) (u : string) : nat :=
  length (filter (λ p, author_name p = u) df).

Definition row_key (r : count_row) : string * string :=
  (row_author r, row_subreddit r).

(** Invariant of the vector-building loop.  After the rows [done] the vector
    of a user holds, under each subreddit, the fraction of a row that was
    processed and 0 where no row was. *)
Definition cell_ok (tot : string → nat) (done : list count_row)
    (u s : string) (x : R) : Prop :=
  (∃ r, r ∈ done ∧ row_key r = (u, s)
        ∧ x = (INR (row_count r) / INR (tot u))%R)
  ∨ ((u, s) ∉ row_key <$> done) ∧ x = 0%R.

Definition loop_inv (subs : list string) (tot : string → nat)
    (done : list count_row) (uv : dict) : Prop :=
  NoDup uv.*1 ∧
  (∀ u, u ∈ uv.*1 ↔ u ∈ row_author <$> done) ∧
  ∀ u v, (u, v) ∈ uv →
    length v = length subs ∧
    ∀ k s, subs !! k = Some s → ∃ x, v !! k = Some x ∧ cell_ok tot done u s x.

(** The behavioral vector of the spec: under each subreddit of the sorted
    vocabulary, the fraction of the user's posts made there. *)
Definition fraction_vector (df : dataframe) (u : string) : vector :=
  (λ s, (INR (activity_count df u s) / INR (user_total df u))%R)
    <$> sorted_unique (subreddit <$> df).

(** What [create_user_vectors] returns on [df]: one entry per user with at
    least [lurker_threshold] posts, holding the user's fraction vector. *)
Definition built_from (df : dataframe) (uv : dict) : Prop :=
  wf_dict uv ∧
  (∀ u, u ∈ uv.*1 ↔ lurker_threshold ≤ user_total df u) ∧
  (∀ u v, (u, v) ∈ uv → v = fraction_vector df u).

(** The two entries of a dict at a pair of positions. *)
Definition pair_at (d : dict) (ij : nat * nat)
  : (string * vector) * (string * vector) :=
  (nth ij.1 d ("", []), nth ij.2 d ("", [])).

(** ** Worked inputs *)

(** Two users of three subreddits: the first posts in one subreddit only,
    the second one fifth, two fifths and two fifths. *)
Definition two_users : dict :=
  [("a", [1; 0; 0]%R); ("b", [1 / 5; 2 / 5; 2 / 5]%R)].

(** The scenario of the spec: A and C post alike, B differently. *)
Definition three_users : dict :=
  [("A", [1; 0]%R); ("B", [1 / 2; 1 / 2]%R); ("C", [1; 0]%R)].

(** Three posts of one user in two subreddits. *)
Definition three_posts : dataframe :=
  [Post "a" "x"; Post "a" "y"; Post "a" "x"].

(** Two posts of one user: below the lurker cutoff. *)
Definition lurker_posts : dataframe := [Post "a" "x"; Post "a" "y"].

(** Seven posts of three users in four subreddits; the third user is a
    lurker. *)
Definition seven_posts : dataframe :=
  [Post "b" "x"; Post "a" "y"; Post "a" "x"; Post "b" "x"; Post "a" "y";
   Post "c" "z"; Post "b" "w"].

(** ** Loading and date filtering *)

(** What the first code cells can raise. *)
Inductive loader_exn : Type :=
  | FileNotFoundError     (* raised by [load_and_clean_data] itself *)
  | DateParseError        (* the [ValueError] of [pd.to_datetime] *)
  | OutOfBoundsDatetime   (* a timestamp outside the range pandas can hold *)
  | ZeroDivisionError.    (* [len(df)/original_count] with no row *)

Inductive outcome (A : Type) : Type :=
  | Returns (a : A)
  | Raises (e : loader_exn).
Arguments Returns {A} a.
Arguments Raises {A} e.

#[global] Instance outcome_ret : MRet outcome := λ A a, Returns a.
#[global] Instance outcome_bind : MBind outcome := λ A B f m,
  match m with
  | Returns a => f a
  | Raises e => Raises e
  end.

(** One row of the table: the two columns the engine reads, the column
    [post_created_time] and the remaining columns.  [T] is what the date
    column holds: the text read from the file, or a timestamp. *)
Record row (T : Type) : Type := Row {
  row_post : post;
  post_created_time : T;
  other_columns : list string
}.
Arguments Row {T} row_post post_created_time other_columns.
Arguments row_post {T} r.
Arguments post_created_time {T} r.
Arguments other_columns {T} r.

(** The instant a [datetime64] value denotes, in nanoseconds since the
    epoch, whatever the resolution of the column; [None] is [NaT]. *)
Abbreviation timestamp := (option Z).

(** A DataFrame by the dtype of its date column: [object] as [read_csv]
    leaves it, or [datetime64] after [pd.to_datetime]. *)
Inductive frame : Type :=
  | RawFrame (rows : list (row string))
  | DatedFrame (rows : list (row timestamp)).

(** [len(df)] *)
Definition frame_length (df : frame) : nat :=
  match df with
  | RawFrame rows => length rows
  | DatedFrame rows => length rows
  end.

(** The columns [author_name] and [subreddit] of a frame, as the engine
    receives them. *)
Definition frame_posts (df : frame) : dataframe :=
  match df with
  | RawFrame rows => row_post <$> rows
  | DatedFrame rows => row_post <$> rows
  end.

#[global] Instance post_eq_dec : EqDecision post.
Proof. solve_decision. Defined.
#[global] Instance row_eq_dec {T} `{EqDecision T} : EqDecision (row T).
Proof. solve_decision. Defined.

(** The files [read_csv] can read: a path that exists maps to the rows of
    its table. *)
Abbreviation tables := (gmap string (list (row string))).

(** [def load_and_clean_data(filepath)]; the [except] clause prints and
    re-raises. [drop_duplicates()] keeps the first of equal rows. *)
Definition load_and_clean_data (disk : tables) (filepath : string)
  : outcome frame :=
  match disk !! filepath with
  | None => Raises FileNotFoundError
  | Some df =>
      let df_unique := unique df in
      Returns (RawFrame df_unique)
  end.

(** [series.min()] and [series.max()] of a [datetime64] column: [NaT] is
    skipped, and is the answer when nothing else is there. *)
Definition series_min (times : list timestamp) : timestamp :=
  foldr (λ t acc,
           match t, acc with
           | Some x, Some y => Some (Z.min x y)
           | Some x, None => Some x
           | None, _ => acc
           end) None times.

Definition series_max (times : list timestamp) : timestamp :=
  foldr (λ t acc,
           match t, acc with
           | Some x, Some y => Some (Z.max x y)
           | Some x, None => Some x
           | None, _ => acc
           end) None times.

(** [timedelta(days=30)] in nanoseconds. *)
Definition thirty_days : Z := (30 * 86400 * 1000000000)%Z.

(** A date argument of [filter_by_date]: a [str] or a timestamp. *)
Inductive date_arg : Type :=
  | DateString (s : string)
  | DateStamp (t : timestamp).

(** The row with its date cell replaced. *)
Definition set_time (r : row string) (t : timestamp) : row timestamp :=
  Row (row_post r) t (other_columns r).

Section dates.
(** [pd.to_datetime] on one text: a timestamp, [NaT], or no parse. *)
Variable to_datetime : string → option timestamp.
(** [pd.to_datetime] on a column of texts: the column of timestamps, or no
    parse.  The format is found once for the column, so this is not
    taken to be the cell-wise [to_datetime]. *)
Variable to_datetime_series : list string → option (list timestamp).
(** [t - timedelta] on a timestamp.  The range of the timestamps, and what
    a result outside it gives, depend on the resolution pandas chose for
    the column and on its version; the statements say when they take the
    difference to be in range. *)
Variable sub_timedelta : timestamp → Z → outcome timestamp.

(** [df['post_created_time'] = pd.to_datetime(df['post_created_time'])]:
    the rows of the frame after the assignment.  A column that has the
    dtype [datetime64] already is left as it is. *)
Definition convert_dates (df : frame) : outcome (list (row timestamp)) :=
  match df with
  | RawFrame rows =>
      match to_datetime_series (post_created_time <$> rows) with
      | Some times => Returns (zip_with set_time rows times)
      | None => Raises DateParseError
      end
  | DatedFrame rows => Returns rows
  end.

(** [def analyze_post_dates(df)]: the caller's frame as the call leaves it,
    and the pair that is returned. *)
Definition analyze_post_dates (df : frame)
  : outcome (frame * (timestamp * timestamp)) :=
  rows ← convert_dates df;
  let min_date := series_min (post_created_time <$> rows) in
  let max_date := series_max (post_created_time <$> rows) in
  Returns (DatedFrame rows, (min_date, max_date)).

(** [if isinstance(d, str): d = pd.to_datetime(d)] *)
Definition date_of_arg (d : date_arg) : outcome timestamp :=
  match d with
  | DateString s =>
      match to_datetime s with
      | Some t => Returns t
      | None => Raises DateParseError
      end
  | DateStamp t => Returns t
  end.

(** [series >= start_date] and [series <= end_date], one cell: a comparison
    with [NaT] on either side is false. *)
Definition on_or_after (start_date t : timestamp) : bool :=
  match t, start_date with
  | Some x, Some s => (s <=? x)%Z
  | _, _ => false
  end.

Definition on_or_before (end_date t : timestamp) : bool :=
  match t, end_date with
  | Some x, Some e => (x <=? e)%Z
  | _, _ => false
  end.

(** [def filter_by_date(df, start_date=None, end_date=None)].  The last
    [print] divides by the number of rows the frame came with. *)
Definition filter_by_date (df : frame) (start_date end_date : option date_arg)
  : outcome frame :=
  rows ← convert_dates df;
  let original_count := length rows in
  rows ← match start_date with
         | Some d =>
             start_date ← date_of_arg d;
             Returns (filter (λ r, on_or_after start_date (post_created_time r)) rows)
         | None => Returns rows
         end;
  rows ← match end_date with
         | Some d =>
             end_date ← date_of_arg d;
             Returns (filter (λ r, on_or_before end_date (post_created_time r)) rows)
         | None => Returns rows
         end;
  (* print(... {len(df)/original_count*100:.1f} ...) *)
  if decide (original_count = 0) then Raises ZeroDivisionError
  else Returns (DatedFrame rows).

(** The bound an argument of [filter_by_date] stands for; no bound when
    the argument is left out. *)
Definition bound_of (d : option date_arg) : outcome (option timestamp) :=
  match d with
  | Some d => t ← date_of_arg d; Returns (Some t)
  | None => Returns None
  end.

(** The calls of the cells two to four: load, take the dates, keep the last
    thirty days. *)
Definition load_recent (disk : tables) (filepath : string) : outcome frame :=
  df_clean ← load_and_clean_data disk filepath;
  analysed ← analyze_post_dates df_clean;
  let df_clean := analysed.1 in
  let max_date := analysed.2.2 in
  cutoff_date ← sub_timedelta max_date thirty_days;
  filter_by_date df_clean (Some (DateStamp cutoff_date)) None.
End dates.

(** The notebook from the file to the edge list.  An exception of the
    loading cells ends the run before the engine starts. *)
Inductive notebook_result : Type :=
  | LoaderRaised (e : loader_exn)
  | EngineRan (r : result string).

Definition run_notebook (to_datetime : string → option timestamp)
    (to_datetime_series : list string → option (list timestamp))
    (sub_timedelta : timestamp → Z → outcome timestamp)
    (disk : tables) (fs : filesystem) : notebook_result * filesystem :=
  match load_recent to_datetime to_datetime_series sub_timedelta disk
          "reddit_opinion_ru_ua.csv" with
  | Raises e => (LoaderRaised e, fs)
  | Returns df_recent =>
      let out := make_network (frame_posts df_recent) fs in
      (EngineRan out.1, out.2)
  end.

(** What the statements ask of a column parser: one timestamp per text. *)
Definition keeps_length (to_datetime_series : list string → option (list timestamp))
  : Prop :=
  ∀ texts times, to_datetime_series texts = Some times →
    length times = length texts.

(** The cells of a date column. *)
Definition times_of (rows : list (row timestamp)) : list timestamp :=
  post_created_time <$> rows.

(** A parser for the worked inputs: two dates, the second thirty-one days
    after the first, and the empty text for a missing date. *)
Definition toy_to_datetime (s : string) : option timestamp :=
  if decide (s = "2025-03-29") then Some (Some 0%Z)
  else if decide (s = "2025-04-29") then Some (Some (31 * 86400 * 1000000000)%Z)
  else if decide (s = "") then Some None
  else None.

Definition toy_to_datetime_series (texts : list string) : option (list timestamp) :=
  mapM toy_to_datetime texts.

(** A subtraction for the worked inputs: always in range. *)
Definition toy_sub_timedelta (t : timestamp) (delta : Z) : outcome timestamp :=
  Returns ((λ x, (x - delta)%Z) <$> t).

(** A table of seven rows, one of them twice: user a posts three times
    within the last thirty days, user b once before. *)
Definition toy_table : list (row string) :=
  [Row (Post "a" "x") "2025-04-29" [];
   Row (Post "b" "y") "2025-03-29" [];
   Row (Post "a" "x") "2025-04-29" [];
   Row (Post "a" "y") "2025-04-29" [];
   Row (Post "a" "x") "2025-04-29" ["again"];
   Row (Post "c" "y") "" [];
   Row (Post "c" "x") "2025-04-29" []].

Definition toy_disk : tables := {[ "reddit_opinion_ru_ua.csv" := toy_table ]}.

(** ** The numeric kernel in binary64

    The same lines of the notebook with numpy's [float64] as IEEE 754
    binary64 (53 bits of precision, round to nearest even), for the
    statements that rounding, underflow or NaN decide.  A sum adds its
    terms in index order, one rounding per operation; numpy adds long
    rows pairwise and its matrix product may group the terms differently.
    The statements on this embedding are about zeros, signs and symmetry,
    which no order of the additions changes, or about rows of two
    coordinates, where there is a single addition. *)

Abbreviation float64 := spec_float.

Definition f64_add (x y : float64) : float64 := SFadd 53 1024 x y.
Definition f64_mul (x y : float64) : float64 := SFmul 53 1024 x y.
Definition f64_div (x y : float64) : float64 := SFdiv 53 1024 x y.
Definition f64_sqrt (x : float64) : float64 := SFsqrt 53 1024 x.

(** [x == y], [x >= y] and [x < y]; each is false when a side is NaN. *)
Definition f64_eqb (x y : float64) : bool := SFeqb x y.
Definition f64_geb (x y : float64) : bool := SFleb y x.
Definition f64_ltb (x y : float64) : bool := SFltb x y.

(** [float(n)] of a count, and the literals [0.0] and [1.0]. *)
Definition f64_of_nat (n : nat) : float64 :=
  binary_normalize 53 1024 (Z.of_nat n) 0 false.
Definition f64_zero : float64 := S754_zero false.
Definition f64_one : float64 := S754_finite false 4503599627370496 (-52).

Abbreviation vector_f64 := (list float64).

(** [np.sum] of a one-dimensional array. *)
Definition f64_sum (l : vector_f64) : float64 := foldl f64_add f64_zero l.

(** One entry of a matrix product. *)
Definition dot_f64 (u v : vector_f64) : float64 := f64_sum (zip_with f64_mul u v).

(** [np.linalg.norm] of one row: [sqrt(add.reduce(x * x))]. *)
Definition norm_f64 (v : vector_f64) : float64 := f64_sqrt (dot_f64 v v).

(** [np.zeros(n)] *)
Definition np_zeros_f64 (n : nat) : vector_f64 := replicate n f64_zero.

Inductive ndarray_f64 : Type :=
  | Array1D_f64 (data : vector_f64)
  | Array2D_f64 (rows : list vector_f64).

(** [np.array] on a list of rows, as [np_array]. *)
Definition np_array_f64 (rows : list vector_f64) : result ndarray_f64 :=
  match rows with
  | [] => Ok (Array1D_f64 [])
  | r :: rest =>
      if forallb (λ r', Nat.eqb (length r') (length r)) rest
      then Ok (Array2D_f64 rows)
      else Raise ValueError
  end.

(** [np.linalg.norm(a, axis=1, keepdims=True)] *)
Definition linalg_norm_axis1_f64 (a : ndarray_f64) : result (list float64) :=
  match a with
  | Array1D_f64 _ => Raise AxisError
  | Array2D_f64 rows => Ok (norm_f64 <$> rows)
  end.

(** [norms[norms == 0] = 1.0] *)
Definition replace_zero_norms_f64 (norms : list float64) : list float64 :=
  (λ n, if f64_eqb n f64_zero then f64_one else n) <$> norms.

(** [vecs / norms] *)
Definition divide_rows_f64 (a : ndarray_f64) (norms : list float64)
  : list vector_f64 :=
  match a with
  | Array1D_f64 _ => []
  | Array2D_f64 rows => zip_with (λ row n, (λ x, f64_div x n) <$> row) rows norms
  end.

(** [np.dot(m, m.T)] *)
Definition dot_transpose_f64 (m : list vector_f64) : list (list float64) :=
  (λ r, (λ c, dot_f64 r c) <$> m) <$> m.

(** Lines 322-326 of [deduplicate] and 358-371 of
    [generate_similarity_network_vectorized]. *)
Definition similarity_matrix_f64 (rows : list vector_f64)
  : result (list (list float64)) :=
  vecs ← np_array_f64 rows;
  norms ← linalg_norm_axis1_f64 vecs;
  let norms := replace_zero_norms_f64 norms in
  let normalized_vecs := divide_rows_f64 vecs norms in
  Ok (dot_transpose_f64 normalized_vecs).

(** [m[i][j]] inside the bounds of the matrix. *)
Definition entry_f64 (m : list (list float64)) (i j : nat) : option float64 :=
  line ← m !! i; line !! j.

(** *** The vector builder in binary64 *)

Abbreviation dict_f64 := (list (string * vector_f64)).

Definition vectors_of_f64 (d : dict_f64) : list vector_f64 := (λ kv, kv.2) <$> d.

Definition dict_get_f64 (d : dict_f64) (key : string) : result vector_f64 :=
  match list_find (λ kv, kv.1 = key) d with
  | Some (_, kv) => Ok kv.2
  | None => Raise KeyError
  end.

Definition array_set_f64 (a : vector_f64) (i : nat) (x : float64)
  : result vector_f64 :=
  if decide (i < length a) then Ok (<[i := x]> a) else Raise IndexError.

Definition dict_replace_f64 (d : dict_f64) (key : string) (v : vector_f64)
  : dict_f64 :=
  (λ kv, if decide (kv.1 = key) then (kv.1, v) else kv) <$> d.

(** Body of [for idx, row in user_subreddit_counts.iterrows()], lines
    252-261, with [count / total_posts] the quotient of two [int64] in
    [float64]. *)
Definition vector_row_body_f64 (all_subreddits : list string)
    (subreddit_to_idx : gmap string nat) (user_total_posts : list (string * nat))
    (user_vectors : dict_f64) (row : count_row) : result dict_f64 :=
  let user := row_author row in
  let subreddit := row_subreddit row in
  let count := row_count row in
  let user_vectors :=
    if decide (user ∈ user_vectors.*1) then user_vectors
    else user_vectors ++ [(user, np_zeros_f64 (length all_subreddits))] in
  sr_idx ← from_option Ok (Raise KeyError) (subreddit_to_idx !! subreddit);
  total ← series_get user_total_posts user;
  v ← dict_get_f64 user_vectors user;
  v' ← array_set_f64 v sr_idx (f64_div (f64_of_nat count) (f64_of_nat total));
  Ok (dict_replace_f64 user_vectors user v').

(** [def create_user_vectors(df)], as [create_user_vectors]. *)
Definition create_user_vectors_f64 (df : dataframe)
  : result (dict_f64 * list string) :=
  let user_subreddit_counts := groupby_size df in
  let user_total_posts := groupby_sum user_subreddit_counts in
  let user_total_posts :=
    filter (λ ut, lurker_threshold ≤ ut.2) user_total_posts in
  let user_subreddit_counts :=
    filter (λ r, row_author r ∈ user_total_posts.*1) user_subreddit_counts in
  let all_subreddits := sorted_unique (subreddit <$> df) in
  let subreddit_to_idx := index_dict all_subreddits in
  user_vectors ←
    for_each (vector_row_body_f64 all_subreddits subreddit_to_idx user_total_posts)
             [] user_subreddit_counts;
  _ ← match head user_vectors with
      | Some kv => Ok (length kv.2)
      | None => Raise StopIteration
      end;
  Ok (user_vectors, all_subreddits).

(** *** Vocabulary of the binary64 statements *)

(** [+0.0] or [-0.0]. *)
Definition f64_is_zero (x : float64) : bool :=
  match x with S754_zero _ => true | _ => false end.

(** Neither an infinity nor NaN. *)
Definition f64_finite (x : float64) : bool :=
  match x with S754_zero _ | S754_finite _ _ _ => true | _ => false end.

(** The divisor of a row after the substitution, and the row divided by it. *)
Definition safe_norm_f64 (v : vector_f64) : float64 :=
  if f64_eqb (norm_f64 v) f64_zero then f64_one else norm_f64 v.

Definition unit_row_f64 (v : vector_f64) : vector_f64 :=
  (λ x, f64_div x (safe_norm_f64 v)) <$> v.

(** At least one row, all rows of one length. *)
Definition stackable_f64 (rows : list vector_f64) : Prop :=
  rows ≠ [] ∧ ∃ n, Forall (λ r, length r = n) rows.

(** The literal [1e-200]. *)
Definition f64_1e_200 : float64 := S754_finite false 6894565328877484 (-717).

(** Two rows; the squares of the first underflow. *)
Definition underflow_rows : list vector_f64 :=
  [[f64_1e_200; f64_zero]; [f64_one; f64_zero]].

(** Two users with one post in [x] and five in [y] each. *)
Definition twin_posts : dataframe :=
  [Post "a" "x"; Post "a" "y"; Post "a" "y"; Post "a" "y"; Post "a" "y";
   Post "a" "y";
   Post "b" "x"; Post "b" "y"; Post "b" "y"; Post "b" "y"; Post "b" "y";
   Post "b" "y"].

(** [x < 0] is false: NaN, a zero, or a value above zero. *)
Definition f64_not_negative (x : float64) : bool := negb (f64_ltb x f64_zero).

(** NaN, or the sign bit is clear. *)
Definition f64_sign_clear (x : float64) : bool :=
  match x with
  | S754_nan => true
  | S754_zero s | S754_infinity s | S754_finite s _ _ => negb s
  end.

(** NaN, or above zero: what a divisor is after the substitution. *)
Definition f64_above_zero (x : float64) : bool :=
  match x with
  | S754_nan | S754_infinity false | S754_finite false _ _ => true
  | _ => false
  end.

(** Two results of the same kind: both values, related, or the same
    exception. *)
Definition result_rel {A B} (R : A → B → Prop) (x : result A) (y : result B)
  : Prop :=
  match x, y with
  | Ok a, Ok b => R a b
  | Raise e1, Raise e2 => e1 = e2
  | OutOfFuel, OutOfFuel => True
  | _, _ => False
  end.

(** The same users in the same order, with vectors of the same lengths. *)
Definition same_shape (uf : dict_f64) (ur : dict) : Prop :=
  Forall2 (λ a b, a.1 = b.1 ∧ length a.2 = length b.2) uf ur.

(** * Proofs *)

(** ** The result monad *)

Lemma bind_Ok {A B} (m : result A) (f : A → result B) (b : B) :
  m ≫= f = Ok b ↔ ∃ a, m = Ok a ∧ f a = Ok b.
Proof.
  destruct m as [a|e|]; simpl; split.
  - eauto.
  - by intros (a' & [= ->] & ?).
  - discriminate.
  - by intros (? & ? & ?).
  - discriminate.
  - by intros (? & ? & ?).
Qed.

Lemma fmap_Ok {A B} (m : result A) (f : A → B) (b : B) :
  f <$> m = Ok b ↔ ∃ a, m = Ok a ∧ b = f a.
Proof.
  destruct m as [a|e|]; simpl; split.
  - intros [= <-]. eauto.
  - by intros (a' & [= ->] & ->).
  - discriminate.
  - by intros (? & ? & ?).
  - discriminate.
  - by intros (? & ? & ?).
Qed.

(** ** Sums, inner products and norms *)

Lemma Rsum_nonneg (l : list R) : Forall (λ x, 0 <= x)%R l → (0 <= Rsum l)%R.
Proof. induction 1 as [|x l Hx _ IH]; simpl; lra. Qed.

Lemma dot_self_nonneg (v : vector) : (0 <= dot v v)%R.
Proof.
  unfold dot. rewrite zip_with_diag. apply Rsum_nonneg.
  apply Forall_fmap, Forall_true. intros x. simpl. nra.
Qed.

Lemma dot_self_zero (v : vector) : dot v v = 0%R → Forall (λ x, x = 0%R) v.
Proof.
  induction v as [|x v IH]; [constructor|].
  unfold dot. simpl. fold (dot v v). intros H.
  pose proof (dot_self_nonneg v).
  assert (x * x = 0)%R as Hx by nra.
  assert (dot v v = 0)%R as Hv by nra.
  constructor; [nra | auto].
Qed.

Lemma dot_zero_l (u v : vector) : Forall (λ x, x = 0%R) u → dot u v = 0%R.
Proof.
  intros Hu. revert v. induction Hu as [|x u -> _ IH]; intros [|y v]; try done.
  unfold dot. simpl. fold (dot u v). rewrite IH. lra.
Qed.

Lemma dot_comm (u v : vector) : dot u v = dot v u.
Proof.
  revert v. induction u as [|x u IH]; intros [|y v]; try done.
  unfold dot. simpl. fold (dot u v) (dot v u). rewrite IH. lra.
Qed.

Lemma norm_nonneg (v : vector) : (0 <= norm v)%R.
Proof. apply sqrt_pos. Qed.

Lemma norm_zero (v : vector) : norm v = 0%R → Forall (λ x, x = 0%R) v.
Proof.
  intros H. apply dot_self_zero, sqrt_eq_0; [apply dot_self_nonneg | done].
Qed.

Lemma safe_norm_pos (v : vector) : (0 < safe_norm v)%R.
Proof.
  unfold safe_norm. case_decide; [lra|].
  pose proof (norm_nonneg v). lra.
Qed.

Lemma unit_row_length (v : vector) : length (unit_row v) = length v.
Proof. unfold unit_row. by rewrite length_fmap. Qed.

(** ** The similarity matrix *)

Lemma np_array_stackable (rows : list vector) :
  stackable rows → np_array rows = Ok (Array2D rows).
Proof.
  intros [Hne [d Hd]]. destruct rows as [|r rest]; [done|]. simpl.
  apply Forall_cons in Hd as [Hr Hrest].
  replace (forallb _ rest) with true; [done|].
  symmetry. apply forallb_forall. intros r' Hin.
  rewrite Forall_forall in Hrest. apply Nat.eqb_eq.
  rewrite Hr. apply Hrest. by apply list_elem_of_In.
Qed.

Lemma divide_rows_unit (rows : list vector) :
  divide_rows (Array2D rows) (replace_zero_norms (norm <$> rows))
  = unit_row <$> rows.
Proof.
  unfold divide_rows, replace_zero_norms.
  rewrite <- list_fmap_compose, zip_with_fmap_r, zip_with_diag.
  done.
Qed.

Lemma similarity_matrix_stackable (rows : list vector) :
  stackable rows →
  similarity_matrix rows = Ok (dot_transpose (unit_row <$> rows)).
Proof.
  intros Hs. unfold similarity_matrix.
  rewrite (np_array_stackable _ Hs).
  cbn [mbind result_bind linalg_norm_axis1].
  by rewrite divide_rows_unit.
Qed.

Lemma similarity_matrix_empty : similarity_matrix [] = Raise AxisError.
Proof. done. Qed.

Lemma similarity_matrix_Ok_inv (rows : list vector) (m : list (list R)) :
  similarity_matrix rows = Ok m →
  rows ≠ [] ∧ m = dot_transpose (unit_row <$> rows).
Proof.
  unfold similarity_matrix. destruct rows as [|r rest]; [done|].
  cbn [np_array]. case (forallb _ rest); [|done].
  cbn [mbind result_bind linalg_norm_axis1].
  intros [= <-]. split; [done|].
  by rewrite <- (divide_rows_unit (r :: rest)).
Qed.

Lemma similarity_matrix_Ok_stackable (rows : list vector) (m : list (list R)) :
  similarity_matrix rows = Ok m → stackable rows.
Proof.
  unfold similarity_matrix. destruct rows as [|r rest]; [done|].
  cbn [np_array]. destruct (forallb _ rest) eqn:Hall; [|done]. intros _.
  split; [done|]. exists (length r). constructor; [done|].
  apply Forall_forall. intros r' Hr'.
  rewrite forallb_forall in Hall. apply Nat.eqb_eq, Hall.
  by apply list_elem_of_In.
Qed.

Lemma dot_transpose_length (m : list vector) :
  length (dot_transpose m) = length m.
Proof. unfold dot_transpose. by rewrite length_fmap. Qed.

Lemma entry_dot_transpose (m : list vector) (i j : nat) (u v : vector) :
  m !! i = Some u → m !! j = Some v →
  entry (dot_transpose m) i j = dot u v.
Proof.
  intros Hi Hj. unfold entry, dot_transpose.
  erewrite (nth_lookup_Some _ i); last first.
  { rewrite list_lookup_fmap, Hi. done. }
  erewrite nth_lookup_Some; [done|].
  rewrite list_lookup_fmap, Hj. done.
Qed.

Lemma entry_cosine (rows : list vector) (i j : nat) (u v : vector) :
  rows !! i = Some u → rows !! j = Some v →
  entry (dot_transpose (unit_row <$> rows)) i j = cosine u v.
Proof.
  intros Hi Hj. apply entry_dot_transpose.
  - by rewrite list_lookup_fmap, Hi.
  - by rewrite list_lookup_fmap, Hj.
Qed.

(** ** The marking scan of one deduplication round *)

Section scan_facts.
Context (users : list string) (sim : list (list R)) (t : R).

Lemma name_at_inj (i j : nat) :
  NoDup users → i < length users → j < length users →
  name_at users i = name_at users j → i = j.
Proof.
  intros Hnd Hi Hj Heq.
  apply (proj1 (NoDup_alt users) Hnd i j (name_at users i)).
  - unfold name_at. destruct (nth_lookup_or_length users i ""); [done|lia].
  - rewrite Heq. unfold name_at.
    destruct (nth_lookup_or_length users j ""); [done|lia].
Qed.

Lemma inner_fold_spec (i k : nat) (T : gset string) (x : string) :
  x ∈ foldl (inner_body users sim t i) T (seq (S i) k) ↔
  x ∈ T ∨ ∃ j, S i ≤ j < S i + k ∧ name_at users j = x
               ∧ (entry sim i j >= t)%R.
Proof.
  induction k as [|k IH].
  - simpl. split; [auto|]. intros [?|(j & ? & _)]; [done|lia].
  - rewrite seq_S, foldl_app. simpl.
    set (T' := foldl _ T (seq (S i) k)) in *.
    unfold inner_body at 1.
    destruct (decide (name_at users (S (i + k)) ∈ T')) as [Hin|Hin].
    + rewrite IH. split.
      * intros [?|(j & ? & ? & ?)]; [auto|]. right. exists j. split; [lia|done].
      * intros [?|(j & Hj & Hx & Hd)]; [auto|].
        destruct (decide (j = S (i + k))) as [->|].
        -- subst x. by apply IH.
        -- right. exists j. split; [lia|done].
    + destruct (decide (entry sim i (S (i + k)) >= t)%R) as [Hd|Hd].
      * rewrite elem_of_union, elem_of_singleton, IH. split.
        -- intros [[?|(j & ? & ? & ?)]| ->]; [auto| |].
           ++ right. exists j. split; [lia|done].
           ++ right. exists (S (i + k)). split; [lia|done].
        -- intros [?|(j & Hj & Hx & Hd')]; [auto|].
           destruct (decide (j = S (i + k))) as [->|]; [auto|].
           left. right. exists j. split; [lia|done].
      * rewrite IH. split.
        -- intros [?|(j & ? & ? & ?)]; [auto|].
           right. exists j. split; [lia|done].
        -- intros [?|(j & Hj & Hx & Hd')]; [auto|].
           destruct (decide (j = S (i + k))) as [->|]; [done|].
           right. exists j. split; [lia|done].
Qed.

Lemma outer_body_spec (T : gset string) (i : nat) (x : string) :
  x ∈ outer_body users sim t T i ↔
  x ∈ T ∨ ((name_at users i ∉ T) ∧
           ∃ j, i < j < length users ∧ name_at users j = x
                ∧ (entry sim i j >= t)%R).
Proof.
  unfold outer_body. case_decide as Hi.
  - split; [auto|]. by intros [?|[? _]].
  - rewrite inner_fold_spec. split.
    + intros [?|(j & ? & ? & ?)]; [auto|].
      right. split; [done|]. exists j. split; [lia|done].
    + intros [?|[_ (j & ? & ? & ?)]]; [auto|].
      right. exists j. split; [lia|done].
Qed.

Lemma scan_upto_S (k : nat) :
  scan_upto users sim t (S k)
  = outer_body users sim t (scan_upto users sim t k) k.
Proof. unfold scan_upto. by rewrite seq_S, foldl_app. Qed.

(** An anchor that has been processed is never marked afterwards. *)
Lemma scan_upto_stable (k a : nat) :
  NoDup users → a ≤ k → a < length users →
  name_at users a ∈ scan_upto users sim t (S k)
  ↔ name_at users a ∈ scan_upto users sim t k.
Proof.
  intros Hnd Hak Ha. rewrite scan_upto_S, outer_body_spec. split; [|auto].
  intros [?|[_ (j & Hj & Heq & _)]]; [done|].
  apply name_at_inj in Heq; [lia|done|lia|done].
Qed.

Lemma scan_upto_spec (k j : nat) :
  NoDup users → j < length users →
  name_at users j ∈ scan_upto users sim t k ↔
  ∃ a, a < k ∧ a < j ∧ (name_at users a ∉ scan_upto users sim t k)
       ∧ (entry sim a j >= t)%R.
Proof.
  intros Hnd Hj. induction k as [|k IH].
  - unfold scan_upto. simpl. split; [set_solver|]. intros (a & ? & _). lia.
  - split.
    + rewrite scan_upto_S at 1. rewrite outer_body_spec.
      intros [Hin|[Hk (j' & Hj' & Heq & Hd)]].
      * apply IH in Hin as (a & ? & ? & Ha & Hd).
        exists a. split; [lia|]. split; [done|]. split; [|done].
        rewrite scan_upto_stable; [done|done|lia|lia].
      * apply name_at_inj in Heq; [|done|lia|done]. subst j'.
        exists k. split; [lia|]. split; [lia|]. split; [|done].
        rewrite scan_upto_stable; [done|done|lia|lia].
    + intros (a & Hak & Haj & Ha & Hd).
      rewrite scan_upto_stable in Ha; [|done|lia|lia].
      rewrite scan_upto_S, outer_body_spec.
      destruct (decide (a = k)) as [->|].
      * right. split; [done|]. exists j. split; [lia|done].
      * left. apply IH. exists a. split; [lia|done].
Qed.

Lemma scan_todrop_upto :
  scan_todrop users sim t = scan_upto users sim t (length users).
Proof. done. Qed.

(** A user is marked exactly when an earlier user that survives the
    round is similar to it. *)
Lemma scan_todrop_spec (j : nat) :
  NoDup users → j < length users →
  name_at users j ∈ scan_todrop users sim t ↔
  ∃ a, a < j ∧ (name_at users a ∉ scan_todrop users sim t)
       ∧ (entry sim a j >= t)%R.
Proof.
  intros Hnd Hj. rewrite scan_todrop_upto, scan_upto_spec by done.
  split; intros (a & H); exists a; intuition lia.
Qed.

(** Only names of the list are ever marked. *)
Lemma scan_upto_names (k : nat) (x : string) :
  x ∈ scan_upto users sim t k →
  ∃ j, 0 < j < length users ∧ name_at users j = x.
Proof.
  induction k as [|k IH]; [unfold scan_upto; simpl; set_solver|].
  rewrite scan_upto_S, outer_body_spec.
  intros [?|[_ (j & ? & ? & _)]]; [auto|]. exists j. split; [lia|done].
Qed.

Lemma scan_upto_none (k : nat) :
  (∀ a j, a < j < length users → ¬ (entry sim a j >= t)%R) →
  scan_upto users sim t k = ∅.
Proof.
  intros Hno. induction k as [|k IH]; [done|].
  rewrite scan_upto_S, IH. apply set_eq. intros x.
  rewrite outer_body_spec. split; [|set_solver].
  intros [?|[_ (j & ? & _ & Hd)]]; [done|]. by apply Hno in Hd.
Qed.

Lemma scan_todrop_none :
  (∀ a j, a < j < length users → ¬ (entry sim a j >= t)%R) →
  scan_todrop users sim t = ∅.
Proof. apply scan_upto_none. Qed.
End scan_facts.

(** ** One deduplication round *)

Lemma sublist_lookup_lt {A} (l1 l2 : list A) :
  l1 `sublist_of` l2 →
  ∀ a' j' x y, a' < j' → l1 !! a' = Some x → l1 !! j' = Some y →
  ∃ a j, a < j ∧ l2 !! a = Some x ∧ l2 !! j = Some y.
Proof.
  induction 1 as [|z l1 l2 Hsub IH|z l1 l2 Hsub IH]; intros a' j' x y Hlt Ha Hj.
  - done.
  - destruct j' as [|j']; [lia|]. destruct a' as [|a']; simpl in *.
    + injection Ha as ->.
      assert (y ∈ l2) as Hy.
      { eapply elem_of_sublist; [|done]. eapply list_elem_of_lookup_2; eauto. }
      apply list_elem_of_lookup in Hy as [j Hy].
      exists 0, (S j). split; [lia|done].
    + destruct (IH a' j' x y) as (a & j & ? & ? & ?); [lia|done|done|].
      exists (S a), (S j). split; [lia|done].
  - destruct (IH a' j' x y) as (a & j & ? & ? & ?); [lia|done|done|].
    exists (S a), (S j). split; [lia|done].
Qed.

Lemma name_at_keys (d : dict) (i : nat) (kv : string * vector) :
  d !! i = Some kv → name_at d.*1 i = kv.1.
Proof.
  intros H. unfold name_at. apply nth_lookup_Some.
  by rewrite list_lookup_fmap, H.
Qed.

Lemma vectors_of_lookup (d : dict) (i : nat) (kv : string * vector) :
  d !! i = Some kv → vectors_of d !! i = Some kv.2.
Proof. intros H. unfold vectors_of. by rewrite list_lookup_fmap, H. Qed.

Lemma round_entry (d : dict) (i j : nat) (x y : string * vector) :
  d !! i = Some x → d !! j = Some y →
  entry (dot_transpose (unit_row <$> vectors_of d)) i j = cosine x.2 y.2.
Proof.
  intros Hi Hj. apply entry_cosine; by apply vectors_of_lookup.
Qed.

Lemma drop_users_sublist (T : gset string) (d : dict) :
  drop_users T d `sublist_of` d.
Proof. apply sublist_filter. Qed.

Lemma drop_users_empty (d : dict) : drop_users ∅ d = d.
Proof.
  unfold drop_users. induction d as [|kv d IH]; [done|].
  rewrite filter_cons_True by set_solver. by rewrite IH.
Qed.

Lemma drop_users_wf (T : gset string) (d : dict) :
  wf_dict d → wf_dict (drop_users T d).
Proof.
  unfold wf_dict. intros Hnd. eapply sublist_NoDup; [done|].
  apply fmap_sublist, drop_users_sublist.
Qed.

Lemma dedup_round_stackable (t : R) (d : dict) :
  stackable (vectors_of d) →
  dedup_round t d = Ok (drop_users (round_todrop t d) d).
Proof.
  intros Hs. unfold dedup_round.
  by rewrite (similarity_matrix_stackable _ Hs).
Qed.

Lemma dedup_round_Ok_inv (t : R) (d d' : dict) :
  dedup_round t d = Ok d' →
  d ≠ [] ∧ d' = drop_users (round_todrop t d) d.
Proof.
  unfold dedup_round. intros (m & Hm & [= <-])%bind_Ok.
  apply similarity_matrix_Ok_inv in Hm as [Hne ->].
  split; [|done]. by destruct d.
Qed.

Lemma dedup_round_not_OutOfFuel (t : R) (d : dict) :
  dedup_round t d ≠ OutOfFuel.
Proof.
  unfold dedup_round, similarity_matrix. destruct d as [|[u v] d]; [done|].
  cbn [vectors_of fmap list_fmap np_array]. simpl.
  by case (forallb _ _).
Qed.

(** The head of the list is never marked. *)
Lemma round_todrop_head (t : R) (kv : string * vector) (d : dict) :
  wf_dict (kv :: d) → kv.1 ∉ round_todrop t (kv :: d).
Proof.
  intros Hnd Hin. unfold round_todrop in Hin. rewrite scan_todrop_upto in Hin.
  apply scan_upto_names in Hin as (j & Hj & Heq).
  change kv.1 with (name_at (kv :: d).*1 0) in Heq.
  apply name_at_inj in Heq; [lia|done|lia|simpl; lia].
Qed.

Lemma drop_users_stackable (t : R) (d : dict) :
  wf_dict d → stackable (vectors_of d) →
  stackable (vectors_of (drop_users (round_todrop t d) d)).
Proof.
  intros Hwf [Hne [n Hn]]. split.
  - destruct d as [|kv d]; [done|].
    unfold drop_users. rewrite filter_cons_True; [done|].
    by apply round_todrop_head.
  - exists n. unfold vectors_of in *. rewrite Forall_fmap in *.
    rewrite Forall_forall in *. intros kv Hkv. apply Hn.
    by apply list_elem_of_filter in Hkv as [_ ?].
Qed.

(** Two users that both survive a round are not similar. *)
Lemma round_survivors_apart (t : R) (d : dict) (a j : nat) (x y : string * vector) :
  wf_dict d → a < j → d !! a = Some x → d !! j = Some y →
  x.1 ∉ round_todrop t d → y.1 ∉ round_todrop t d →
  ¬ (cosine x.2 y.2 >= t)%R.
Proof.
  intros Hwf Hlt Ha Hj Hx Hy Hd. apply Hy.
  rewrite <- (name_at_keys d j y Hj). unfold round_todrop.
  apply scan_todrop_spec; [done| |].
  { rewrite length_fmap. by eapply lookup_lt_Some. }
  exists a. split; [done|]. split.
  - by rewrite (name_at_keys d a x Ha).
  - by rewrite (round_entry d a j x y).
Qed.

(** A round on the output of a round marks nobody. *)
Lemma round_todrop_fixed (t : R) (d : dict) :
  wf_dict d → round_todrop t (drop_users (round_todrop t d) d) = ∅.
Proof.
  intros Hwf. set (d' := drop_users (round_todrop t d) d).
  unfold round_todrop at 1. apply scan_todrop_none.
  intros a' j' [Hlt Hj']. rewrite length_fmap in Hj'.
  destruct (lookup_lt_is_Some_2 d' a') as [x Hx]; [lia|].
  destruct (lookup_lt_is_Some_2 d' j') as [y Hy]; [lia|].
  rewrite (round_entry d' a' j' x y Hx Hy).
  destruct (sublist_lookup_lt d' d (drop_users_sublist _ _) a' j' x y)
    as (a & j & ? & Ha & Hj); [done..|].
  eapply (round_survivors_apart t d a j x y); [done..| |].
  - apply list_elem_of_lookup_2 in Hx.
    by apply list_elem_of_filter in Hx as [? _].
  - apply list_elem_of_lookup_2 in Hy.
    by apply list_elem_of_filter in Hy as [? _].
Qed.

Lemma dedup_round_fixed (t : R) (d : dict) :
  wf_dict d → stackable (vectors_of d) →
  dedup_round t (drop_users (round_todrop t d) d)
  = Ok (drop_users (round_todrop t d) d).
Proof.
  intros Hwf Hs.
  rewrite dedup_round_stackable by by apply drop_users_stackable.
  by rewrite round_todrop_fixed, drop_users_empty.
Qed.

(** A list whose users are pairwise not similar is left as it is. *)
Lemma round_todrop_apart (t : R) (d : dict) :
  (∀ a j x y, a < j → d !! a = Some x → d !! j = Some y →
              ¬ (cosine x.2 y.2 >= t)%R) →
  round_todrop t d = ∅.
Proof.
  intros Hno. apply scan_todrop_none.
  intros a j [Hlt Hj]. rewrite length_fmap in Hj.
  destruct (lookup_lt_is_Some_2 d a) as [x Hx]; [lia|].
  destruct (lookup_lt_is_Some_2 d j) as [y Hy]; [lia|].
  rewrite (round_entry d a j x y Hx Hy). by apply (Hno a j x y).
Qed.

Lemma dedup_round_apart (t : R) (d : dict) :
  stackable (vectors_of d) →
  (∀ a j x y, a < j → d !! a = Some x → d !! j = Some y →
              ¬ (cosine x.2 y.2 >= t)%R) →
  dedup_round t d = Ok d.
Proof.
  intros Hs Hno. rewrite dedup_round_stackable by done.
  by rewrite round_todrop_apart, drop_users_empty.
Qed.

(** ** The [while] loop of [deduplicate] *)

Lemma dedup_body_Ok_inv (t : R) (st st' : dedup_state) :
  dedup_body t st = Ok st' →
  ∃ d', dedup_round t (curr st) = Ok d' ∧
        st' = DedupState (Z.of_nat (length (curr st))) (iteration st + 1) d'.
Proof.
  unfold dedup_body. intros (d' & Hd' & [= <-])%bind_Ok. eauto.
Qed.

Lemma dedup_body_not_OutOfFuel (t : R) (st : dedup_state) :
  dedup_body t st ≠ OutOfFuel.
Proof.
  unfold dedup_body. pose proof (dedup_round_not_OutOfFuel t (curr st)).
  by destruct (dedup_round t (curr st)).
Qed.

Lemma dedup_guard_true (runs : Z) (st : dedup_state) :
  dedup_guard runs st = true ↔
  Z.of_nat (length (curr st)) ≠ prev st ∧ (iteration st < runs)%Z.
Proof.
  unfold dedup_guard. rewrite andb_true_iff, negb_true_iff.
  rewrite Z.eqb_neq, Z.ltb_lt. done.
Qed.

Lemma dedup_guard_false (runs : Z) (st : dedup_state) :
  dedup_guard runs st = false ↔
  Z.of_nat (length (curr st)) = prev st ∨ (runs <= iteration st)%Z.
Proof.
  unfold dedup_guard. rewrite andb_false_iff, negb_false_iff.
  rewrite Z.eqb_eq, Z.ltb_ge. done.
Qed.

Lemma dedup_while_exit (fuel : nat) (t : R) (runs : Z) (st : dedup_state) :
  dedup_guard runs st = false → dedup_while fuel t runs st = Ok st.
Proof. intros H. destruct fuel; simpl; by rewrite H. Qed.

(** [runs - iteration] turns of fuel are enough. *)
Lemma dedup_while_enough (fuel : nat) (t : R) (runs : Z) (st : dedup_state) :
  Z.to_nat (runs - iteration st) ≤ fuel →
  dedup_while fuel t runs st ≠ OutOfFuel.
Proof.
  revert st. induction fuel as [|fuel IH]; intros st Hfuel;
    simpl; destruct (dedup_guard runs st) eqn:Hg; try done.
  - apply dedup_guard_true in Hg as [_ Hg]. lia.
  - apply dedup_guard_true in Hg as [_ Hg].
    pose proof (dedup_body_not_OutOfFuel t st) as Hb.
    destruct (dedup_body t st) as [st'| |] eqn:Hbody; [|done..].
    cbn [mbind result_bind]. apply IH.
    apply dedup_body_Ok_inv in Hbody as (d' & _ & ->). simpl. lia.
Qed.

(** More fuel does not change an outcome that was reached. *)
Lemma dedup_while_fuel_mono (fuel fuel' : nat) (t : R) (runs : Z)
    (st : dedup_state) :
  fuel ≤ fuel' → dedup_while fuel t runs st ≠ OutOfFuel →
  dedup_while fuel' t runs st = dedup_while fuel t runs st.
Proof.
  revert fuel' st. induction fuel as [|fuel IH]; intros fuel' st Hle;
    simpl; destruct (dedup_guard runs st) eqn:Hg; try done.
  - intros _. by apply dedup_while_exit.
  - destruct fuel' as [|fuel']; [lia|]. simpl. rewrite Hg.
    destruct (dedup_body t st) as [st'| |]; [|done..].
    cbn [mbind result_bind]. apply IH. lia.
  - intros _. by apply dedup_while_exit.
Qed.

(** The counter of the final state is the number of rounds performed. *)
Lemma dedup_while_iterations (fuel : nat) (t : R) (runs : Z)
    (st st' : dedup_state) :
  dedup_while fuel t runs st = Ok st' →
  (iteration st <= iteration st' ∧ iteration st' <= Z.max (iteration st) runs)%Z.
Proof.
  revert st. induction fuel as [|fuel IH]; intros st;
    simpl; destruct (dedup_guard runs st) eqn:Hg; try done.
  - intros [= <-]. lia.
  - apply dedup_guard_true in Hg as [_ Hg].
    intros (st1 & Hbody & Hrest)%bind_Ok.
    apply dedup_body_Ok_inv in Hbody as (d' & _ & ->).
    apply IH in Hrest. simpl in Hrest. lia.
  - intros [= <-]. lia.
Qed.

Lemma dedup_while_rtc (fuel : nat) (t : R) (runs : Z) (st st' : dedup_state) :
  dedup_while fuel t runs st = Ok st' →
  rtc (dedup_step t runs) st st' ∧ dedup_guard runs st' = false.
Proof.
  revert st. induction fuel as [|fuel IH]; intros st;
    simpl; destruct (dedup_guard runs st) eqn:Hg; try done.
  - by intros [= <-].
  - intros (st1 & Hbody & Hrest)%bind_Ok.
    apply IH in Hrest as [Hrtc Hexit]. split; [|done].
    eapply rtc_l; [|done]. by split.
  - by intros [= <-].
Qed.

Lemma dedup_step_sublist (t : R) (runs : Z) (st st' : dedup_state) :
  dedup_step t runs st st' → curr st' `sublist_of` curr st.
Proof.
  intros [_ (d' & Hround & ->)%dedup_body_Ok_inv]. simpl.
  apply dedup_round_Ok_inv in Hround as [_ ->]. apply drop_users_sublist.
Qed.

Lemma dedup_steps_sublist (t : R) (runs : Z) (st st' : dedup_state) :
  rtc (dedup_step t runs) st st' → curr st' `sublist_of` curr st.
Proof.
  induction 1 as [|st st1 st' Hstep _ IH]; [done|].
  etrans; [done|]. by eapply dedup_step_sublist.
Qed.

(** A round that removes nobody is the last one. *)
Lemma dedup_body_unchanged_exit (t : R) (runs : Z) (st st' : dedup_state) :
  dedup_body t st = Ok st' →
  length (curr st') = length (curr st) →
  dedup_guard runs st' = false.
Proof.
  intros (d' & _ & ->)%dedup_body_Ok_inv. simpl. intros Hlen.
  apply dedup_guard_false. left. simpl. by rewrite Hlen.
Qed.

(** On a well-formed non-empty input the loop returns the output of the
    first round, after one or two rounds. *)
Lemma dedup_while_closed (fuel : nat) (t : R) (runs : Z) (d : dict) :
  wf_dict d → stackable (vectors_of d) → (0 < runs)%Z →
  Z.to_nat runs ≤ fuel →
  ∃ st', dedup_while fuel t runs (dedup_init d) = Ok st'
         ∧ curr st' = drop_users (round_todrop t d) d
         ∧ (1 <= iteration st' <= 2)%Z.
Proof.
  intros Hwf Hs Hruns Hfuel. set (d' := drop_users (round_todrop t d) d).
  destruct fuel as [|fuel]; [lia|]. simpl.
  assert (dedup_guard runs (dedup_init d) = true) as ->.
  { apply dedup_guard_true. simpl. lia. }
  unfold dedup_body at 1. simpl curr. rewrite dedup_round_stackable by done.
  cbn [mbind result_bind]. fold d'.
  set (st1 := DedupState _ _ d').
  destruct (dedup_guard runs st1) eqn:Hg1.
  - apply dedup_guard_true in Hg1 as Hg1'. destruct Hg1' as [_ Hlt].
    simpl in Hlt. destruct fuel as [|fuel]; [lia|]. simpl. rewrite Hg1.
    unfold dedup_body at 1. simpl curr. unfold d' at 2.
    rewrite dedup_round_fixed by done. cbn [mbind result_bind]. fold d'.
    set (st2 := DedupState _ _ d').
    exists st2. split; [|done].
    apply dedup_while_exit, dedup_guard_false. by left.
  - exists st1. split; [|done]. by apply dedup_while_exit.
Qed.

Lemma deduplicate_closed (d : dict) (t : option R) (runs : option Z) :
  wf_dict d → stackable (vectors_of d) →
  (0 < default deduplicate_default_runs runs)%Z →
  deduplicate d t runs
  = Ok (drop_users (round_todrop (default deduplicate_default_threshold t) d) d).
Proof.
  intros Hwf Hs Hruns. unfold deduplicate, deduplicate_fuel.
  destruct (dedup_while_closed
              (Z.to_nat (default deduplicate_default_runs runs))
              (default deduplicate_default_threshold t)
              (default deduplicate_default_runs runs) d)
    as (st' & -> & <- & _); done.
Qed.

Lemma deduplicate_no_round (d : dict) (t : option R) (runs : option Z) :
  (default deduplicate_default_runs runs <= 0)%Z →
  deduplicate d t runs = Ok d.
Proof.
  intros Hruns. unfold deduplicate, deduplicate_fuel.
  rewrite dedup_while_exit; [done|].
  apply dedup_guard_false. right. simpl. lia.
Qed.

Lemma deduplicate_Ok_stackable (d out : dict) (t : option R) (runs : option Z) :
  (0 < default deduplicate_default_runs runs)%Z →
  deduplicate d t runs = Ok out → stackable (vectors_of d).
Proof.
  intros Hruns. unfold deduplicate, deduplicate_fuel.
  destruct (Z.to_nat (default deduplicate_default_runs runs)) as [|fuel] eqn:Hf;
    [lia|].
  simpl dedup_while.
  rewrite (proj2 (dedup_guard_true _ (dedup_init d))) by (simpl; lia).
  unfold dedup_body at 1. simpl curr.
  destruct (dedup_round _ d) as [d'| |] eqn:Hround; [|done..]. intros _.
  unfold dedup_round in Hround.
  apply bind_Ok in Hround as (m & Hm & _).
  by eapply similarity_matrix_Ok_stackable.
Qed.

Lemma deduplicate_Ok_sublist (d out : dict) (t : option R) (runs : option Z) :
  deduplicate d t runs = Ok out → out `sublist_of` d.
Proof.
  unfold deduplicate, deduplicate_fuel.
  intros (final & Hfinal & ->)%fmap_Ok.
  apply dedup_while_rtc in Hfinal as [Hrtc _].
  by apply dedup_steps_sublist in Hrtc.
Qed.

(** ** The activity aggregator *)

Lemma unique_elem_of {A} `{EqDecision A} (l : list A) (x : A) :
  x ∈ unique l ↔ x ∈ l.
Proof.
  induction l as [|y l IH]; simpl; [done|].
  rewrite !elem_of_cons, list_elem_of_filter, IH.
  destruct (decide (x = y)); [by split; auto|].
  split; [intros [?|[_ ?]]; auto|intros [?|?]; auto].
Qed.

Lemma unique_NoDup {A} `{EqDecision A} (l : list A) : NoDup (unique l).
Proof.
  induction l as [|y l IH]; simpl; constructor.
  - rewrite list_elem_of_filter. by intros [? _].
  - by apply NoDup_filter.
Qed.

Lemma sorted_unique_elem_of (l : list string) (x : string) :
  x ∈ sorted_unique l ↔ x ∈ l.
Proof.
  unfold sorted_unique. rewrite merge_sort_Permutation. apply unique_elem_of.
Qed.

Lemma sorted_unique_NoDup (l : list string) : NoDup (sorted_unique l).
Proof.
  unfold sorted_unique. rewrite merge_sort_Permutation. apply unique_NoDup.
Qed.

Lemma sorted_unique_length (l : list string) :
  length (sorted_unique l) = length (unique l).
Proof. unfold sorted_unique. by rewrite merge_sort_Permutation. Qed.

(** Counting the elements of a list by a key: the classes of the keys of a
    duplicate-free list that covers them partition the list. *)
Lemma sum_indicator {B} `{EqDecision B} (K : list B) (y : B) :
  NoDup K →
  sum_list_with (λ k, if decide (y = k) then 1 else 0) K
  = if decide (y ∈ K) then 1 else 0.
Proof.
  induction 1 as [|k K Hk _ IH]; simpl; [done|].
  rewrite IH. destruct (decide (y = k)) as [->|Hne].
  - rewrite decide_False by done. rewrite decide_True by left. done.
  - destruct (decide (y ∈ K)).
    + rewrite decide_True by by right. done.
    + rewrite decide_False; [done|]. by intros [?|?]%elem_of_cons.
Qed.

Lemma sum_list_with_add {B} (f g : B → nat) (K : list B) :
  sum_list_with (λ k, f k + g k) K = sum_list_with f K + sum_list_with g K.
Proof. induction K as [|k K IH]; simpl; lia. Qed.

Lemma sum_list_with_ext {B} (f g : B → nat) (K : list B) :
  (∀ k, k ∈ K → f k = g k) → sum_list_with f K = sum_list_with g K.
Proof.
  induction K as [|k K IH]; intros Hfg; simpl; [done|].
  rewrite (Hfg k) by left. rewrite IH; [done|].
  intros k' Hk'. apply Hfg. by right.
Qed.

Lemma sum_list_with_zero {B} (K : list B) : sum_list_with (λ _, 0) K = 0.
Proof. induction K as [|k K IH]; simpl; lia. Qed.

Lemma count_partition {A B} `{EqDecision B} (f : A → B) (P : A → Prop)
    `{∀ x, Decision (P x)} (K : list B) (l : list A) :
  NoDup K → (∀ x, x ∈ l → P x → f x ∈ K) →
  sum_list_with (λ k, length (filter (λ x, P x ∧ f x = k) l)) K
  = length (filter P l).
Proof.
  intros HK. induction l as [|x l IH]; intros Hcov.
  - simpl. apply sum_list_with_zero.
  - assert (sum_list_with (λ k, length (filter (λ x, P x ∧ f x = k) l)) K
            = length (filter P l)) as IH'.
    { apply IH. intros z Hz. apply Hcov. by right. }
    destruct (decide (P x)) as [HP|HP].
    + rewrite (filter_cons_True P) by done. simpl. rewrite <- IH'.
      rewrite (sum_list_with_ext _
        (λ k, (if decide (f x = k) then 1 else 0)
              + length (filter (λ x, P x ∧ f x = k) l))).
      2:{ intros k _. rewrite filter_cons.
          destruct (decide (f x = k)).
          - rewrite decide_True by done. done.
          - rewrite decide_False by (by intros [_ ?]). done. }
      rewrite sum_list_with_add, sum_indicator by done.
      rewrite decide_True; [done|]. apply Hcov; [left|done].
    + rewrite (filter_cons_False P) by done. rewrite <- IH'.
      apply sum_list_with_ext. intros k _.
      rewrite filter_cons_False; [done|]. by intros [? _].
Qed.

Lemma filter_fmap {A B} (f : A → B) (P : B → Prop) `{∀ y, Decision (P y)}
    (l : list A) :
  filter P (f <$> l) = f <$> filter (λ x, P (f x)) l.
Proof.
  induction l as [|x l IH]; [done|]. rewrite fmap_cons, !filter_cons.
  simpl. destruct (decide (P (f x))); by rewrite IH.
Qed.

Lemma sum_list_fmap {B} (g : B → nat) (l : list B) :
  sum_list (g <$> l) = sum_list_with g l.
Proof. induction l as [|x l IH]; csimpl; [done|]. by rewrite IH. Qed.

Lemma length_filter_pos {A} (P : A → Prop) `{∀ x, Decision (P x)} (l : list A) :
  0 < length (filter P l) ↔ ∃ x, x ∈ l ∧ P x.
Proof.
  split.
  - destruct (filter P l) as [|x l'] eqn:Hf; simpl; [lia|]. intros _.
    assert (x ∈ filter P l) as Hx by (rewrite Hf; left).
    apply list_elem_of_filter in Hx as [? ?]. eauto.
  - intros (x & Hx & HP).
    assert (x ∈ filter P l) as Hin by by apply list_elem_of_filter.
    destruct (filter P l); [by apply elem_of_nil in Hin|simpl; lia].
Qed.

Section aggregator.
Context (df : dataframe).

Lemma group_keys_NoDup :
  NoDup (merge_sort key_le (unique (group_key <$> df))).
Proof. rewrite merge_sort_Permutation. apply unique_NoDup. Qed.

Lemma group_keys_elem_of (k : string * string) :
  k ∈ merge_sort key_le (unique (group_key <$> df))
  ↔ ∃ p, p ∈ df ∧ group_key p = k.
Proof.
  rewrite merge_sort_Permutation, unique_elem_of, list_elem_of_fmap.
  split; intros (p & ? & ?); eauto.
Qed.

Lemma group_count (k : string * string) :
  length (filter (λ p, group_key p = k) df) = activity_count df k.1 k.2.
Proof.
  unfold activity_count. f_equal. apply list_filter_iff.
  intros [a b]. destruct k as [u s]. unfold group_key. simpl. split.
  - by intros [= -> ->].
  - by intros [-> ->].
Qed.

Lemma activity_count_pos (u s : string) :
  0 < activity_count df u s ↔ ∃ p, p ∈ df ∧ group_key p = (u, s).
Proof.
  change (activity_count df u s) with (activity_count df (u, s).1 (u, s).2).
  rewrite <- group_count. apply length_filter_pos.
Qed.

Lemma user_total_pos (u : string) :
  0 < user_total df u ↔ ∃ p, p ∈ df ∧ author_name p = u.
Proof. apply length_filter_pos. Qed.

Lemma groupby_size_elem_of (r : count_row) :
  r ∈ groupby_size df ↔
  ∃ u s, r = CountRow u s (activity_count df u s)
         ∧ 0 < activity_count df u s.
Proof.
  unfold groupby_size. rewrite list_elem_of_fmap. split.
  - intros ([u s] & -> & Hk). exists u, s. rewrite group_count.
    split; [done|]. apply activity_count_pos. by apply group_keys_elem_of.
  - intros (u & s & -> & Hpos). exists (u, s). cbv beta. rewrite group_count.
    split; [done|]. apply group_keys_elem_of. by apply activity_count_pos.
Qed.

Lemma groupby_size_keys :
  row_key <$> groupby_size df = merge_sort key_le (unique (group_key <$> df)).
Proof.
  unfold groupby_size. rewrite <- list_fmap_compose.
  rewrite <- (list_fmap_id (merge_sort _ _)) at 2.
  apply list_fmap_ext. by intros _ [u s] _.
Qed.

Lemma groupby_size_NoDup : NoDup (row_key <$> groupby_size df).
Proof. rewrite groupby_size_keys. apply group_keys_NoDup. Qed.

(** The sum of a user's counts is the number of the user's posts. *)
Lemma groupby_size_total (u : string) :
  sum_list (row_count <$> filter (λ r, row_author r = u) (groupby_size df))
  = user_total df u.
Proof.
  unfold groupby_size. rewrite filter_fmap, <- list_fmap_compose, sum_list_fmap.
  simpl. unfold user_total.
  rewrite <- (count_partition group_key (λ p, author_name p = u)
               (filter (λ k : string * string, k.1 = u)
                       (merge_sort key_le (unique (group_key <$> df))))).
  - apply sum_list_with_ext. intros [a s] [Ha _]%list_elem_of_filter.
    simpl in *. subst a. f_equal. apply list_filter_iff.
    intros p. split; [|by intros [_ ?]].
    intros Hp. split; [|done]. unfold group_key in Hp. by injection Hp.
  - apply NoDup_filter, group_keys_NoDup.
  - intros p Hp Hu. apply list_elem_of_filter. split; [done|].
    apply group_keys_elem_of. eauto.
Qed.

Lemma groupby_size_authors (u : string) :
  u ∈ row_author <$> groupby_size df ↔ 0 < user_total df u.
Proof.
  rewrite user_total_pos, list_elem_of_fmap. split.
  - intros (r & -> & (a & s & -> & (p & Hp & Hk)%activity_count_pos)%groupby_size_elem_of).
    exists p. split; [done|]. by injection Hk.
  - intros (p & Hp & <-).
    exists (CountRow (author_name p) (subreddit p)
                     (activity_count df (author_name p) (subreddit p))).
    split; [done|]. apply groupby_size_elem_of.
    exists (author_name p), (subreddit p). split; [done|].
    apply activity_count_pos. eauto.
Qed.

Lemma groupby_sum_elem_of (a : string) (n : nat) :
  (a, n) ∈ groupby_sum (groupby_size df)
  ↔ 0 < user_total df a ∧ n = user_total df a.
Proof.
  unfold groupby_sum. rewrite list_elem_of_fmap. split.
  - intros (a' & [= -> ->] & Ha).
    rewrite sorted_unique_elem_of, groupby_size_authors in Ha.
    by rewrite groupby_size_total.
  - intros [Hpos ->]. exists a. rewrite groupby_size_total. split; [done|].
    by rewrite sorted_unique_elem_of, groupby_size_authors.
Qed.

(** The index of [user_total_posts] after the lurker cutoff. *)
Lemma survivors_elem_of (u : string) :
  u ∈ (filter (λ ut : string * nat, lurker_threshold ≤ ut.2)
              (groupby_sum (groupby_size df))).*1
  ↔ lurker_threshold ≤ user_total df u.
Proof.
  rewrite list_elem_of_fmap. split.
  - intros ([a n] & -> & [Hn [_ ->]%groupby_sum_elem_of]%list_elem_of_filter).
    done.
  - intros Hu. exists (u, user_total df u). split; [done|].
    apply list_elem_of_filter. split; [done|].
    apply groupby_sum_elem_of. unfold lurker_threshold in Hu. lia.
Qed.

Lemma series_get_total (u : string) :
  lurker_threshold ≤ user_total df u →
  series_get (filter (λ ut : string * nat, lurker_threshold ≤ ut.2)
                     (groupby_sum (groupby_size df))) u
  = Ok (user_total df u).
Proof.
  intros Hu. unfold series_get.
  destruct (list_find _ _) as [[i [a n]]|] eqn:Hfind.
  - apply list_find_Some in Hfind as (Hi & Ha & _). simpl in Ha. subst a.
    apply list_elem_of_lookup_2, list_elem_of_filter in Hi as [_ Hi].
    apply groupby_sum_elem_of in Hi as [_ ->]. done.
  - apply list_find_None in Hfind. rewrite Forall_forall in Hfind.
    apply survivors_elem_of, list_elem_of_fmap in Hu as (kv & -> & Hkv).
    by apply Hfind in Hkv.
Qed.

(** The rows of [user_subreddit_counts] after the lurker cutoff. *)
Lemma surviving_rows_elem_of (r : count_row) :
  r ∈ filter (λ r, row_author r ∈
                (filter (λ ut : string * nat, lurker_threshold ≤ ut.2)
                        (groupby_sum (groupby_size df))).*1)
             (groupby_size df)
  ↔ ∃ u s, r = CountRow u s (activity_count df u s)
           ∧ 0 < activity_count df u s
           ∧ lurker_threshold ≤ user_total df u.
Proof.
  rewrite list_elem_of_filter, survivors_elem_of, groupby_size_elem_of.
  split.
  - intros [Hu (u & s & -> & Hpos)]. by exists u, s.
  - intros (u & s & -> & Hpos & Hu). split; [done|]. by exists u, s.
Qed.

Lemma surviving_rows_NoDup :
  NoDup (row_key <$>
    filter (λ r, row_author r ∈
              (filter (λ ut : string * nat, lurker_threshold ≤ ut.2)
                      (groupby_sum (groupby_size df))).*1)
           (groupby_size df)).
Proof.
  eapply sublist_NoDup; [apply groupby_size_NoDup|].
  apply fmap_sublist, sublist_filter.
Qed.
End aggregator.

(** ** The vector builder *)

Lemma index_dict_fold_notin (l : list string) (b : nat) (m : gmap string nat)
    (s : string) :
  s ∉ l →
  foldl (λ m (isr : nat * string), <[isr.2 := isr.1]> m) m
        (zip (seq b (length l)) l) !! s = m !! s.
Proof.
  revert b m. induction l as [|x l IH]; intros b m Hs; simpl; [done|].
  apply not_elem_of_cons in Hs as [Hne Hs].
  rewrite IH by done. by rewrite lookup_insert_ne.
Qed.

Lemma index_dict_fold_lookup (l : list string) (b : nat) (m : gmap string nat)
    (k : nat) (s : string) :
  NoDup l → l !! k = Some s →
  foldl (λ m (isr : nat * string), <[isr.2 := isr.1]> m) m
        (zip (seq b (length l)) l) !! s = Some (b + k).
Proof.
  revert b m k. induction l as [|x l IH]; intros b m k Hnd Hk; [done|].
  apply NoDup_cons in Hnd as [Hx Hnd]. simpl.
  destruct k as [|k]; simpl in Hk.
  - injection Hk as ->. rewrite index_dict_fold_notin by done.
    simpl. rewrite lookup_insert_eq. f_equal. lia.
  - rewrite (IH (S b) _ k) by done. f_equal. lia.
Qed.

Lemma index_dict_lookup (subs : list string) (k : nat) (s : string) :
  NoDup subs → subs !! k = Some s → index_dict subs !! s = Some k.
Proof.
  intros Hnd Hk. unfold index_dict.
  by rewrite (index_dict_fold_lookup subs 0 ∅ k s).
Qed.

Lemma dict_get_elem_of (d : dict) (u : string) :
  u ∈ d.*1 → ∃ v, dict_get d u = Ok v ∧ (u, v) ∈ d.
Proof.
  intros (kv & -> & Hkv)%list_elem_of_fmap. unfold dict_get.
  destruct (list_find _ d) as [[i [a v]]|] eqn:Hfind.
  - apply list_find_Some in Hfind as (Hi & Ha & _). simpl in Ha. subst a.
    exists v. split; [done|]. by eapply list_elem_of_lookup_2.
  - apply list_find_None in Hfind. rewrite Forall_forall in Hfind.
    by apply Hfind in Hkv.
Qed.

Lemma dict_replace_keys (d : dict) (u : string) (v : vector) :
  (dict_replace d u v).*1 = d.*1.
Proof.
  unfold dict_replace. rewrite <- list_fmap_compose.
  apply list_fmap_ext. intros _ kv _. simpl. by case_decide.
Qed.

Lemma dict_replace_elem_of (d : dict) (u a : string) (v w : vector) :
  (a, w) ∈ dict_replace d u v →
  (a = u ∧ w = v) ∨ (a ≠ u ∧ (a, w) ∈ d).
Proof.
  unfold dict_replace. intros ([a' w'] & Heq & Hin)%list_elem_of_fmap.
  simpl in Heq. case_decide as Ha; injection Heq as -> ->; [by left|by right].
Qed.

Section vector_loop.
Context (subs : list string) (totals : list (string * nat)) (tot : string → nat).
Hypothesis Hsubs : NoDup subs.

Lemma cell_ok_mono (done : list count_row) (r : count_row)
    (u s : string) (x : R) :
  cell_ok tot done u s x → (u, s) ≠ row_key r →
  cell_ok tot (done ++ [r]) u s x.
Proof.
  intros [(r' & Hr' & Hk & ->)|[Hnot ->]] Hne.
  - left. exists r'. split; [|done]. apply elem_of_app. by left.
  - right. split; [|done]. rewrite fmap_app, elem_of_app.
    intros [?|Hin]; [done|]. apply list_elem_of_singleton in Hin. done.
Qed.

Lemma vector_row_step (done : list count_row) (uv : dict) (r : count_row) :
  loop_inv subs tot done uv →
  row_key r ∉ row_key <$> done →
  row_subreddit r ∈ subs →
  series_get totals (row_author r) = Ok (tot (row_author r)) →
  ∃ uv', vector_row_body subs (index_dict subs) totals uv r = Ok uv'
         ∧ loop_inv subs tot (done ++ [r]) uv'.
Proof.
  intros (Hnd & Hkeys & Hcells) Hfresh Hsub Htot.
  destruct r as [a s c]. simpl in *. unfold row_key in Hfresh. simpl in Hfresh.
  apply list_elem_of_lookup in Hsub as [k0 Hk0].
  unfold vector_row_body. simpl.
  set (uv1 := if decide (a ∈ uv.*1) then uv
              else uv ++ [(a, np_zeros (length subs))]).
  assert (NoDup uv1.*1) as Hnd1.
  { unfold uv1. case_decide as Ha; [done|].
    rewrite fmap_app. apply NoDup_app. split; [done|]. split.
    - intros x Hx Hx'. simpl in Hx'. apply list_elem_of_singleton in Hx'.
      by subst x.
    - simpl. apply NoDup_singleton. }
  assert (∀ u, u ∈ uv1.*1 ↔ u ∈ uv.*1 ∨ u = a) as Hkeys1.
  { intros u. unfold uv1. case_decide as Ha.
    - split; [auto|]. by intros [?| ->].
    - rewrite fmap_app, elem_of_app. simpl.
      by rewrite list_elem_of_singleton. }
  assert (∀ u v, (u, v) ∈ uv1 →
            length v = length subs ∧
            ∀ k s', subs !! k = Some s' →
              ∃ x, v !! k = Some x ∧ cell_ok tot done u s' x) as Hcells1.
  { intros u v. unfold uv1. case_decide as Ha; [apply Hcells|].
    rewrite elem_of_app. intros [?|Hin]; [by apply Hcells|].
    apply list_elem_of_singleton in Hin. injection Hin as -> ->.
    unfold np_zeros. rewrite length_replicate. split; [done|].
    intros k s' Hk. exists 0%R. split.
    - apply lookup_replicate_2. by eapply lookup_lt_Some.
    - right. split; [|done]. intros (r' & Hkey & Hr')%list_elem_of_fmap.
      apply Ha, Hkeys, list_elem_of_fmap. exists r'. split; [|done].
      unfold row_key in Hkey. by injection Hkey. }
  rewrite (index_dict_lookup subs k0 s Hsubs Hk0). simpl.
  rewrite Htot. cbn [mbind result_bind].
  destruct (dict_get_elem_of uv1 a) as (v0 & -> & Hv0).
  { apply Hkeys1. by right. }
  cbn [mbind result_bind].
  destruct (Hcells1 a v0 Hv0) as [Hlen0 Hcell0].
  unfold array_set. rewrite decide_True; last first.
  { rewrite Hlen0. by eapply lookup_lt_Some. }
  cbn [mbind result_bind].
  eexists. split; [done|]. split; [|split].
  - by rewrite dict_replace_keys.
  - intros u. rewrite dict_replace_keys, Hkeys1, Hkeys.
    rewrite fmap_app, elem_of_app. simpl.
    by rewrite list_elem_of_singleton.
  - intros u v [[-> ->]|[Hne Hin]]%dict_replace_elem_of.
    + rewrite length_insert. split; [done|]. intros k s' Hk.
      destruct (decide (k = k0)) as [->|Hkne].
      * assert (s' = s) as -> by congruence.
        eexists. split.
        { apply list_lookup_insert_eq. rewrite Hlen0.
          by eapply lookup_lt_Some. }
        left. exists (CountRow a s c). split; [|done].
        apply elem_of_app. right. by apply list_elem_of_singleton.
      * rewrite list_lookup_insert_ne by done.
        destruct (Hcell0 k s' Hk) as (x & Hx & Hok).
        exists x. split; [done|]. apply cell_ok_mono; [done|].
        unfold row_key. simpl. intros [= ->]. apply Hkne.
        by apply (NoDup_lookup subs k k0 s).
    + destruct (Hcells1 u v Hin) as [Hlen Hcell]. split; [done|].
      intros k s' Hk. destruct (Hcell k s' Hk) as (x & Hx & Hok).
      exists x. split; [done|]. apply cell_ok_mono; [done|].
      unfold row_key. simpl. by intros [= -> _].
Qed.

Lemma for_each_rows (todo done : list count_row) (uv : dict) :
  loop_inv subs tot done uv →
  NoDup (row_key <$> (done ++ todo)) →
  (∀ r, r ∈ todo →
     row_subreddit r ∈ subs ∧
     series_get totals (row_author r) = Ok (tot (row_author r))) →
  ∃ uv', for_each (vector_row_body subs (index_dict subs) totals) uv todo
         = Ok uv'
         ∧ loop_inv subs tot (done ++ todo) uv'.
Proof.
  revert done uv. induction todo as [|r todo IH]; intros done uv Hinv Hnd Hrows.
  - exists uv. by rewrite app_nil_r.
  - destruct (Hrows r) as [Hsub Htot]; [left|].
    destruct (vector_row_step done uv r) as (uv1 & Hstep & Hinv1); [done| |done..|].
    { rewrite fmap_app in Hnd. apply NoDup_app in Hnd as (_ & Hdisj & _).
      intros Hin. apply (Hdisj _ Hin). rewrite fmap_cons. left. }
    destruct (IH (done ++ [r]) uv1) as (uv' & Hrest & Hinv'); [done| | |].
    { by rewrite <- app_assoc. }
    { intros r' Hr'. apply Hrows. by right. }
    exists uv'. simpl. rewrite Hstep. cbn [mbind result_bind].
    split; [done|]. by rewrite <- app_assoc in Hinv'.
Qed.
End vector_loop.

Section create_user_vectors_facts.
Context (df : dataframe).

Local Abbreviation subs := (sorted_unique (subreddit <$> df)).
Local Abbreviation totals :=
  (filter (λ ut : string * nat, lurker_threshold ≤ ut.2)
          (groupby_sum (groupby_size df))).
Local Abbreviation rows :=
  (filter (λ r, row_author r ∈ totals.*1) (groupby_size df)).

Lemma vector_loop_result :
  ∃ uv, for_each (vector_row_body subs (index_dict subs) totals) [] rows
        = Ok uv
        ∧ loop_inv subs (user_total df) rows uv.
Proof.
  apply (for_each_rows subs totals (user_total df)
           (sorted_unique_NoDup _) rows [] []).
  - split; [constructor|]. split; [done|].
    intros u v Hin. by apply elem_of_nil in Hin.
  - apply surviving_rows_NoDup.
  - intros r (u & s & -> & Hpos & Hu)%surviving_rows_elem_of. simpl. split.
    + apply sorted_unique_elem_of, list_elem_of_fmap.
      apply activity_count_pos in Hpos as (p & Hp & Hk).
      exists p. split; [|done]. by injection Hk.
    + by apply series_get_total.
Qed.

Lemma surviving_rows_authors (u : string) :
  u ∈ row_author <$> rows ↔ lurker_threshold ≤ user_total df u.
Proof.
  rewrite list_elem_of_fmap. split.
  - by intros (r & -> & (a & s & -> & _ & Hu)%surviving_rows_elem_of).
  - intros Hu.
    assert (0 < user_total df u) as Hpos.
    { unfold lurker_threshold in Hu. lia. }
    apply user_total_pos in Hpos as (p & Hp & <-).
    exists (CountRow (author_name p) (subreddit p)
              (activity_count df (author_name p) (subreddit p))).
    split; [done|]. apply surviving_rows_elem_of.
    exists (author_name p), (subreddit p). split; [done|]. split; [|done].
    apply activity_count_pos. eauto.
Qed.

Lemma loop_inv_built (uv : dict) :
  loop_inv subs (user_total df) rows uv → built_from df uv.
Proof.
  intros (Hnd & Hkeys & Hcells). split; [done|]. split.
  - intros u. by rewrite Hkeys, surviving_rows_authors.
  - intros u v Hin. destruct (Hcells u v Hin) as [Hlen Hcell].
    assert (lurker_threshold ≤ user_total df u) as Hu.
    { apply surviving_rows_authors, Hkeys, list_elem_of_fmap.
      by exists (u, v). }
    apply list_eq. intros k. unfold fraction_vector.
    rewrite list_lookup_fmap.
    destruct (subs !! k) as [s|] eqn:Hk; simpl.
    + destruct (Hcell k s Hk) as (x & -> & Hx). f_equal.
      destruct Hx as [(r & Hr & Hkey & ->)|[Hnot ->]].
      * apply surviving_rows_elem_of in Hr as (a & s' & -> & _).
        unfold row_key in Hkey. simpl in *. by injection Hkey as -> ->.
      * destruct (decide (0 < activity_count df u s)) as [Hpos|Hzero].
        -- exfalso. apply Hnot, list_elem_of_fmap.
           exists (CountRow u s (activity_count df u s)). split; [done|].
           apply surviving_rows_elem_of. by exists u, s.
        -- replace (activity_count df u s) with 0 by lia.
           simpl. unfold Rdiv. by rewrite Rmult_0_l.
    + apply lookup_ge_None. rewrite Hlen. by apply lookup_ge_None.
Qed.

Lemma create_user_vectors_unfold (uv : dict) :
  for_each (vector_row_body subs (index_dict subs) totals) [] rows = Ok uv →
  create_user_vectors df
  = match head uv with
    | Some _ => Ok (uv, subs)
    | None => Raise StopIteration
    end.
Proof.
  intros Hloop. unfold create_user_vectors. cbv zeta.
  rewrite Hloop. cbn [mbind result_bind]. by destruct (head uv).
Qed.

(** With a user above the cutoff the vectors are built and returned. *)
Lemma create_user_vectors_Ok :
  (∃ u, lurker_threshold ≤ user_total df u) →
  ∃ uv, create_user_vectors df = Ok (uv, subs) ∧ built_from df uv.
Proof.
  intros [u Hu]. destruct vector_loop_result as (uv & Hloop & Hinv).
  apply loop_inv_built in Hinv as Hbuilt. exists uv. split; [|done].
  rewrite (create_user_vectors_unfold uv Hloop).
  destruct Hbuilt as (_ & Hkeys & _). apply Hkeys in Hu.
  destruct uv; [by apply elem_of_nil in Hu|done].
Qed.

(** Without one, the statistics line raises. *)
Lemma create_user_vectors_no_survivor :
  (∀ u, user_total df u < lurker_threshold) →
  create_user_vectors df = Raise StopIteration.
Proof.
  intros Hno. destruct vector_loop_result as (uv & Hloop & Hinv).
  apply loop_inv_built in Hinv as (_ & Hkeys & _).
  rewrite (create_user_vectors_unfold uv Hloop).
  destruct uv as [|[u v] uv]; [done|].
  assert (lurker_threshold ≤ user_total df u) as Hu by (apply Hkeys; left).
  specialize (Hno u). lia.
Qed.

Lemma create_user_vectors_Ok_inv (uv : dict) (all_subreddits : list string) :
  create_user_vectors df = Ok (uv, all_subreddits) →
  all_subreddits = subs ∧ built_from df uv
  ∧ ∃ u, lurker_threshold ≤ user_total df u.
Proof.
  destruct vector_loop_result as (uv' & Hloop & Hinv).
  apply loop_inv_built in Hinv as Hbuilt.
  rewrite (create_user_vectors_unfold uv' Hloop).
  destruct uv' as [|[u v] rest]; [done|]. simpl.
  intros [= <- <-]. split; [done|]. split; [done|].
  exists u. destruct Hbuilt as (_ & Hkeys & _). apply Hkeys. left.
Qed.
End create_user_vectors_facts.

(** ** Bounds on vectors and similarities *)

Lemma dot_cons (x y : R) (u v : vector) :
  dot (x :: u) (y :: v) = (x * y + dot u v)%R.
Proof. done. Qed.

Lemma dot_nil_l (v : vector) : dot [] v = 0%R.
Proof. done. Qed.

Lemma dot_nil_r (u : vector) : dot u [] = 0%R.
Proof. by destruct u. Qed.

Lemma dot_scale (u v : vector) (c d : R) :
  c ≠ 0%R → d ≠ 0%R →
  dot ((λ x, x / c)%R <$> u) ((λ x, x / d)%R <$> v) = (dot u v / (c * d))%R.
Proof.
  intros Hc Hd. revert v. induction u as [|x u IH]; intros [|y v].
  - rewrite !dot_nil_l. lra.
  - rewrite !dot_nil_l. lra.
  - rewrite fmap_nil, !dot_nil_r. lra.
  - rewrite !fmap_cons, !dot_cons, IH. by field.
Qed.

Lemma dot_nonneg (u v : vector) :
  Forall (λ x, 0 <= x)%R u → Forall (λ x, 0 <= x)%R v → (0 <= dot u v)%R.
Proof.
  intros Hu. revert v. induction Hu as [|x u Hx _ IH]; intros v Hv.
  - rewrite dot_nil_l. lra.
  - destruct Hv as [|y v Hy Hv]; [rewrite dot_nil_r; lra|].
    rewrite dot_cons. specialize (IH v Hv). nra.
Qed.

(** Twice an inner product is at most the sum of the two squared norms. *)
Lemma dot_am_gm (u v : vector) : (2 * dot u v <= dot u u + dot v v)%R.
Proof.
  revert v. induction u as [|x u IH]; intros v.
  - rewrite !dot_nil_l. pose proof (dot_self_nonneg v). lra.
  - destruct v as [|y v].
    + rewrite !dot_nil_r. pose proof (dot_self_nonneg (x :: u)). lra.
    + rewrite !dot_cons. specialize (IH v).
      pose proof (Rle_0_sqr (x - y)) as Hsq. unfold Rsqr in Hsq. nra.
Qed.

Lemma safe_norm_nonzero (v : vector) : norm v ≠ 0%R → safe_norm v = norm v.
Proof. intros H. unfold safe_norm. by rewrite decide_False. Qed.

Lemma safe_norm_zero (v : vector) : norm v = 0%R → safe_norm v = 1%R.
Proof. intros H. unfold safe_norm. by rewrite decide_True. Qed.

Lemma unit_row_zero (v : vector) :
  norm v = 0%R → unit_row v = v ∧ Forall (λ x, x = 0%R) v.
Proof.
  intros H. split; [|by apply norm_zero].
  unfold unit_row. rewrite (safe_norm_zero v H).
  rewrite <- (list_fmap_id v) at 2. apply list_fmap_ext.
  intros _ x _. simpl. lra.
Qed.

Lemma unit_row_self (v : vector) :
  norm v ≠ 0%R → dot (unit_row v) (unit_row v) = 1%R.
Proof.
  intros H. unfold unit_row. rewrite (safe_norm_nonzero v H).
  rewrite dot_scale by done. unfold norm in *.
  rewrite sqrt_sqrt by apply dot_self_nonneg.
  apply Rdiv_diag. intros Hz. apply H. rewrite Hz. apply sqrt_0.
Qed.

Lemma unit_row_self_le (v : vector) : (dot (unit_row v) (unit_row v) <= 1)%R.
Proof.
  destruct (decide (norm v = 0%R)) as [Hz|Hnz].
  - destruct (unit_row_zero v Hz) as [-> Hall].
    rewrite (dot_zero_l v v Hall). lra.
  - rewrite unit_row_self by done. lra.
Qed.

Lemma cosine_le_1 (u v : vector) : (cosine u v <= 1)%R.
Proof.
  unfold cosine. pose proof (dot_am_gm (unit_row u) (unit_row v)).
  pose proof (unit_row_self_le u). pose proof (unit_row_self_le v). lra.
Qed.

Lemma unit_row_nonneg (v : vector) :
  Forall (λ x, 0 <= x)%R v → Forall (λ x, 0 <= x)%R (unit_row v).
Proof.
  intros Hv. unfold unit_row. apply Forall_fmap.
  eapply Forall_impl; [done|]. intros x Hx. simpl.
  pose proof (safe_norm_pos v) as Hpos.
  apply Rinv_0_lt_compat in Hpos. unfold Rdiv. nra.
Qed.

Lemma cosine_nonneg (u v : vector) :
  Forall (λ x, 0 <= x)%R u → Forall (λ x, 0 <= x)%R v → (0 <= cosine u v)%R.
Proof. intros Hu Hv. apply dot_nonneg; by apply unit_row_nonneg. Qed.

Lemma cosine_zero_l (u v : vector) : norm u = 0%R → cosine u v = 0%R.
Proof.
  intros H. unfold cosine. destruct (unit_row_zero u H) as [-> Hall].
  by apply dot_zero_l.
Qed.

Lemma cosine_comm (u v : vector) : cosine u v = cosine v u.
Proof. apply dot_comm. Qed.

(** ** The fraction vectors *)

Lemma Rsum_fractions {B} (f : B → nat) (c : R) (l : list B) :
  Rsum ((λ s, INR (f s) / c)%R <$> l) = (INR (sum_list_with f l) / c)%R.
Proof.
  induction l as [|x l IH]; csimpl.
  - unfold Rdiv. by rewrite Rmult_0_l.
  - rewrite IH, plus_INR. unfold Rdiv. lra.
Qed.

Lemma fraction_vector_length (df : dataframe) (u : string) :
  length (fraction_vector df u) = length (unique (subreddit <$> df)).
Proof.
  unfold fraction_vector. by rewrite length_fmap, sorted_unique_length.
Qed.

Lemma fraction_vector_lookup (df : dataframe) (u s : string) (k : nat) :
  sorted_unique (subreddit <$> df) !! k = Some s →
  fraction_vector df u !! k
  = Some (INR (activity_count df u s) / INR (user_total df u))%R.
Proof. intros Hk. unfold fraction_vector. by rewrite list_lookup_fmap, Hk. Qed.

Lemma activity_count_total (df : dataframe) (u : string) :
  sum_list_with (activity_count df u) (sorted_unique (subreddit <$> df))
  = user_total df u.
Proof.
  unfold user_total.
  rewrite <- (count_partition subreddit (λ p, author_name p = u)
               (sorted_unique (subreddit <$> df))); [done| |].
  - apply sorted_unique_NoDup.
  - intros p Hp _. apply sorted_unique_elem_of, list_elem_of_fmap. eauto.
Qed.

Lemma user_total_INR_pos (df : dataframe) (u : string) :
  0 < user_total df u → (0 < INR (user_total df u))%R.
Proof. intros H. by apply lt_0_INR. Qed.

Lemma fraction_vector_sum (df : dataframe) (u : string) :
  0 < user_total df u → Rsum (fraction_vector df u) = 1%R.
Proof.
  intros Hu. unfold fraction_vector.
  rewrite (Rsum_fractions (activity_count df u)), activity_count_total.
  apply Rdiv_diag. pose proof (user_total_INR_pos df u Hu). lra.
Qed.

Lemma fraction_vector_nonneg (df : dataframe) (u : string) :
  0 < user_total df u → Forall (λ x, 0 <= x)%R (fraction_vector df u).
Proof.
  intros Hu. unfold fraction_vector. apply Forall_fmap, Forall_true.
  intros s. simpl. pose proof (user_total_INR_pos df u Hu) as Hpos.
  pose proof (pos_INR (activity_count df u s)).
  apply Rinv_0_lt_compat in Hpos. unfold Rdiv. nra.
Qed.

Lemma Rsum_pos_Exists (v : vector) :
  (0 < Rsum v)%R → Exists (λ x, 0 < x)%R v.
Proof.
  induction v as [|x v IH]; simpl; [lra|]. intros Hsum.
  destruct (Rlt_dec 0 x); [by left|]. right. apply IH. lra.
Qed.

Lemma norm_pos (v : vector) : Exists (λ x, 0 < x)%R v → (0 < norm v)%R.
Proof.
  intros Hex. pose proof (norm_nonneg v).
  destruct (decide (norm v = 0%R)) as [Hz|]; [|lra].
  apply norm_zero in Hz. rewrite Forall_forall in Hz.
  apply Exists_exists in Hex as (x & Hx & Hpos).
  rewrite (Hz x Hx) in Hpos. lra.
Qed.

(** ** The upper-triangle scan and the edge-list file *)

Lemma string_app_assoc (a b c : string) : (a +:+ b) +:+ c = a +:+ (b +:+ c).
Proof.
  induction a as [|x a IH]; [done|].
  change (String x ((a +:+ b) +:+ c) = String x (a +:+ (b +:+ c))).
  by rewrite IH.
Qed.

Lemma string_app_empty_r (a : string) : a +:+ "" = a.
Proof.
  induction a as [|x a IH]; [done|].
  change (String x (a +:+ "") = String x a). by rewrite IH.
Qed.

Lemma write_edges_fold (f : string) (edges : list (string * string))
    (acc : string) (fs : filesystem) :
  foldl (λ fs' e, alter (λ content, content +:+ edge_line e) f fs')
        (<[f := acc]> fs) edges
  = <[f := acc +:+ edge_lines edges]> fs.
Proof.
  revert acc. induction edges as [|e edges IH]; intros acc; simpl.
  - by rewrite string_app_empty_r.
  - rewrite alter_insert_eq, IH. by rewrite string_app_assoc.
Qed.

(** Opening with ['w'] discards what the file held: its new contents are
    the lines of the edges and nothing else. *)
Lemma write_edges_spec (f : string) (edges : list (string * string))
    (fs : filesystem) :
  write_edges f edges fs = <[f := edge_lines edges]> fs.
Proof. unfold write_edges. by rewrite write_edges_fold. Qed.

Lemma foldl_collect {A B} (P : A → Prop) `{∀ x, Decision (P x)} (g : A → B)
    (l : list A) (acc : list B) :
  foldl (λ acc x, if decide (P x) then acc ++ [g x] else acc) acc l
  = acc ++ (g <$> filter P l).
Proof.
  revert acc. induction l as [|x l IH]; intros acc; simpl.
  - by rewrite app_nil_r.
  - rewrite IH, filter_cons. destruct (decide (P x)); [|done].
    by rewrite fmap_cons, <- app_assoc.
Qed.

Lemma nth_seq_fmap {A} (pre l : list A) (dflt : A) :
  (λ j, nth j (pre ++ l) dflt) <$> seq (length pre) (length l) = l.
Proof.
  revert pre. induction l as [|x l IH]; intros pre; csimpl; [done|].
  f_equal.
  - rewrite app_nth2 by lia. by rewrite Nat.sub_diag.
  - specialize (IH (pre ++ [x])). rewrite length_app in IH. simpl in IH.
    rewrite Nat.add_1_r, <- app_assoc in IH. done.
Qed.

Lemma triu_later_pairs (pre d : dict) :
  pair_at (pre ++ d) <$>
    (i ← seq (length pre) (length d);
     (λ j, (i, j)) <$> seq (S i) (length pre + length d - S i))
  = later_pairs d.
Proof.
  revert pre. induction d as [|x d IH]; intros pre; [done|].
  simpl length. rewrite <- cons_seq, bind_cons, fmap_app. simpl later_pairs.
  f_equal.
  - rewrite <- list_fmap_compose.
    replace (length pre + S (length d) - S (length pre)) with (length d) by lia.
    transitivity
      ((λ y, (x, y)) <$>
         ((λ j, nth j ((pre ++ [x]) ++ d) ("", []))
            <$> seq (length (pre ++ [x])) (length d)));
      [|by rewrite nth_seq_fmap].
    rewrite <- list_fmap_compose, length_app, Nat.add_1_r, <- app_assoc.
    apply list_fmap_ext. intros _ j _. unfold pair_at. simpl.
    rewrite app_nth2 by lia. by rewrite Nat.sub_diag.
  - specialize (IH (pre ++ [x])). rewrite length_app in IH. simpl in IH.
    rewrite Nat.add_1_r, <- app_assoc in IH. simpl in IH.
    rewrite <- IH. f_equal.
    replace (length pre + S (length d)) with (S (length pre) + length d) by lia.
    done.
Qed.

Lemma triu_indices_later_pairs (d : dict) :
  pair_at d <$> triu_indices (length d) = later_pairs d.
Proof. apply (triu_later_pairs [] d). Qed.

Lemma nth_fmap {A B} (f : A → B) (l : list A) (dflt : A) (i : nat) :
  nth i (f <$> l) (f dflt) = f (nth i l dflt).
Proof. rewrite !nth_lookup, list_lookup_fmap. by destruct (l !! i). Qed.

Lemma name_at_pair (d : dict) (i : nat) :
  name_at d.*1 i = (nth i d ("", [])).1.
Proof. unfold name_at. apply (nth_fmap fst d ("", [])). Qed.

Lemma entry_dot_transpose_nth (m : list vector) (i j : nat) :
  entry (dot_transpose m) i j = dot (nth i m []) (nth j m []).
Proof.
  unfold entry, dot_transpose. rewrite !nth_lookup, list_lookup_fmap.
  destruct (m !! i) as [r|]; simpl.
  - rewrite list_lookup_fmap. destruct (m !! j) as [c|]; simpl; [done|].
    by rewrite dot_nil_r.
  - by destruct j.
Qed.

Lemma entry_pair (d : dict) (i j : nat) :
  entry (dot_transpose (unit_row <$> vectors_of d)) i j
  = cosine (nth i d ("", [])).2 (nth j d ("", [])).2.
Proof.
  rewrite entry_dot_transpose_nth. unfold cosine, vectors_of.
  change (@nil R) with (unit_row []) at 1 2.
  rewrite !nth_fmap.
  change (@nil R) with (("", @nil R) : string * vector).2.
  by rewrite !nth_fmap.
Qed.

Lemma filter_ext {A} (P Q : A → Prop) `{∀ x, Decision (P x)}
    `{∀ x, Decision (Q x)} (l : list A) :
  (∀ x, P x ↔ Q x) → filter P l = filter Q l.
Proof. apply list_filter_iff. Qed.

(** The loop over [zip(rows, cols)] collects the spec's edge list. *)
Lemma collect_edges_spec (t : R) (d : dict) :
  collect_edges d.*1 (dot_transpose (unit_row <$> vectors_of d)) t
  = edges_spec t d.
Proof.
  unfold collect_edges, edges_spec.
  rewrite (foldl_collect
             (λ ij, (entry (dot_transpose (unit_row <$> vectors_of d))
                           ij.1 ij.2 >= t)%R)
             (λ ij, (name_at d.*1 ij.1, name_at d.*1 ij.2))).
  rewrite app_nil_l, dot_transpose_length, length_fmap.
  replace (length (vectors_of d)) with (length d)
    by (unfold vectors_of; by rewrite length_fmap).
  rewrite <- triu_indices_later_pairs, filter_fmap, <- list_fmap_compose.
  rewrite (filter_ext _ (λ ij, (cosine (pair_at d ij).1.2 (pair_at d ij).2.2 >= t)%R)).
  2:{ intros [i j]. simpl. by rewrite entry_pair. }
  apply list_fmap_ext. intros _ [i j] _. simpl. by rewrite !name_at_pair.
Qed.

Lemma later_pairs_elem_of {A} (l : list A) (x y : A) :
  (x, y) ∈ later_pairs l ↔ ∃ i j, i < j ∧ l !! i = Some x ∧ l !! j = Some y.
Proof.
  induction l as [|z l IH]; simpl.
  - split; [by intros ?%elem_of_nil|]. by intros (i & j & _ & ? & _).
  - rewrite elem_of_app, list_elem_of_fmap, IH. split.
    + intros [(y' & [= -> ->] & Hy)|(i & j & Hlt & Hi & Hj)].
      * apply list_elem_of_lookup in Hy as [j Hj].
        exists 0, (S j). split; [lia|done].
      * exists (S i), (S j). split; [lia|done].
    + intros (i & j & Hlt & Hi & Hj).
      destruct j as [|j]; [lia|]. simpl in Hj. destruct i as [|i]; simpl in Hi.
      * injection Hi as ->. left. exists y. split; [done|].
        by eapply list_elem_of_lookup_2.
      * right. exists i, j. split; [lia|done].
Qed.

(** The edges are the pairs of an earlier and a later user whose vectors
    reach the threshold. *)
Lemma edges_spec_elem_of (t : R) (d : dict) (a b : string) :
  (a, b) ∈ edges_spec t d ↔
  ∃ i j x y, i < j ∧ d !! i = Some x ∧ d !! j = Some y
             ∧ x.1 = a ∧ y.1 = b ∧ (cosine x.2 y.2 >= t)%R.
Proof.
  unfold edges_spec. rewrite list_elem_of_fmap. split.
  - intros ([x y] & [= -> ->] & [Hcos Hin]%list_elem_of_filter).
    apply later_pairs_elem_of in Hin as (i & j & ? & ? & ?).
    by exists i, j, x, y.
  - intros (i & j & x & y & Hlt & Hi & Hj & <- & <- & Hcos).
    exists (x, y). split; [done|]. apply list_elem_of_filter. split; [done|].
    apply later_pairs_elem_of. by exists i, j.
Qed.

Lemma edges_spec_no_self (t : R) (d : dict) (a b : string) :
  wf_dict d → (a, b) ∈ edges_spec t d → a ≠ b.
Proof.
  intros Hwf (i & j & x & y & Hlt & Hi & Hj & <- & <- & _)%edges_spec_elem_of Heq.
  assert (i = j); [|lia].
  apply (NoDup_lookup d.*1 i j x.1 Hwf).
  - by rewrite list_lookup_fmap, Hi.
  - by rewrite list_lookup_fmap, Hj, Heq.
Qed.

(** The whole of [generate_similarity_network_vectorized] on a well-formed
    non-empty input. *)
Lemma generate_closed (uv : dict) (t : option R) (f : option string)
    (fs : filesystem) :
  wf_dict uv → stackable (vectors_of uv) →
  generate_similarity_network_vectorized uv t f fs
  = (Ok (default default_output_file f),
     <[default default_output_file f :=
         edge_lines (edges_spec (default default_threshold t)
                       (drop_users (round_todrop 1 uv) uv))]> fs).
Proof.
  intros Hwf Hs. unfold generate_similarity_network_vectorized.
  rewrite deduplicate_closed by done. cbn [mbind result_bind default].
  rewrite similarity_matrix_stackable by by apply drop_users_stackable.
  cbn [mbind result_bind].
  by rewrite collect_edges_spec, write_edges_spec.
Qed.

Lemma generate_empty (t : option R) (f : option string) (fs : filesystem) :
  generate_similarity_network_vectorized [] t f fs = (Raise AxisError, fs).
Proof. done. Qed.

(** ** The worked inputs *)

Lemma two_users_wf : wf_dict two_users.
Proof. apply (bool_decide_unpack _). by vm_compute. Qed.

Lemma two_users_stackable : stackable (vectors_of two_users).
Proof. split; [done|]. exists 3. by repeat constructor. Qed.

Lemma three_users_wf : wf_dict three_users.
Proof. apply (bool_decide_unpack _). by vm_compute. Qed.

Lemma three_users_stackable : stackable (vectors_of three_users).
Proof. split; [done|]. exists 2. by repeat constructor. Qed.

Lemma norm_two_users_a : norm [1; 0; 0]%R = 1%R.
Proof.
  unfold norm, dot. simpl.
  replace (1 * 1 + (0 * 0 + (0 * 0 + 0)))%R with (1 * 1)%R by lra.
  apply sqrt_square. lra.
Qed.

Lemma norm_two_users_b : norm [1 / 5; 2 / 5; 2 / 5]%R = (3 / 5)%R.
Proof.
  unfold norm, dot. simpl.
  replace (1 / 5 * (1 / 5) + (2 / 5 * (2 / 5) + (2 / 5 * (2 / 5) + 0)))%R
    with (3 / 5 * (3 / 5))%R by lra.
  apply sqrt_square. lra.
Qed.

Lemma cosine_two_users :
  cosine [1; 0; 0]%R [1 / 5; 2 / 5; 2 / 5]%R = (1 / 3)%R.
Proof.
  unfold cosine, unit_row.
  rewrite !safe_norm_nonzero, norm_two_users_a, norm_two_users_b;
    rewrite ?norm_two_users_a, ?norm_two_users_b; try lra.
  unfold dot. simpl. lra.
Qed.

Lemma two_users_apart (t : R) (a j : nat) (x y : string * vector) :
  (1 / 3 < t)%R → a < j →
  two_users !! a = Some x → two_users !! j = Some y →
  ¬ (cosine x.2 y.2 >= t)%R.
Proof.
  intros Ht Hlt Ha Hj.
  destruct a as [|[|a]]; destruct j as [|[|j]]; try lia; try done.
  injection Ha as <-. injection Hj as <-. simpl.
  rewrite cosine_two_users. lra.
Qed.

Lemma two_users_dedup : drop_users (round_todrop 1 two_users) two_users = two_users.
Proof.
  rewrite round_todrop_apart; [apply drop_users_empty|].
  intros a j x y. apply two_users_apart. lra.
Qed.

Lemma two_users_edges_low (t : R) :
  (t <= 1 / 3)%R → edges_spec t two_users = [("a", "b")].
Proof.
  intros Ht. unfold edges_spec, two_users. simpl later_pairs.
  rewrite filter_cons_True; [done|]. simpl. rewrite cosine_two_users. lra.
Qed.

Lemma two_users_edges_high (t : R) :
  (1 / 3 < t)%R → edges_spec t two_users = [].
Proof.
  intros Ht. unfold edges_spec, two_users. simpl later_pairs.
  rewrite filter_cons_False; [done|]. simpl. rewrite cosine_two_users. lra.
Qed.

(** The model run on concrete post sets. *)
Example create_user_vectors_three_posts :
  create_user_vectors three_posts
  = Ok ([("a", [INR 2 / INR 3; INR 1 / INR 3]%R)], ["x"; "y"]).
Proof. reflexivity. Qed.

Example create_user_vectors_seven_posts :
  create_user_vectors seven_posts
  = Ok ([("a", [0; INR 1 / INR 3; INR 2 / INR 3; 0]%R);
         ("b", [INR 1 / INR 3; INR 2 / INR 3; 0; 0]%R)],
        ["w"; "x"; "y"; "z"]).
Proof. reflexivity. Qed.

(** The scenario of the spec: C is dropped as a duplicate of A, B stays,
    and no edge is written at threshold 0.95. *)
Lemma norm_three_users_A : norm [1; 0]%R = 1%R.
Proof.
  unfold norm, dot. simpl.
  replace (1 * 1 + (0 * 0 + 0))%R with (1 * 1)%R by lra.
  apply sqrt_square. lra.
Qed.

Lemma cosine_three_users_AC : cosine [1; 0]%R [1; 0]%R = 1%R.
Proof. apply unit_row_self. rewrite norm_three_users_A. lra. Qed.

Lemma cosine_three_users_AB :
  (cosine [1; 0]%R [1 / 2; 1 / 2]%R < 95 / 100)%R.
Proof.
  unfold cosine, unit_row at 1.
  rewrite (safe_norm_nonzero [1; 0]%R), norm_three_users_A
    by (rewrite norm_three_users_A; lra).
  assert (dot [1 / 2; 1 / 2]%R [1 / 2; 1 / 2]%R = (1 / 2)%R) as Hdot.
  { unfold dot. simpl. lra. }
  assert (0 < norm [1 / 2; 1 / 2]%R)%R as Hpos.
  { unfold norm. rewrite Hdot. apply sqrt_lt_R0. lra. }
  assert (norm [1 / 2; 1 / 2] * norm [1 / 2; 1 / 2] = 1 / 2)%R as Hsq.
  { unfold norm. rewrite Hdot. apply sqrt_sqrt. lra. }
  unfold unit_row. rewrite safe_norm_nonzero by lra.
  set (s := norm [1 / 2; 1 / 2]%R) in *.
  unfold dot. simpl.
  assert (1 / 1 * (1 / 2 / s) + (0 / 1 * (1 / 2 / s) + 0) = s)%R as ->.
  { rewrite <- Hsq. field. lra. }
  nra.
Qed.

Lemma three_users_todrop :
  ("A" ∉ round_todrop 1 three_users)
  ∧ ("B" ∉ round_todrop 1 three_users)
  ∧ ("C" ∈ round_todrop 1 three_users).
Proof.
  assert ("A" ∉ round_todrop 1 three_users) as HA.
  { apply (round_todrop_head 1 ("A", [1; 0]%R)), three_users_wf. }
  split; [done|]. split.
  - intros HB.
    apply (scan_todrop_spec three_users.*1 _ 1 1 three_users_wf) in HB;
      [|simpl; lia].
    destruct HB as (a & Ha & _ & Hsim). assert (a = 0) as -> by lia.
    rewrite (round_entry three_users 0 1 ("A", [1; 0]%R)
               ("B", [1 / 2; 1 / 2]%R)) in Hsim by done.
    simpl in Hsim. pose proof cosine_three_users_AB. lra.
  - apply (scan_todrop_spec three_users.*1 _ 1 2 three_users_wf);
      [simpl; lia|].
    exists 0. split; [lia|]. split; [exact HA|].
    rewrite (round_entry three_users 0 2 ("A", [1; 0]%R) ("C", [1; 0]%R))
      by done.
    simpl. rewrite cosine_three_users_AC. lra.
Qed.

Lemma three_users_survivors :
  drop_users (round_todrop 1 three_users) three_users
  = [("A", [1; 0]%R); ("B", [1 / 2; 1 / 2]%R)].
Proof.
  destruct three_users_todrop as (HA & HB & HC).
  unfold drop_users, three_users in *.
  rewrite filter_cons_True by done.
  rewrite filter_cons_True by done.
  rewrite filter_cons_False by (simpl; tauto).
  done.
Qed.

Example three_users_deduplicate :
  deduplicate three_users None None
  = Ok [("A", [1; 0]%R); ("B", [1 / 2; 1 / 2]%R)].
Proof.
  rewrite deduplicate_closed
    by (apply three_users_wf || apply three_users_stackable || done).
  simpl default. unfold deduplicate_default_threshold.
  by rewrite three_users_survivors.
Qed.

Example three_users_no_edge :
  edge_list_file_vec three_users ∅
  = (Ok "network_similarity_vec.csv", {[ "network_similarity_vec.csv" := "" ]}).
Proof.
  unfold edge_list_file_vec.
  rewrite generate_closed by (apply three_users_wf || apply three_users_stackable).
  rewrite three_users_survivors. simpl default.
  unfold edges_spec. simpl later_pairs.
  rewrite filter_cons_False; [done|].
  simpl. pose proof cosine_three_users_AB. lra.
Qed.

(** ** What the built vectors are *)

Lemma built_from_entry (df : dataframe) (uv : dict) (u : string) (v : vector) :
  built_from df uv → (u, v) ∈ uv →
  lurker_threshold ≤ user_total df u ∧ v = fraction_vector df u.
Proof.
  intros (_ & Hkeys & Hvec) Hin. split; [|by apply Hvec].
  apply Hkeys, list_elem_of_fmap. by exists (u, v).
Qed.

Lemma built_from_positive (df : dataframe) (uv : dict) (u : string) (v : vector) :
  built_from df uv → (u, v) ∈ uv →
  Forall (λ x, 0 <= x)%R v ∧ Exists (λ x, 0 < x)%R v ∧ (0 < norm v)%R.
Proof.
  intros Hb Hin. destruct (built_from_entry df uv u v Hb Hin) as [Hu ->].
  assert (0 < user_total df u) as Hpos by (unfold lurker_threshold in Hu; lia).
  assert (Exists (λ x, 0 < x)%R (fraction_vector df u)) as Hex.
  { apply Rsum_pos_Exists. rewrite fraction_vector_sum by done. lra. }
  split; [by apply fraction_vector_nonneg|]. split; [done|].
  by apply norm_pos.
Qed.

Lemma built_from_stackable (df : dataframe) (uv : dict) :
  built_from df uv → (∃ u, lurker_threshold ≤ user_total df u) →
  stackable (vectors_of uv).
Proof.
  intros Hb [u Hu]. split.
  - destruct Hb as (_ & Hkeys & _). apply Hkeys in Hu.
    destruct uv; [by apply elem_of_nil in Hu|done].
  - exists (length (unique (subreddit <$> df))).
    unfold vectors_of. apply Forall_fmap, Forall_forall. intros [a v] Hin.
    destruct (built_from_entry df uv a v Hb Hin) as [_ ->]. simpl.
    apply fraction_vector_length.
Qed.

Lemma replace_zero_norms_id (rows : list vector) :
  Forall (λ v, 0 < norm v)%R rows →
  replace_zero_norms (norm <$> rows) = norm <$> rows.
Proof.
  intros Hrows. unfold replace_zero_norms. rewrite <- list_fmap_compose.
  apply list_fmap_ext. intros i v Hv. simpl.
  rewrite Forall_forall in Hrows.
  apply list_elem_of_lookup_2, Hrows in Hv.
  rewrite decide_False; [done|lra].
Qed.

Lemma replace_zero_norms_nonzero (norms : list R) :
  Forall (λ n, n ≠ 0%R) (replace_zero_norms norms).
Proof.
  unfold replace_zero_norms. apply Forall_fmap, Forall_true.
  intros n. simpl. case_decide; [lra|done].
Qed.

Lemma nth_elem_of {A} (l : list A) (i : nat) (dflt : A) :
  i < length l → nth i l dflt ∈ l.
Proof.
  intros Hi. destruct (nth_lookup_or_length l i dflt) as [H|H]; [|lia].
  by eapply list_elem_of_lookup_2.
Qed.

(** * The claims *)

(** C1.  The claim is that an empty post set, or one whose users all fall
    below the lurker cutoff, yields empty outputs and no error.  The code
    raises instead: [create_user_vectors] builds the empty dict and then
    evaluates [next(iter(user_vectors.values()))] for its statistics line,
    which raises [StopIteration]; and the similarity engine, handed an empty
    dict, stacks zero rows into a one-dimensional array whose axis 1 does not
    exist, so [np.linalg.norm(..., axis=1)] raises [AxisError] in the first
    deduplication round.  No file is written in either case. *)
Theorem empty_input_raises :
  create_user_vectors [] = Raise StopIteration
  ∧ create_user_vectors lurker_posts = Raise StopIteration
  ∧ (∀ fs, make_network [] fs = (Raise StopIteration, fs))
  ∧ (∀ t, deduplicate [] t None = Raise AxisError)
  ∧ (∀ t f fs,
       generate_similarity_network_vectorized [] t f fs = (Raise AxisError, fs)).
Proof. repeat split. Qed.

(** C2, as stated: leaving the threshold out gives the same edge list as
    passing 0.95.  It fails on [two_users], whose similarity is 1/3: the
    default call writes the edge, the call with 0.95 writes none. *)
Lemma default_threshold_is_not_095 :
  ¬ (∀ (uv : dict) (fs : filesystem),
       generate_similarity_network_vectorized uv None None fs
       = generate_similarity_network_vectorized uv (Some (95 / 100)%R) None fs).
Proof.
  intros H. specialize (H two_users ∅).
  rewrite !generate_closed in H
    by (apply two_users_wf || apply two_users_stackable).
  rewrite two_users_dedup in H. simpl default in H.
  rewrite two_users_edges_low in H by (unfold default_threshold; lra).
  rewrite two_users_edges_high in H by lra.
  apply (f_equal snd) in H. simpl in H.
  apply (f_equal (λ m : filesystem, m !! default_output_file)) in H.
  rewrite !lookup_insert_eq in H. discriminate H.
Qed.

(** C2, amended: the function's own default threshold is 0.1, so a call
    that leaves the threshold out writes the pairs whose similarity is at
    least 0.1; the notebook's call passes 0.95 and writes the pairs whose
    similarity is at least 0.95.  Both write to the default file. *)
Theorem default_threshold_is_010 (uv : dict) (fs : filesystem) :
  wf_dict uv → stackable (vectors_of uv) →
  ∃ out,
    deduplicate uv (Some 1%R) None = Ok out
    ∧ generate_similarity_network_vectorized uv None None fs
      = (Ok "network_similarity_vec.csv",
         <["network_similarity_vec.csv" :=
             edge_lines (edges_spec (1 / 10)%R out)]> fs)
    ∧ edge_list_file_vec uv fs
      = (Ok "network_similarity_vec.csv",
         <["network_similarity_vec.csv" :=
             edge_lines (edges_spec (95 / 100)%R out)]> fs).
Proof.
  intros Hwf Hs. exists (drop_users (round_todrop 1 uv) uv).
  split; [by apply deduplicate_closed|].
  unfold edge_list_file_vec. by rewrite !generate_closed.
Qed.

Lemma default_threshold_is_010_witness :
  wf_dict two_users ∧ stackable (vectors_of two_users) ∧
  ∃ out,
    deduplicate two_users (Some 1%R) None = Ok out
    ∧ generate_similarity_network_vectorized two_users None None ∅
      = (Ok "network_similarity_vec.csv",
         <["network_similarity_vec.csv" :=
             edge_lines (edges_spec (1 / 10)%R out)]> ∅)
    ∧ edge_list_file_vec two_users ∅
      = (Ok "network_similarity_vec.csv",
         <["network_similarity_vec.csv" :=
             edge_lines (edges_spec (95 / 100)%R out)]> ∅).
Proof.
  split; [apply two_users_wf|]. split; [apply two_users_stackable|].
  apply (default_threshold_is_010 two_users ∅);
    [apply two_users_wf | apply two_users_stackable].
Defined.

(** C3.  Whenever [deduplicate] returns a dict, [deduplicate] on that dict,
    with the same threshold and the same cap, returns it unchanged; and on
    a dict with at least one user whose vectors have one common length it
    does return one. *)
Theorem deduplicate_idempotent (d : dict) (t : option R) (runs : option Z) :
  wf_dict d →
  (∀ out, deduplicate d t runs = Ok out → deduplicate out t runs = Ok out)
  ∧ (stackable (vectors_of d) →
     ∃ out, deduplicate d t runs = Ok out ∧ deduplicate out t runs = Ok out).
Proof.
  intros Hwf.
  assert (∀ out, deduplicate d t runs = Ok out →
                 deduplicate out t runs = Ok out) as Hidem.
  { intros out Hout.
    destruct (decide (0 < default deduplicate_default_runs runs)%Z) as [Hr|Hr].
    - pose proof (deduplicate_Ok_stackable d out t runs Hr Hout) as Hs.
      rewrite deduplicate_closed in Hout by done. injection Hout as <-.
      rewrite deduplicate_closed;
        [|by apply drop_users_wf|by apply drop_users_stackable|done].
      by rewrite round_todrop_fixed, drop_users_empty.
    - apply deduplicate_no_round. lia. }
  split; [done|]. intros Hs.
  destruct (decide (0 < default deduplicate_default_runs runs)%Z) as [Hr|Hr].
  - eexists. split; [by apply deduplicate_closed|].
    apply Hidem. by apply deduplicate_closed.
  - exists d. split; apply deduplicate_no_round; lia.
Qed.

Lemma deduplicate_idempotent_witness :
  wf_dict three_users ∧ stackable (vectors_of three_users) ∧
  ∃ out, deduplicate three_users None None = Ok out
         ∧ deduplicate out None None = Ok out.
Proof.
  split; [apply three_users_wf|]. split; [apply three_users_stackable|].
  apply (deduplicate_idempotent three_users None None three_users_wf).
  apply three_users_stackable.
Defined.

(** C4.  On a dict with at least one user whose vectors have one common
    length, the engine returns the file name and leaves in that file,
    whatever it held before, the lines [user_a user_b] of the edge list, one
    after the other; the edge list pairs every user of the deduplicated
    list with every later user, in that order, and keeps the pair when the
    similarity of the two vectors is at least the threshold.  So a pair is
    written exactly when it is a pair of positions [i < j] whose similarity
    reaches the threshold, and no user is paired with itself. *)
Theorem edge_list_exact (uv : dict) (t : R) (f : string) (fs : filesystem) :
  wf_dict uv → stackable (vectors_of uv) →
  ∃ out,
    deduplicate uv (Some 1%R) None = Ok out
    ∧ generate_similarity_network_vectorized uv (Some t) (Some f) fs
      = (Ok f, <[f := edge_lines (edges_spec t out)]> fs)
    ∧ (∀ a b, (a, b) ∈ edges_spec t out ↔
         ∃ i j x y, i < j ∧ out !! i = Some x ∧ out !! j = Some y
                    ∧ x.1 = a ∧ y.1 = b ∧ (cosine x.2 y.2 >= t)%R)
    ∧ (∀ a b, (a, b) ∈ edges_spec t out → a ≠ b)
    ∧ edge_lines [] = ""
    ∧ (∀ e rest, edge_lines (e :: rest)
                 = e.1 +:+ " " +:+ e.2 +:+ newline +:+ edge_lines rest).
Proof.
  intros Hwf Hs. exists (drop_users (round_todrop 1 uv) uv).
  split; [by apply deduplicate_closed|].
  split; [by rewrite generate_closed|].
  split; [intros a b; apply edges_spec_elem_of|].
  split.
  { intros a b. apply edges_spec_no_self. by apply drop_users_wf. }
  split; [done|].
  intros e rest. simpl. unfold edge_line.
  by rewrite !string_app_assoc.
Qed.

Lemma edge_list_exact_witness :
  wf_dict two_users ∧ stackable (vectors_of two_users) ∧
  ∃ out,
    deduplicate two_users (Some 1%R) None = Ok out
    ∧ generate_similarity_network_vectorized two_users
        (Some (1 / 4)%R) (Some "edges.txt") ∅
      = (Ok "edges.txt",
         <["edges.txt" := edge_lines (edges_spec (1 / 4)%R out)]> ∅)
    ∧ (∀ a b, (a, b) ∈ edges_spec (1 / 4)%R out ↔
         ∃ i j x y, i < j ∧ out !! i = Some x ∧ out !! j = Some y
                    ∧ x.1 = a ∧ y.1 = b ∧ (cosine x.2 y.2 >= 1 / 4)%R)
    ∧ (∀ a b, (a, b) ∈ edges_spec (1 / 4)%R out → a ≠ b)
    ∧ edge_lines [] = ""
    ∧ (∀ e rest, edge_lines (e :: rest)
                 = e.1 +:+ " " +:+ e.2 +:+ newline +:+ edge_lines rest).
Proof.
  split; [apply two_users_wf|]. split; [apply two_users_stackable|].
  apply (edge_list_exact two_users (1 / 4)%R "edges.txt" ∅);
    [apply two_users_wf | apply two_users_stackable].
Defined.

(** C5.  When some user has at least three posts, [create_user_vectors]
    returns a dict and the sorted list of the distinct subreddits of the
    input.  The dict holds the users with at least three posts; the vector
    of such a user has one coordinate per distinct subreddit of the input,
    the coordinate under subreddit [s] is the user's number of posts in [s]
    divided by the user's number of posts (0 where the user has none), and
    the coordinates add up to 1. *)
Theorem behavioral_vectors_are_fractions (df : dataframe) :
  (∃ u, lurker_threshold ≤ user_total df u) →
  ∃ uv all_subreddits,
    create_user_vectors df = Ok (uv, all_subreddits)
    ∧ NoDup all_subreddits
    ∧ (∀ s, s ∈ all_subreddits ↔ ∃ p, p ∈ df ∧ subreddit p = s)
    ∧ (∀ u, u ∈ uv.*1 ↔ 3 ≤ user_total df u)
    ∧ ∀ u v, (u, v) ∈ uv →
        0 < user_total df u
        ∧ length v = length all_subreddits
        ∧ length v = length (unique (subreddit <$> df))
        ∧ (∀ k s, all_subreddits !! k = Some s →
             v !! k = Some (INR (activity_count df u s)
                            / INR (user_total df u))%R)
        ∧ (∀ k s, all_subreddits !! k = Some s →
             activity_count df u s = 0 → v !! k = Some 0%R)
        ∧ Rsum v = 1%R.
Proof.
  intros Hex. destruct (create_user_vectors_Ok df Hex) as (uv & Hrun & Hb).
  exists uv, (sorted_unique (subreddit <$> df)).
  split; [done|]. split; [apply sorted_unique_NoDup|]. split.
  { intros s. rewrite sorted_unique_elem_of, list_elem_of_fmap.
    split; intros (p & ? & ?); eauto. }
  split; [apply Hb|].
  intros u v Hin. destruct (built_from_entry df uv u v Hb Hin) as [Hu ->].
  assert (0 < user_total df u) as Hpos by (unfold lurker_threshold in Hu; lia).
  split; [done|]. split.
  { by rewrite fraction_vector_length, sorted_unique_length. }
  split; [apply fraction_vector_length|].
  split; [intros k s; apply fraction_vector_lookup|]. split.
  - intros k s Hk Hzero. rewrite (fraction_vector_lookup df u s k Hk), Hzero.
    f_equal. simpl. unfold Rdiv. by rewrite Rmult_0_l.
  - by apply fraction_vector_sum.
Qed.

Lemma behavioral_vectors_are_fractions_witness :
  (∃ u, lurker_threshold ≤ user_total three_posts u) ∧
  ∃ uv all_subreddits,
    create_user_vectors three_posts = Ok (uv, all_subreddits)
    ∧ NoDup all_subreddits
    ∧ (∀ s, s ∈ all_subreddits ↔ ∃ p, p ∈ three_posts ∧ subreddit p = s)
    ∧ (∀ u, u ∈ uv.*1 ↔ 3 ≤ user_total three_posts u)
    ∧ ∀ u v, (u, v) ∈ uv →
        0 < user_total three_posts u
        ∧ length v = length all_subreddits
        ∧ length v = length (unique (subreddit <$> three_posts))
        ∧ (∀ k s, all_subreddits !! k = Some s →
             v !! k = Some (INR (activity_count three_posts u s)
                            / INR (user_total three_posts u))%R)
        ∧ (∀ k s, all_subreddits !! k = Some s →
             activity_count three_posts u s = 0 → v !! k = Some 0%R)
        ∧ Rsum v = 1%R.
Proof.
  assert (∃ u, lurker_threshold ≤ user_total three_posts u) as Hex.
  { exists "a". vm_compute. lia. }
  split; [exact Hex|].
  exact (behavioral_vectors_are_fractions three_posts Hex).
Defined.

(** C6.  In a round on a dict with at least one user whose vectors have one
    common length: the inner loop, at a pair whose second user is not yet
    marked and whose similarity reaches the threshold, marks the second
    user and nobody else, and leaves the marks as they are at any other
    pair; the outer loop skips an anchor that is marked.  At the end of the
    scan a user is marked exactly when some earlier user that is itself
    unmarked is similar to it, so the first user of the list is never
    marked, and the round returns the unmarked users in their order. *)
Theorem round_marks_second_user (t : R) (d : dict) :
  wf_dict d → stackable (vectors_of d) →
  ∃ sim_matrix,
    similarity_matrix (vectors_of d) = Ok sim_matrix
    ∧ dedup_round t d = Ok (drop_users (scan_todrop d.*1 sim_matrix t) d)
    ∧ (∀ i j todrop,
         name_at d.*1 j ∉ todrop → (entry sim_matrix i j >= t)%R →
         inner_body d.*1 sim_matrix t i todrop j
         = todrop ∪ {[ name_at d.*1 j ]})
    ∧ (∀ i j todrop,
         name_at d.*1 j ∈ todrop ∨ ¬ (entry sim_matrix i j >= t)%R →
         inner_body d.*1 sim_matrix t i todrop j = todrop)
    ∧ (∀ i todrop,
         name_at d.*1 i ∈ todrop →
         outer_body d.*1 sim_matrix t todrop i = todrop)
    ∧ (∀ j, j < length d →
         name_at d.*1 j ∈ scan_todrop d.*1 sim_matrix t ↔
         ∃ i, i < j ∧ (name_at d.*1 i ∉ scan_todrop d.*1 sim_matrix t)
              ∧ (entry sim_matrix i j >= t)%R)
    ∧ (name_at d.*1 0 ∉ scan_todrop d.*1 sim_matrix t).
Proof.
  intros Hwf Hs. exists (dot_transpose (unit_row <$> vectors_of d)).
  split; [by apply similarity_matrix_stackable|].
  split; [by apply dedup_round_stackable|].
  split.
  { intros i j T Hj Hsim. unfold inner_body.
    rewrite decide_False by done. by rewrite decide_True. }
  split.
  { intros i j T [Hj|Hsim]; unfold inner_body.
    - by rewrite decide_True.
    - case_decide; [done|]. by rewrite decide_False. }
  split.
  { intros i T Hi. unfold outer_body. by rewrite decide_True. }
  split.
  { intros j Hj. apply scan_todrop_spec; [done|]. by rewrite length_fmap. }
  destruct d as [|kv d]; [by destruct Hs|].
  apply (round_todrop_head t kv d Hwf).
Qed.

Lemma round_marks_second_user_witness :
  wf_dict three_users ∧ stackable (vectors_of three_users) ∧
  ∃ sim_matrix,
    similarity_matrix (vectors_of three_users) = Ok sim_matrix
    ∧ dedup_round 1 three_users
      = Ok (drop_users (scan_todrop three_users.*1 sim_matrix 1) three_users)
    ∧ (∀ i j todrop,
         name_at three_users.*1 j ∉ todrop → (entry sim_matrix i j >= 1)%R →
         inner_body three_users.*1 sim_matrix 1 i todrop j
         = todrop ∪ {[ name_at three_users.*1 j ]})
    ∧ (∀ i j todrop,
         name_at three_users.*1 j ∈ todrop ∨ ¬ (entry sim_matrix i j >= 1)%R →
         inner_body three_users.*1 sim_matrix 1 i todrop j = todrop)
    ∧ (∀ i todrop,
         name_at three_users.*1 i ∈ todrop →
         outer_body three_users.*1 sim_matrix 1 todrop i = todrop)
    ∧ (∀ j, j < length three_users →
         name_at three_users.*1 j ∈ scan_todrop three_users.*1 sim_matrix 1 ↔
         ∃ i, i < j
              ∧ (name_at three_users.*1 i ∉ scan_todrop three_users.*1 sim_matrix 1)
              ∧ (entry sim_matrix i j >= 1)%R)
    ∧ (name_at three_users.*1 0 ∉ scan_todrop three_users.*1 sim_matrix 1).
Proof.
  split; [apply three_users_wf|]. split; [apply three_users_stackable|].
  apply (round_marks_second_user 1%R three_users);
    [apply three_users_wf | apply three_users_stackable].
Defined.

(** C7.  Whenever [deduplicate] returns a dict, that dict is a sublist of
    the input: its users are users of the input and it is no longer than
    the input.  Every turn of the loop, from whatever state, replaces the
    working set by a sublist of it, so the number of users never grows from
    one iteration to the next.  On a dict with at least one user whose
    vectors have one common length, [deduplicate] does return: its result
    is the working set of a state the loop reaches from the initial one. *)
Theorem deduplicate_shrinks (d : dict) (t : option R) (runs : option Z) :
  (∀ out, deduplicate d t runs = Ok out →
     out `sublist_of` d ∧ out.*1 ⊆ d.*1 ∧ length out ≤ length d)
  ∧ (∀ st st',
       dedup_step (default 1%R t) (default 5%Z runs) st st' →
       curr st' `sublist_of` curr st
       ∧ (curr st').*1 ⊆ (curr st).*1
       ∧ length (curr st') ≤ length (curr st))
  ∧ (wf_dict d → stackable (vectors_of d) →
     ∃ final,
       deduplicate d t runs = Ok (curr final)
       ∧ rtc (dedup_step (default 1%R t) (default 5%Z runs))
             (dedup_init d) final
       ∧ dedup_guard (default 5%Z runs) final = false).
Proof.
  change 5%Z with deduplicate_default_runs.
  change 1%R with deduplicate_default_threshold.
  set (T := default deduplicate_default_threshold t).
  set (R := default deduplicate_default_runs runs).
  assert (∀ l1 l2 : dict, l1 `sublist_of` l2 →
            l1 `sublist_of` l2 ∧ l1.*1 ⊆ l2.*1 ∧ length l1 ≤ length l2) as Hsub.
  { intros l1 l2 H. split; [done|]. split; [|by apply sublist_length].
    intros u Hu. eapply elem_of_sublist; [done|]. by apply fmap_sublist. }
  split; [intros out Hout; by eapply Hsub, deduplicate_Ok_sublist|].
  split; [intros st st' Hstep; by eapply Hsub, dedup_step_sublist|].
  intros Hwf Hs.
  assert (∃ final, dedup_while (Z.to_nat R) T R (dedup_init d) = Ok final)
    as [final Hfinal].
  { destruct (decide (0 < R)%Z) as [Hr|Hr].
    - destruct (dedup_while_closed (Z.to_nat R) T R d) as (st & ? & _);
        [done..|]. by exists st.
    - exists (dedup_init d). apply dedup_while_exit, dedup_guard_false.
      right. simpl. lia. }
  exists final. split.
  { unfold deduplicate, deduplicate_fuel. fold T R. by rewrite Hfinal. }
  by apply dedup_while_rtc in Hfinal.
Qed.

Lemma deduplicate_shrinks_witness :
  wf_dict three_users ∧ stackable (vectors_of three_users) ∧
  ∃ final,
    deduplicate three_users None None = Ok (curr final)
    ∧ rtc (dedup_step 1%R 5%Z) (dedup_init three_users) final
    ∧ dedup_guard 5%Z final = false
    ∧ curr final `sublist_of` three_users
    ∧ (curr final).*1 ⊆ three_users.*1
    ∧ length (curr final) ≤ length three_users.
Proof.
  split; [apply three_users_wf|]. split; [apply three_users_stackable|].
  destruct (deduplicate_shrinks three_users None None) as (Hout & _ & Hrun).
  destruct (Hrun three_users_wf three_users_stackable)
    as (final & Hfinal & Hrtc & Hguard).
  exists final. split; [exact Hfinal|]. split; [exact Hrtc|].
  split; [exact Hguard|]. exact (Hout (curr final) Hfinal).
Defined.

(** C9.  The loop of [deduplicate] ends on every input: with as many units
    of fuel as the cap, one unit per round, it never runs out, and more
    fuel changes nothing.  When it ends without an exception its round
    counter is between 0 and the cap and its guard is false.  A round that
    leaves the number of users unchanged is the last: from the state it
    produces the loop returns at once.  The cap is 5 when the caller gives
    none. *)
Theorem deduplicate_terminates (d : dict) (t : option R) (runs : option Z) :
  deduplicate_fuel (Z.to_nat (default 5%Z runs)) d t runs ≠ OutOfFuel
  ∧ (∀ fuel, Z.to_nat (default 5%Z runs) ≤ fuel →
       deduplicate_fuel fuel d t runs
       = deduplicate_fuel (Z.to_nat (default 5%Z runs)) d t runs)
  ∧ (∀ final,
       deduplicate_fuel (Z.to_nat (default 5%Z runs)) d t runs = Ok final →
       (0 <= iteration final <= Z.max 0 (default 5%Z runs))%Z
       ∧ dedup_guard (default 5%Z runs) final = false)
  ∧ (∀ st st' fuel,
       dedup_body (default 1%R t) st = Ok st' →
       length (curr st') = length (curr st) →
       dedup_while fuel (default 1%R t) (default 5%Z runs) st' = Ok st').
Proof.
  change 5%Z with deduplicate_default_runs.
  change 1%R with deduplicate_default_threshold.
  set (T := default deduplicate_default_threshold t).
  set (R := default deduplicate_default_runs runs).
  assert (dedup_while (Z.to_nat R) T R (dedup_init d) ≠ OutOfFuel) as Hfuel.
  { apply dedup_while_enough. simpl. lia. }
  split; [done|]. split.
  { intros fuel Hle. unfold deduplicate_fuel. fold T R.
    by apply dedup_while_fuel_mono. }
  split.
  { intros final Hfinal. unfold deduplicate_fuel in Hfinal. fold T R in Hfinal.
    split.
    - apply dedup_while_iterations in Hfinal. simpl in Hfinal. lia.
    - by apply dedup_while_rtc in Hfinal as [_ ?]. }
  intros st st' fuel Hbody Hlen.
  apply dedup_while_exit. by eapply dedup_body_unchanged_exit.
Qed.

Lemma deduplicate_terminates_witness :
  deduplicate_fuel 5 three_users None None ≠ OutOfFuel
  ∧ deduplicate_fuel 7 three_users None None
    = deduplicate_fuel 5 three_users None None.
Proof.
  destruct (deduplicate_terminates three_users None None) as (H1 & H2 & _).
  split; [exact H1|]. apply (H2 7). simpl. lia.
Defined.

(** C10, amended.  When some user has at least three posts, every vector
    that [create_user_vectors] returns belongs to a user with at least
    three posts, has no negative coordinate and at least one positive
    coordinate, and a positive norm, so the divisor used for it is its
    norm.  Every working set of the deduplicator and of the similarity
    engine is a sublist of the returned dict; on such a sublist the
    replacement of zero norms changes no norm, and no entry of its
    similarity matrix is negative.  The deduplicator itself runs on the
    returned dict and returns such a sublist.  Nothing is said of the bound
    1, which the computed value can exceed. *)
Theorem pipeline_similarities_nonnegative (df : dataframe) :
  (∃ u, lurker_threshold ≤ user_total df u) →
  ∃ uv all_subreddits,
    create_user_vectors df = Ok (uv, all_subreddits)
    ∧ (∀ u v, (u, v) ∈ uv →
         3 ≤ user_total df u
         ∧ Forall (λ x, 0 <= x)%R v
         ∧ Exists (λ x, 0 < x)%R v
         ∧ (0 < norm v)%R
         ∧ safe_norm v = norm v)
    ∧ (∀ d, d `sublist_of` uv →
         replace_zero_norms (norm <$> vectors_of d) = norm <$> vectors_of d)
    ∧ (∀ d m i j, d `sublist_of` uv →
         similarity_matrix (vectors_of d) = Ok m →
         i < length d → j < length d →
         (0 <= entry m i j)%R)
    ∧ ∃ out, deduplicate uv (Some 1%R) None = Ok out ∧ out `sublist_of` uv.
Proof.
  intros Hex. destruct (create_user_vectors_Ok df Hex) as (uv & Hrun & Hb).
  exists uv, (sorted_unique (subreddit <$> df)). split; [done|].
  assert (∀ d kv, d `sublist_of` uv → kv ∈ d →
            Forall (λ x, 0 <= x)%R kv.2 ∧ (0 < norm kv.2)%R) as Hsub.
  { intros d [u v] Hd Hin. simpl.
    destruct (built_from_positive df uv u v Hb) as (? & _ & ?); [|done].
    by eapply elem_of_sublist. }
  split.
  { intros u v Hin.
    destruct (built_from_entry df uv u v Hb Hin) as [Hu _].
    destruct (built_from_positive df uv u v Hb Hin) as (Hnn & Hpos & Hnorm).
    split; [done|]. split; [done|]. split; [done|]. split; [done|].
    apply safe_norm_nonzero. lra. }
  split.
  { intros d Hd. apply replace_zero_norms_id.
    unfold vectors_of. apply Forall_fmap, Forall_forall. intros kv Hkv.
    by apply (Hsub d kv Hd). }
  split.
  { intros d m i j Hd Hm Hi Hj.
    apply similarity_matrix_Ok_inv in Hm as [_ ->]. rewrite entry_pair.
    destruct (Hsub d (nth i d ("", [])) Hd) as [Hnni _];
      [by apply nth_elem_of|].
    destruct (Hsub d (nth j d ("", [])) Hd) as [Hnnj _];
      [by apply nth_elem_of|].
    by apply cosine_nonneg. }
  assert (wf_dict uv) as Hwf by apply Hb.
  assert (stackable (vectors_of uv)) as Hs by by eapply built_from_stackable.
  eexists. split; [by apply deduplicate_closed|]. apply drop_users_sublist.
Qed.

Lemma pipeline_similarities_nonnegative_witness :
  (∃ u, lurker_threshold ≤ user_total seven_posts u) ∧
  ∃ uv all_subreddits,
    create_user_vectors seven_posts = Ok (uv, all_subreddits)
    ∧ uv.*1 = ["a"; "b"]
    ∧ (∀ u v, (u, v) ∈ uv →
         3 ≤ user_total seven_posts u
         ∧ Forall (λ x, 0 <= x)%R v
         ∧ Exists (λ x, 0 < x)%R v
         ∧ (0 < norm v)%R
         ∧ safe_norm v = norm v)
    ∧ (∀ m i j,
         similarity_matrix (vectors_of uv) = Ok m →
         i < 2 → j < 2 → (0 <= entry m i j)%R)
    ∧ ∃ out, deduplicate uv (Some 1%R) None = Ok out ∧ out `sublist_of` uv.
Proof.
  assert (∃ u, lurker_threshold ≤ user_total seven_posts u) as Hex.
  { exists "a". vm_compute. lia. }
  split; [exact Hex|].
  destruct (pipeline_similarities_nonnegative seven_posts Hex)
    as (uv & subs & Hrun & Hvec & _ & Hsim & Hout).
  exists uv, subs. split; [exact Hrun|].
  assert (uv.*1 = ["a"; "b"]) as Hkeys.
  { rewrite create_user_vectors_seven_posts in Hrun. by injection Hrun as <- _. }
  split; [exact Hkeys|]. split; [exact Hvec|]. split; [|exact Hout].
  intros m i j Hm Hi Hj. apply (Hsim uv m i j); [done|done|..].
  - apply (f_equal length) in Hkeys. rewrite length_fmap in Hkeys.
    rewrite Hkeys. exact Hi.
  - apply (f_equal length) in Hkeys. rewrite length_fmap in Hkeys.
    rewrite Hkeys. exact Hj.
Defined.

(** * The numeric kernel in binary64 *)

Lemma np_array_f64_stackable (rows : list vector_f64) :
  stackable_f64 rows → np_array_f64 rows = Ok (Array2D_f64 rows).
Proof.
  intros [Hne [d Hd]]. destruct rows as [|r rest]; [done|]. simpl.
  apply Forall_cons in Hd as [Hr Hrest].
  replace (forallb _ rest) with true; [done|].
  symmetry. apply forallb_forall. intros r' Hin.
  rewrite Forall_forall in Hrest. apply Nat.eqb_eq.
  rewrite Hr. apply Hrest. by apply list_elem_of_In.
Qed.

Lemma divide_rows_f64_unit (rows : list vector_f64) :
  divide_rows_f64 (Array2D_f64 rows) (replace_zero_norms_f64 (norm_f64 <$> rows))
  = unit_row_f64 <$> rows.
Proof.
  unfold divide_rows_f64, replace_zero_norms_f64.
  rewrite <- list_fmap_compose, zip_with_fmap_r, zip_with_diag.
  done.
Qed.

Lemma similarity_matrix_f64_stackable (rows : list vector_f64) :
  stackable_f64 rows →
  similarity_matrix_f64 rows = Ok (dot_transpose_f64 (unit_row_f64 <$> rows)).
Proof.
  intros Hs. unfold similarity_matrix_f64.
  rewrite (np_array_f64_stackable _ Hs).
  cbn [mbind result_bind linalg_norm_axis1_f64].
  by rewrite divide_rows_f64_unit.
Qed.

Lemma entry_f64_dot_transpose (m : list vector_f64) (i j : nat)
    (u v : vector_f64) :
  m !! i = Some u → m !! j = Some v →
  entry_f64 (dot_transpose_f64 m) i j = Some (dot_f64 u v).
Proof.
  intros Hi Hj. unfold entry_f64, dot_transpose_f64.
  rewrite list_lookup_fmap, Hi. simpl.
  by rewrite list_lookup_fmap, Hj.
Qed.

Lemma entry_f64_unit_rows (rows : list vector_f64) (i j : nat)
    (u v : vector_f64) :
  rows !! i = Some u → rows !! j = Some v →
  entry_f64 (dot_transpose_f64 (unit_row_f64 <$> rows)) i j
  = Some (dot_f64 (unit_row_f64 u) (unit_row_f64 v)).
Proof.
  intros Hi Hj. apply entry_f64_dot_transpose.
  - by rewrite list_lookup_fmap, Hi.
  - by rewrite list_lookup_fmap, Hj.
Qed.

(** ** Zeros *)

Lemma f64_mul_zero_l (x y : float64) :
  f64_is_zero x → f64_finite y → f64_is_zero (f64_mul x y).
Proof. by destruct x, y. Qed.

Lemma f64_mul_zero_r (x y : float64) :
  f64_finite x → f64_is_zero y → f64_is_zero (f64_mul x y).
Proof. by destruct x, y. Qed.

Lemma f64_add_zero (x y : float64) :
  f64_is_zero x → f64_is_zero y → f64_is_zero (f64_add x y).
Proof. by destruct x as [[]| | |], y as [[]| | |]. Qed.

Lemma f64_sum_zero (acc : float64) (l : vector_f64) :
  f64_is_zero acc → Forall (λ x, f64_is_zero x) l →
  f64_is_zero (foldl f64_add acc l).
Proof.
  intros Hacc Hl. revert acc Hacc.
  induction Hl as [|x l Hx _ IH]; intros acc Hacc; [done|].
  simpl. apply IH. by apply f64_add_zero.
Qed.

Lemma dot_f64_zero_l (u w : vector_f64) :
  Forall (λ x, f64_is_zero x) u → Forall (λ x, f64_finite x) w →
  f64_is_zero (dot_f64 u w).
Proof.
  intros Hu Hw. unfold dot_f64, f64_sum. apply f64_sum_zero; [done|].
  revert w Hw. induction Hu as [|x u Hx _ IH]; intros [|y w] Hw; simpl;
    try by constructor.
  apply Forall_cons in Hw as [Hy Hw].
  constructor; [by apply f64_mul_zero_l | by apply IH].
Qed.

Lemma dot_f64_zero_r (w u : vector_f64) :
  Forall (λ x, f64_finite x) w → Forall (λ x, f64_is_zero x) u →
  f64_is_zero (dot_f64 w u).
Proof.
  intros Hw Hu. unfold dot_f64, f64_sum. apply f64_sum_zero; [done|].
  revert u Hu. induction Hw as [|y w Hy _ IH]; intros [|x u] Hu; simpl;
    try by constructor.
  apply Forall_cons in Hu as [Hx Hu].
  constructor; [by apply f64_mul_zero_r | by apply IH].
Qed.

Lemma f64_sum_plus_zeros (l : vector_f64) :
  Forall (λ x, x = f64_zero) l → foldl f64_add f64_zero l = f64_zero.
Proof. induction 1 as [|x l -> _ IH]; [done|]. simpl. exact IH. Qed.

Lemma norm_f64_zero (v : vector_f64) :
  Forall (λ x, f64_is_zero x) v → norm_f64 v = f64_zero.
Proof.
  intros Hv. unfold norm_f64, dot_f64, f64_sum.
  rewrite f64_sum_plus_zeros; [done|].
  induction Hv as [|x v Hx _ IH]; simpl; constructor; [|exact IH].
  by destruct x as [[]| | |].
Qed.

Lemma unit_row_f64_zero (v : vector_f64) :
  Forall (λ x, f64_is_zero x) v → unit_row_f64 v = v.
Proof.
  intros Hv. unfold unit_row_f64, safe_norm_f64.
  rewrite (norm_f64_zero v Hv). simpl.
  induction Hv as [|x v Hx _ IH]; [done|]. csimpl. rewrite IH. f_equal.
  by destruct x as [[]| | |].
Qed.

Lemma replace_zero_norms_f64_nonzero (norms : list float64) :
  Forall (λ n, f64_eqb n f64_zero = false) (replace_zero_norms_f64 norms).
Proof.
  unfold replace_zero_norms_f64. apply Forall_fmap, Forall_forall.
  intros n _. simpl. by destruct (f64_eqb n f64_zero) eqn:Hn.
Qed.

(** C8, as stated: a vector whose norm is 0 maps to the zero vector and has
    similarity 0 with every vector.  The norm that the code computes for
    the row [1e-200, 0] is 0.0, because the square of 1e-200 underflows.
    The row is divided by 1.0 and stays as it is, which is not the zero
    vector, and its similarity with the row [1, 0] is 1e-200, not 0. *)
Lemma zero_norm_row_keeps_similarity :
  f64_eqb (norm_f64 [f64_1e_200; f64_zero]) f64_zero = true
  ∧ unit_row_f64 [f64_1e_200; f64_zero] = [f64_1e_200; f64_zero]
  ∧ f64_is_zero f64_1e_200 = false
  ∧ similarity_matrix_f64 underflow_rows
    = Ok [[f64_zero; f64_1e_200]; [f64_1e_200; f64_one]]
  ∧ entry_f64 [[f64_zero; f64_1e_200]; [f64_1e_200; f64_one]] 0 1
    = Some f64_1e_200
  ∧ f64_eqb f64_1e_200 f64_zero = false.
Proof. by vm_compute. Qed.

(** C8, amended.  On rows of one common length the normalisation, which
    is the one of the deduplicator and of the similarity engine, replaces
    every computed norm that equals 0 by 1.0: no divisor equals 0, and a
    row whose computed norm is 0 is divided by 1.0.  A row whose coordinates
    are all zero has the computed norm 0; divided by that norm its
    coordinates would be NaN; with the substitution it stays the zero
    vector, its similarity with itself is zero, and so is its similarity
    with every row whose normalised coordinates are finite, in its line
    and in its column of the matrix. *)
Theorem zero_norm_substitution (rows : list vector_f64) :
  stackable_f64 rows →
  ∃ m,
    similarity_matrix_f64 rows = Ok m
    ∧ m = dot_transpose_f64 (unit_row_f64 <$> rows)
    ∧ Forall (λ n, f64_eqb n f64_zero = false)
             (replace_zero_norms_f64 (norm_f64 <$> rows))
    ∧ (∀ v, f64_eqb (norm_f64 v) f64_zero = true →
         unit_row_f64 v = (λ x, f64_div x f64_one) <$> v)
    ∧ (∀ i v, rows !! i = Some v → Forall (λ x, f64_is_zero x) v →
         norm_f64 v = f64_zero
         ∧ Forall (λ x, f64_div x (norm_f64 v) = S754_nan) v
         ∧ unit_row_f64 v = v
         ∧ (∃ z, entry_f64 m i i = Some z ∧ f64_is_zero z)
         ∧ ∀ j w, rows !! j = Some w →
             Forall (λ x, f64_finite x) (unit_row_f64 w) →
             ∃ x y, entry_f64 m i j = Some x ∧ entry_f64 m j i = Some y
                    ∧ f64_is_zero x ∧ f64_is_zero y).
Proof.
  intros Hs. exists (dot_transpose_f64 (unit_row_f64 <$> rows)).
  split; [by apply similarity_matrix_f64_stackable|]. split; [done|].
  split; [apply replace_zero_norms_f64_nonzero|]. split.
  { intros v Hv. unfold unit_row_f64, safe_norm_f64. by rewrite Hv. }
  intros i v Hi Hv. pose proof (norm_f64_zero v Hv) as Hnorm.
  pose proof (unit_row_f64_zero v Hv) as Hunit.
  split; [done|]. split.
  { rewrite Hnorm. eapply Forall_impl; [exact Hv|].
    intros x Hx. by destruct x. }
  split; [done|]. split.
  { exists (dot_f64 (unit_row_f64 v) (unit_row_f64 v)).
    split; [by apply entry_f64_unit_rows|]. rewrite Hunit.
    apply dot_f64_zero_l; [done|].
    eapply Forall_impl; [exact Hv|]. intros x Hx. by destruct x. }
  intros j w Hj Hw.
  exists (dot_f64 (unit_row_f64 v) (unit_row_f64 w)),
         (dot_f64 (unit_row_f64 w) (unit_row_f64 v)).
  split; [by apply entry_f64_unit_rows|].
  split; [by apply entry_f64_unit_rows|].
  rewrite Hunit.
  split; [by apply dot_f64_zero_l | by apply dot_f64_zero_r].
Qed.

Lemma zero_norm_substitution_witness :
  stackable_f64 [[f64_zero; f64_zero]; [f64_one; f64_zero]]
  ∧ ∃ m x y,
      similarity_matrix_f64 [[f64_zero; f64_zero]; [f64_one; f64_zero]] = Ok m
      ∧ entry_f64 m 0 1 = Some x ∧ entry_f64 m 1 0 = Some y
      ∧ f64_is_zero x ∧ f64_is_zero y.
Proof.
  assert (stackable_f64 [[f64_zero; f64_zero]; [f64_one; f64_zero]]) as Hs.
  { split; [done|]. exists 2. by repeat constructor. }
  split; [exact Hs|].
  destruct (zero_norm_substitution _ Hs) as (m & Hm & _ & _ & _ & Hzero).
  destruct (Hzero 0 [f64_zero; f64_zero] eq_refl) as (_ & _ & _ & _ & Hsim).
  { by repeat constructor. }
  destruct (Hsim 1 [f64_one; f64_zero] eq_refl) as (x & y & Hx & Hy & Hzx & Hzy).
  { vm_compute. by repeat constructor. }
  by exists m, x, y.
Defined.

(** C10, as stated: every pairwise similarity that the deduplicator
    computes on vectors of the vector builder lies in [0, 1].  Two users
    with one post in one subreddit and five in another get the vector
    [1/6, 5/6] each, and the deduplicator's matrix holds
    1.0000000000000002 for the pair, which is above 1. *)
Lemma pipeline_similarity_above_one :
  ∃ uv all_subreddits m x,
    create_user_vectors_f64 twin_posts = Ok (uv, all_subreddits)
    ∧ uv.*1 = ["a"; "b"]
    ∧ similarity_matrix_f64 (vectors_of_f64 uv) = Ok m
    ∧ entry_f64 m 0 1 = Some x
    ∧ x = S754_finite false 4503599627370497 (-52)
    ∧ f64_geb f64_one x = false
    ∧ f64_ltb f64_one x = true.
Proof.
  exists [("a", [S754_finite false 6004799503160661 (-55);
                 S754_finite false 7505999378950827 (-53)]);
          ("b", [S754_finite false 6004799503160661 (-55);
                 S754_finite false 7505999378950827 (-53)])],
         ["x"; "y"],
         [[S754_finite false 4503599627370497 (-52);
           S754_finite false 4503599627370497 (-52)];
          [S754_finite false 4503599627370497 (-52);
           S754_finite false 4503599627370497 (-52)]],
         (S754_finite false 4503599627370497 (-52)).
  vm_compute. repeat split; reflexivity.
Qed.

(** * Further properties of the engine *)

(** ** The deduplicator *)

Lemma drop_users_elem_of (T : gset string) (d : dict) (x : string * vector) :
  x ∈ drop_users T d ↔ (x.1 ∉ T) ∧ x ∈ d.
Proof. unfold drop_users. by rewrite list_elem_of_filter. Qed.

Lemma deduplicate_first_round_raises (d : dict) (t : option R)
    (runs : option Z) (e : exn) :
  (0 < default deduplicate_default_runs runs)%Z →
  dedup_round (default deduplicate_default_threshold t) d = Raise e →
  deduplicate d t runs = Raise e.
Proof.
  intros Hruns Hround. unfold deduplicate, deduplicate_fuel.
  destruct (Z.to_nat (default deduplicate_default_runs runs)) as [|fuel] eqn:Hf;
    [lia|].
  simpl dedup_while.
  rewrite (proj2 (dedup_guard_true _ (dedup_init d))) by (simpl; lia).
  unfold dedup_body at 1. simpl curr. by rewrite Hround.
Qed.

(** X1.  On a dict with at least one user whose vectors have one common
    length, with a positive cap, [deduplicate] returns a dict in whose
    similarity matrix every entry above the diagonal is below the
    threshold: no two users that remain are duplicates of each other. *)
Theorem deduplicate_survivors_apart (d : dict) (t : option R) (runs : option Z) :
  wf_dict d → stackable (vectors_of d) → (0 < default 5%Z runs)%Z →
  ∃ out m,
    deduplicate d t runs = Ok out
    ∧ similarity_matrix (vectors_of out) = Ok m
    ∧ ∀ i j, i < j < length out → (entry m i j < default 1%R t)%R.
Proof.
  intros Hwf Hs Hruns.
  set (T := default deduplicate_default_threshold t).
  exists (drop_users (round_todrop T d) d),
         (dot_transpose (unit_row <$> vectors_of (drop_users (round_todrop T d) d))).
  split; [by apply deduplicate_closed|].
  split; [by apply similarity_matrix_stackable, drop_users_stackable|].
  intros i j [Hlt Hj].
  destruct (lookup_lt_is_Some_2 (drop_users (round_todrop T d) d) i)
    as [x Hx]; [lia|].
  destruct (lookup_lt_is_Some_2 (drop_users (round_todrop T d) d) j)
    as [y Hy]; [lia|].
  rewrite (round_entry _ i j x y Hx Hy).
  destruct (sublist_lookup_lt _ d (drop_users_sublist (round_todrop T d) d)
              i j x y Hlt Hx Hy) as (a & b & Hab & Ha & Hb).
  apply Rnot_ge_lt.
  apply (round_survivors_apart T d a b x y Hwf Hab Ha Hb).
  - apply list_elem_of_lookup_2 in Hx. by apply drop_users_elem_of in Hx as [? _].
  - apply list_elem_of_lookup_2 in Hy. by apply drop_users_elem_of in Hy as [? _].
Qed.

Lemma deduplicate_survivors_apart_witness :
  wf_dict three_users ∧ stackable (vectors_of three_users) ∧
  ∃ out m,
    deduplicate three_users None None = Ok out
    ∧ similarity_matrix (vectors_of out) = Ok m
    ∧ ∀ i j, i < j < length out → (entry m i j < 1)%R.
Proof.
  split; [apply three_users_wf|]. split; [apply three_users_stackable|].
  apply (deduplicate_survivors_apart three_users None None);
    [apply three_users_wf | apply three_users_stackable | simpl; lia].
Defined.

(** X2.  Under the same conditions the first user of the input is the first
    user of the output, and every user of the input either remains or has
    an earlier user that remains and whose similarity to it, in the matrix
    of the input, reaches the threshold: nobody is dropped without a
    representative. *)
Theorem deduplicate_keeps_representative (d : dict) (t : option R)
    (runs : option Z) :
  wf_dict d → stackable (vectors_of d) → (0 < default 5%Z runs)%Z →
  ∃ out m,
    deduplicate d t runs = Ok out
    ∧ similarity_matrix (vectors_of d) = Ok m
    ∧ head out = head d
    ∧ ∀ j x, d !! j = Some x →
        x ∈ out
        ∨ ∃ i y, i < j ∧ d !! i = Some y ∧ y ∈ out
                 ∧ (entry m i j >= default 1%R t)%R.
Proof.
  intros Hwf Hs Hruns.
  set (T := default deduplicate_default_threshold t).
  exists (drop_users (round_todrop T d) d),
         (dot_transpose (unit_row <$> vectors_of d)).
  split; [by apply deduplicate_closed|].
  split; [by apply similarity_matrix_stackable|].
  split.
  { destruct d as [|kv d]; [done|]. unfold drop_users.
    rewrite filter_cons_True; [done|]. by apply round_todrop_head. }
  intros j x Hj.
  destruct (decide (x.1 ∈ round_todrop T d)) as [Hin|Hout].
  - right. rewrite <- (name_at_keys d j x Hj) in Hin.
    apply scan_todrop_spec in Hin as (a & Ha & Hna & Hsim); [|done|].
    2:{ rewrite length_fmap. by eapply lookup_lt_Some. }
    destruct (lookup_lt_is_Some_2 d a) as [y Hy].
    { apply lookup_lt_Some in Hj. lia. }
    exists a, y. split; [done|]. split; [done|]. split; [|done].
    apply drop_users_elem_of. split.
    + by rewrite <- (name_at_keys d a y Hy).
    + by eapply list_elem_of_lookup_2.
  - left. apply drop_users_elem_of. split; [done|].
    by eapply list_elem_of_lookup_2.
Qed.

Lemma deduplicate_keeps_representative_witness :
  wf_dict three_users ∧ stackable (vectors_of three_users) ∧
  ∃ out m,
    deduplicate three_users None None = Ok out
    ∧ similarity_matrix (vectors_of three_users) = Ok m
    ∧ head out = head three_users
    ∧ ∀ j x, three_users !! j = Some x →
        x ∈ out
        ∨ ∃ i y, i < j ∧ three_users !! i = Some y ∧ y ∈ out
                 ∧ (entry m i j >= 1)%R.
Proof.
  split; [apply three_users_wf|]. split; [apply three_users_stackable|].
  apply (deduplicate_keeps_representative three_users None None);
    [apply three_users_wf | apply three_users_stackable | simpl; lia].
Defined.

(** X3.  The cap matters only through its sign: any two positive caps give
    the same outcome, result or exception, on every dict, and with a cap
    that is not positive no round runs and the input comes back as it is,
    the empty dict included. *)
Theorem deduplicate_cap_irrelevant (d : dict) (t : option R) (r1 r2 : Z) :
  wf_dict d →
  ((0 < r1)%Z → (0 < r2)%Z →
     deduplicate d t (Some r1) = deduplicate d t (Some r2))
  ∧ ((r1 <= 0)%Z → deduplicate d t (Some r1) = Ok d).
Proof.
  intros Hwf. split.
  - intros H1 H2.
    pose proof (dedup_round_not_OutOfFuel
                  (default deduplicate_default_threshold t) d) as Hfuel.
    destruct (dedup_round (default deduplicate_default_threshold t) d)
      as [d'|e|] eqn:Hround; [| |done].
    + assert (stackable (vectors_of d)) as Hs.
      { unfold dedup_round in Hround. apply bind_Ok in Hround as (m & Hm & _).
        by eapply similarity_matrix_Ok_stackable. }
      by rewrite !deduplicate_closed.
    + by rewrite !(deduplicate_first_round_raises d t _ e).
  - intros H1. by apply deduplicate_no_round.
Qed.

Lemma deduplicate_cap_irrelevant_witness :
  wf_dict three_users ∧
  deduplicate three_users None (Some 1%Z) = deduplicate three_users None (Some 5%Z)
  ∧ deduplicate three_users None (Some 0%Z) = Ok three_users.
Proof.
  split; [apply three_users_wf|].
  destruct (deduplicate_cap_irrelevant three_users None 1 5 three_users_wf)
    as [Hpos _].
  destruct (deduplicate_cap_irrelevant three_users None 0 5 three_users_wf)
    as [_ Hzero].
  split; [apply Hpos; lia | apply Hzero; lia].
Defined.

(** ** Shape, symmetry and sign of the matrix in binary64 *)

Lemma f64_mul_comm (x y : float64) : f64_mul x y = f64_mul y x.
Proof.
  destruct x as [sx|sx| |sx mx ex], y as [sy|sy| |sy my ey];
    unfold f64_mul, SFmul; try done; try by rewrite xorb_comm.
  by rewrite (xorb_comm sx), (Pos.mul_comm mx), (Z.add_comm ex).
Qed.

Lemma dot_f64_comm (u v : vector_f64) : dot_f64 u v = dot_f64 v u.
Proof.
  unfold dot_f64. f_equal. revert v.
  induction u as [|x u IH]; intros [|y v]; simpl; [done..|].
  by rewrite f64_mul_comm, IH.
Qed.

(** X4.  In binary64 the similarity matrix of [n] rows of one length has
    [n] lines of [n] entries and is symmetric: the entry of a pair of rows
    does not depend on the order of the two. *)
Theorem similarity_matrix_f64_symmetric (rows : list vector_f64) :
  stackable_f64 rows →
  ∃ m,
    similarity_matrix_f64 rows = Ok m
    ∧ length m = length rows
    ∧ Forall (λ line, length line = length rows) m
    ∧ ∀ i j, i < length rows → j < length rows →
        ∃ x, entry_f64 m i j = Some x ∧ entry_f64 m j i = Some x.
Proof.
  intros Hs. exists (dot_transpose_f64 (unit_row_f64 <$> rows)).
  split; [by apply similarity_matrix_f64_stackable|].
  unfold dot_transpose_f64. split; [by rewrite !length_fmap|]. split.
  { apply Forall_fmap, Forall_forall. intros r _. simpl.
    by rewrite !length_fmap. }
  intros i j Hi Hj.
  destruct (lookup_lt_is_Some_2 rows i Hi) as [u Hu].
  destruct (lookup_lt_is_Some_2 rows j Hj) as [v Hv].
  exists (dot_f64 (unit_row_f64 u) (unit_row_f64 v)).
  split; [by apply entry_f64_unit_rows|].
  rewrite dot_f64_comm. by apply entry_f64_unit_rows.
Qed.

Lemma similarity_matrix_f64_symmetric_witness :
  stackable_f64 underflow_rows
  ∧ ∃ m,
      similarity_matrix_f64 underflow_rows = Ok m
      ∧ length m = 2
      ∧ ∃ x, entry_f64 m 0 1 = Some x ∧ entry_f64 m 1 0 = Some x.
Proof.
  assert (stackable_f64 underflow_rows) as Hs.
  { split; [done|]. exists 2. by repeat constructor. }
  split; [exact Hs|].
  destruct (similarity_matrix_f64_symmetric underflow_rows Hs)
    as (m & Hm & Hlen & _ & Hsym).
  exists m. split; [exact Hm|]. split; [exact Hlen|].
  apply Hsym; simpl; lia.
Defined.

(** The sign of a rounded result is the sign that was asked for. *)
Lemma binary_round_aux_sign_clear (m e : Z) (l : location) :
  f64_sign_clear (binary_round_aux 53 1024 false m e l).
Proof.
  unfold binary_round_aux.
  destruct (shr_fexp 53 1024 m e l) as [mrs' e'].
  destruct (shr_fexp 53 1024 _ e' loc_Exact) as [mrs'' e''].
  destruct (shr_m mrs''); [done| |done].
  by destruct (Z.leb e'' (Z.sub 1024 53)).
Qed.

Lemma f64_sign_clear_not_negative (x : float64) :
  f64_sign_clear x → f64_not_negative x.
Proof. by destruct x as [[]|[]| |[] m e]. Qed.

Lemma f64_above_zero_not_negative (x : float64) :
  f64_above_zero x → f64_not_negative x.
Proof. by destruct x as [[]|[]| |[] m e]. Qed.

Lemma f64_mul_not_negative (x y : float64) :
  f64_not_negative x → f64_not_negative y → f64_not_negative (f64_mul x y).
Proof.
  destruct x as [[]|[]| |[] mx ex], y as [[]|[]| |[] my ey]; try done.
  intros _ _. apply f64_sign_clear_not_negative.
  unfold f64_mul, SFmul. apply binary_round_aux_sign_clear.
Qed.

Lemma f64_square_sign_clear (x : float64) : f64_sign_clear (f64_mul x x).
Proof.
  destruct x as [[]|[]| |[] mx ex]; try done;
    unfold f64_mul, SFmul; apply binary_round_aux_sign_clear.
Qed.

Lemma f64_add_sign_clear (x y : float64) :
  f64_sign_clear x → f64_sign_clear y → f64_sign_clear (f64_add x y).
Proof.
  destruct x as [[]|[]| |[] mx ex], y as [[]|[]| |[] my ey]; try done.
  intros _ _. unfold f64_add, SFadd, cond_Zopp.
  destruct (shl_align mx ex (Z.min ex ey)) as [ax ?].
  destruct (shl_align my ey (Z.min ex ey)) as [ay ?].
  cbn [fst]. change (Z.pos ax + Z.pos ay)%Z with (Z.pos (ax + ay)).
  unfold binary_normalize, binary_round.
  destruct (shl_align (ax + ay) _ _) as [mz ez].
  apply binary_round_aux_sign_clear.
Qed.

Lemma f64_add_not_negative (x y : float64) :
  f64_not_negative x → f64_not_negative y → f64_not_negative (f64_add x y).
Proof.
  destruct x as [[]|[]| |[] mx ex], y as [[]|[]| |[] my ey]; try done.
  intros _ _. apply f64_sign_clear_not_negative.
  by apply (f64_add_sign_clear (S754_finite false mx ex) (S754_finite false my ey)).
Qed.

Lemma f64_sqrt_sign_clear (x : float64) :
  f64_sign_clear x → f64_sign_clear (f64_sqrt x).
Proof.
  destruct x as [[]|[]| |[] mx ex]; try done.
  intros _. unfold f64_sqrt, SFsqrt.
  destruct (SFsqrt_core_binary 53 1024 (Zpos mx) ex) as [[mz ez] lz].
  apply binary_round_aux_sign_clear.
Qed.

Lemma f64_div_not_negative (x n : float64) :
  f64_not_negative x → f64_above_zero n → f64_not_negative (f64_div x n).
Proof.
  destruct x as [[]|[]| |[] mx ex], n as [[]|[]| |[] mn en]; try done.
  intros _ _. apply f64_sign_clear_not_negative. unfold f64_div, SFdiv.
  destruct (SFdiv_core_binary 53 1024 (Zpos mx) ex (Zpos mn) en) as [[mz ez] lz].
  apply binary_round_aux_sign_clear.
Qed.

Lemma norm_f64_sign_clear (v : vector_f64) : f64_sign_clear (norm_f64 v).
Proof.
  unfold norm_f64, dot_f64, f64_sum. apply f64_sqrt_sign_clear.
  assert (∀ acc l, f64_sign_clear acc → Forall (λ x, f64_sign_clear x) l →
            f64_sign_clear (foldl f64_add acc l)) as Hsum.
  { intros acc l Hacc Hl. revert acc Hacc.
    induction Hl as [|x l Hx _ IH]; intros acc Hacc; [done|].
    simpl. apply IH. by apply f64_add_sign_clear. }
  apply Hsum; [done|].
  induction v as [|x v IH]; simpl; constructor; [|exact IH].
  apply f64_square_sign_clear.
Qed.

Lemma safe_norm_f64_above_zero (v : vector_f64) :
  f64_above_zero (safe_norm_f64 v).
Proof.
  unfold safe_norm_f64. pose proof (norm_f64_sign_clear v) as Hn.
  by destruct (norm_f64 v) as [[]|[]| |[] m e].
Qed.

Lemma unit_row_f64_not_negative (v : vector_f64) :
  Forall (λ x, f64_not_negative x) v →
  Forall (λ x, f64_not_negative x) (unit_row_f64 v).
Proof.
  intros Hv. unfold unit_row_f64. apply Forall_fmap.
  eapply Forall_impl; [exact Hv|]. intros x Hx. simpl.
  apply f64_div_not_negative; [done|apply safe_norm_f64_above_zero].
Qed.

Lemma dot_f64_not_negative (u v : vector_f64) :
  Forall (λ x, f64_not_negative x) u → Forall (λ x, f64_not_negative x) v →
  f64_not_negative (dot_f64 u v).
Proof.
  intros Hu Hv. unfold dot_f64, f64_sum.
  assert (∀ acc l, f64_not_negative acc → Forall (λ x, f64_not_negative x) l →
            f64_not_negative (foldl f64_add acc l)) as Hsum.
  { intros acc l Hacc Hl. revert acc Hacc.
    induction Hl as [|x l Hx _ IH]; intros acc Hacc; [done|].
    simpl. apply IH. by apply f64_add_not_negative. }
  apply Hsum; [done|].
  revert v Hv. induction Hu as [|x u Hx _ IH]; intros [|y v] Hv; simpl;
    try by constructor.
  apply Forall_cons in Hv as [Hy Hv].
  constructor; [by apply f64_mul_not_negative | by apply IH].
Qed.

(** X17.  In binary64, on rows of one length none of whose coordinates is
    below zero, no entry of the similarity matrix is below zero: every
    step of the computation, the squares, the sums, the square root, the
    division by the substituted norm and the products, keeps the sign. *)
Theorem similarity_matrix_f64_not_negative (rows : list vector_f64) :
  stackable_f64 rows →
  Forall (Forall (λ x, f64_not_negative x)) rows →
  ∃ m,
    similarity_matrix_f64 rows = Ok m
    ∧ Forall (λ n, f64_above_zero n) (replace_zero_norms_f64 (norm_f64 <$> rows))
    ∧ ∀ i j, i < length rows → j < length rows →
        ∃ x, entry_f64 m i j = Some x ∧ f64_ltb x f64_zero = false.
Proof.
  intros Hs Hrows. exists (dot_transpose_f64 (unit_row_f64 <$> rows)).
  split; [by apply similarity_matrix_f64_stackable|]. split.
  { unfold replace_zero_norms_f64. rewrite <- list_fmap_compose.
    apply Forall_fmap, Forall_forall. intros v _.
    apply (safe_norm_f64_above_zero v). }
  intros i j Hi Hj.
  destruct (lookup_lt_is_Some_2 rows i Hi) as [u Hu].
  destruct (lookup_lt_is_Some_2 rows j Hj) as [v Hv].
  exists (dot_f64 (unit_row_f64 u) (unit_row_f64 v)).
  split; [by apply entry_f64_unit_rows|].
  rewrite Forall_forall in Hrows.
  assert (f64_not_negative (dot_f64 (unit_row_f64 u) (unit_row_f64 v))) as Hnn.
  { apply dot_f64_not_negative; apply unit_row_f64_not_negative, Hrows;
      by eapply list_elem_of_lookup_2. }
  unfold f64_not_negative in Hnn. by destruct (f64_ltb _ _).
Qed.

Lemma similarity_matrix_f64_not_negative_witness :
  stackable_f64 underflow_rows
  ∧ Forall (Forall (λ x, f64_not_negative x)) underflow_rows
  ∧ ∃ m x,
      similarity_matrix_f64 underflow_rows = Ok m
      ∧ entry_f64 m 0 1 = Some x ∧ f64_ltb x f64_zero = false.
Proof.
  assert (stackable_f64 underflow_rows) as Hs.
  { split; [done|]. exists 2. by repeat constructor. }
  assert (Forall (Forall (λ x, f64_not_negative x)) underflow_rows) as Hnn.
  { by repeat constructor. }
  split; [exact Hs|]. split; [exact Hnn|].
  destruct (similarity_matrix_f64_not_negative underflow_rows Hs Hnn)
    as (m & Hm & _ & Hentries).
  destruct (Hentries 0 1) as (x & Hx & Hsign); [simpl; lia..|].
  by exists m, x.
Defined.

(** ** The vector builder in binary64 *)

Lemma f64_of_nat_sign_clear (n : nat) : f64_sign_clear (f64_of_nat n).
Proof.
  unfold f64_of_nat, binary_normalize. destruct (Z.of_nat n) as [|p|p] eqn:Hn.
  - done.
  - unfold binary_round. destruct (shl_align _ _ _) as [mz ez].
    apply binary_round_aux_sign_clear.
  - lia.
Qed.

Lemma f64_div_sign_clear (x y : float64) :
  f64_sign_clear x → f64_sign_clear y → f64_sign_clear (f64_div x y).
Proof.
  destruct x as [[]|[]| |[] mx ex], y as [[]|[]| |[] my ey]; try done.
  intros _ _. unfold f64_div, SFdiv.
  destruct (SFdiv_core_binary 53 1024 (Zpos mx) ex (Zpos my) ey) as [[mz ez] lz].
  apply binary_round_aux_sign_clear.
Qed.

Lemma for_each_invariant {S A} (I : S → Prop) (body : S → A → result S)
    (l : list A) (s s' : S) :
  (∀ s x s', I s → body s x = Ok s' → I s') →
  I s → for_each body s l = Ok s' → I s'.
Proof.
  intros Hbody. revert s. induction l as [|x l IH]; intros s Hs; simpl.
  - by intros [= <-].
  - intros (s1 & Hstep & Hrest)%bind_Ok. apply (IH s1); [|done].
    by eapply Hbody.
Qed.

Lemma dict_get_f64_elem_of (d : dict_f64) (u : string) (v : vector_f64) :
  dict_get_f64 d u = Ok v → (u, v) ∈ d.
Proof.
  unfold dict_get_f64.
  destruct (list_find _ d) as [[i [a w]]|] eqn:Hfind; [|done].
  intros [= <-]. apply list_find_Some in Hfind as (Hi & Ha & _).
  simpl in Ha. subst a. by eapply list_elem_of_lookup_2.
Qed.

Lemma vector_row_body_f64_shape (subs : list string) (idx : gmap string nat)
    (totals : list (string * nat)) (uv : dict_f64) (r : count_row)
    (uv' : dict_f64) :
  Forall (λ kv, length kv.2 = length subs
                ∧ Forall (λ x, f64_sign_clear x) kv.2) uv →
  vector_row_body_f64 subs idx totals uv r = Ok uv' →
  Forall (λ kv, length kv.2 = length subs
                ∧ Forall (λ x, f64_sign_clear x) kv.2) uv'.
Proof.
  intros Huv. unfold vector_row_body_f64.
  set (uv1 := if decide (row_author r ∈ uv.*1) then uv
              else uv ++ [(row_author r, np_zeros_f64 (length subs))]).
  assert (Forall (λ kv, length kv.2 = length subs
                        ∧ Forall (λ x, f64_sign_clear x) kv.2) uv1) as Huv1.
  { unfold uv1. case_decide; [done|]. apply Forall_app. split; [done|].
    constructor; [|done]. simpl. unfold np_zeros_f64.
    split; [by rewrite length_replicate|]. by apply Forall_replicate. }
  clearbody uv1.
  intros (i & _ & (total & _ & (v & Hv & (v' & Hv' & [= <-])%bind_Ok)%bind_Ok)%bind_Ok)%bind_Ok.
  apply dict_get_f64_elem_of in Hv.
  rewrite Forall_forall in Huv1. destruct (Huv1 _ Hv) as [Hlen Hsign].
  unfold array_set_f64 in Hv'. case_decide as Hi; [|done].
  injection Hv' as <-.
  unfold dict_replace_f64. apply Forall_fmap, Forall_forall.
  intros kv Hkv. simpl. case_decide; [|by apply Huv1]. simpl.
  split; [by rewrite length_insert|].
  apply Forall_insert; [done|].
  apply f64_div_sign_clear; apply f64_of_nat_sign_clear.
Qed.

Lemma create_user_vectors_f64_shape (df : dataframe) (uv : dict_f64)
    (all_subreddits : list string) :
  create_user_vectors_f64 df = Ok (uv, all_subreddits) →
  uv ≠ []
  ∧ Forall (λ kv, length kv.2 = length all_subreddits
                  ∧ Forall (λ x, f64_sign_clear x) kv.2) uv.
Proof.
  unfold create_user_vectors_f64.
  intros (uv' & Hloop & Hrest)%bind_Ok.
  destruct uv' as [|kv uv']; [done|]. simpl in Hrest. injection Hrest as <- <-.
  split; [done|].
  eapply (for_each_invariant _ _ _ _ _ (vector_row_body_f64_shape _ _ _));
    [|exact Hloop]. constructor.
Qed.

(** ** The two vector builders side by side *)

Lemma same_shape_keys (uf : dict_f64) (ur : dict) :
  same_shape uf ur → uf.*1 = ur.*1.
Proof.
  induction 1 as [|a b uf ur [Hk _] _ IH]; [done|]. csimpl. by rewrite Hk, IH.
Qed.

Lemma dict_get_f64_cons (kv : string * vector_f64) (d : dict_f64) (u : string) :
  dict_get_f64 (kv :: d) u = if decide (kv.1 = u) then Ok kv.2 else dict_get_f64 d u.
Proof.
  unfold dict_get_f64. simpl. case_decide; [done|].
  by destruct (list_find _ d) as [[i kv']|].
Qed.

Lemma dict_get_cons (kv : string * vector) (d : dict) (u : string) :
  dict_get (kv :: d) u = if decide (kv.1 = u) then Ok kv.2 else dict_get d u.
Proof.
  unfold dict_get. simpl. case_decide; [done|].
  by destruct (list_find _ d) as [[i kv']|].
Qed.

Lemma dict_get_same_shape (uf : dict_f64) (ur : dict) (u : string) :
  same_shape uf ur →
  result_rel (λ vf vr, length vf = length vr) (dict_get_f64 uf u) (dict_get ur u).
Proof.
  induction 1 as [|a b uf ur [Hk Hl] _ IH]; [done|].
  rewrite dict_get_f64_cons, dict_get_cons, Hk. by case_decide.
Qed.

Lemma dict_replace_same_shape (uf : dict_f64) (ur : dict) (u : string)
    (vf : vector_f64) (vr : vector) :
  same_shape uf ur → length vf = length vr →
  same_shape (dict_replace_f64 uf u vf) (dict_replace ur u vr).
Proof.
  intros Hs Hl. unfold same_shape, dict_replace_f64, dict_replace.
  apply Forall2_fmap. eapply Forall2_impl; [exact Hs|].
  intros a b [Hk Hab]. simpl. rewrite Hk. by case_decide.
Qed.

Lemma vector_row_body_same_shape (subs : list string) (idx : gmap string nat)
    (totals : list (string * nat)) (uf : dict_f64) (ur : dict) (r : count_row) :
  same_shape uf ur →
  result_rel same_shape (vector_row_body_f64 subs idx totals uf r)
                        (vector_row_body subs idx totals ur r).
Proof.
  intros Hs. unfold vector_row_body_f64, vector_row_body.
  rewrite (same_shape_keys uf ur Hs).
  set (uf1 := if decide (row_author r ∈ ur.*1) then uf
              else uf ++ [(row_author r, np_zeros_f64 (length subs))]).
  set (ur1 := if decide (row_author r ∈ ur.*1) then ur
              else ur ++ [(row_author r, np_zeros (length subs))]).
  assert (same_shape uf1 ur1) as Hs1.
  { unfold uf1, ur1. case_decide; [done|]. apply Forall2_app; [done|].
    constructor; [|constructor]. simpl. unfold np_zeros_f64, np_zeros.
    by rewrite !length_replicate. }
  clearbody uf1 ur1.
  destruct (idx !! row_subreddit r) as [i|]; [|done]. simpl.
  destruct (series_get totals (row_author r)) as [total| |]; [|done..]. simpl.
  pose proof (dict_get_same_shape uf1 ur1 (row_author r) Hs1) as Hget.
  destruct (dict_get_f64 uf1 (row_author r)) as [vf| |],
           (dict_get ur1 (row_author r)) as [vr| |]; try done. simpl in *.
  unfold array_set_f64, array_set. rewrite Hget.
  case_decide; [|done]. simpl.
  apply dict_replace_same_shape; [done|]. by rewrite !length_insert.
Qed.

Lemma for_each_same_shape (subs : list string) (idx : gmap string nat)
    (totals : list (string * nat)) (rows : list count_row)
    (uf : dict_f64) (ur : dict) :
  same_shape uf ur →
  result_rel same_shape
    (for_each (vector_row_body_f64 subs idx totals) uf rows)
    (for_each (vector_row_body subs idx totals) ur rows).
Proof.
  revert uf ur. induction rows as [|r rows IH]; intros uf ur Hs; [done|].
  simpl. pose proof (vector_row_body_same_shape subs idx totals uf ur r Hs) as Hstep.
  destruct (vector_row_body_f64 subs idx totals uf r) as [uf1| |],
           (vector_row_body subs idx totals ur r) as [ur1| |]; try done.
  simpl. by apply IH.
Qed.

Lemma create_user_vectors_same_shape (df : dataframe) :
  result_rel (λ f r, same_shape f.1 r.1 ∧ f.2 = r.2)
             (create_user_vectors_f64 df) (create_user_vectors df).
Proof.
  unfold create_user_vectors_f64, create_user_vectors.
  match goal with
  | |- context [for_each (vector_row_body_f64 ?s ?i ?t) [] ?rows] =>
      pose proof (for_each_same_shape s i t rows [] [] (Forall2_nil_2 _ _ _)) as Hloop;
      destruct (for_each (vector_row_body_f64 s i t) [] rows) as [uf| |],
               (for_each (vector_row_body s i t) [] rows) as [ur| |]
  end; try done.
  simpl in *. destruct Hloop as [|a b uf ur Hab Hrest]; [done|]. simpl.
  split; [by constructor|done].
Qed.

(** X18.  The vector builder in binary64.  When some user has at least
    three posts it returns, as the exact builder does, the users with at
    least three posts in the same order and the same subreddit list; every
    vector has one coordinate per subreddit and no coordinate below zero;
    and on every working set of the deduplicator and of the similarity
    engine, a sublist of the returned dict with at least one user, the
    similarity matrix is computed and none of its entries is below zero.
    When no user has three posts it raises [StopIteration]. *)
Theorem pipeline_f64_not_negative (df : dataframe) :
  ((∃ u, 3 ≤ user_total df u) →
   ∃ uv ur,
     create_user_vectors_f64 df = Ok (uv, sorted_unique (subreddit <$> df))
     ∧ create_user_vectors df = Ok (ur, sorted_unique (subreddit <$> df))
     ∧ uv.*1 = ur.*1
     ∧ (∀ u, u ∈ uv.*1 ↔ 3 ≤ user_total df u)
     ∧ Forall (λ kv, length kv.2 = length (sorted_unique (subreddit <$> df))
                     ∧ Forall (λ x, f64_ltb x f64_zero = false) kv.2) uv
     ∧ ∀ d, d ≠ [] → d `sublist_of` uv →
         ∃ m,
           similarity_matrix_f64 (vectors_of_f64 d) = Ok m
           ∧ ∀ i j, i < length d → j < length d →
               ∃ x, entry_f64 m i j = Some x ∧ f64_ltb x f64_zero = false)
  ∧ ((∀ u, user_total df u < 3) →
     create_user_vectors_f64 df = Raise StopIteration).
Proof.
  pose proof (create_user_vectors_same_shape df) as Hrel. split.
  2:{ intros Hno. rewrite (create_user_vectors_no_survivor df Hno) in Hrel.
      destruct (create_user_vectors_f64 df) as [?|e|]; try done.
      simpl in Hrel. by rewrite Hrel. }
  intros Hex. destruct (create_user_vectors_Ok df Hex) as (ur & Hexact & Hb).
  rewrite Hexact in Hrel.
  destruct (create_user_vectors_f64 df) as [[uv subs]| |] eqn:Hrun; try done.
  simpl in Hrel. destruct Hrel as [Hshape ->].
  pose proof (same_shape_keys uv ur Hshape) as Hkeys.
  destruct (create_user_vectors_f64_shape df uv _ Hrun) as [Hne Hsigns].
  assert (∀ x, f64_sign_clear x → f64_ltb x f64_zero = false) as Hsign.
  { intros x Hx. apply f64_sign_clear_not_negative in Hx.
    unfold f64_not_negative in Hx. by destruct (f64_ltb x f64_zero). }
  exists uv, ur. split; [done|]. split; [done|]. split; [done|]. split.
  { intros u. rewrite Hkeys. apply Hb. }
  split.
  { eapply Forall_impl; [exact Hsigns|]. intros kv [Hlen Hkv].
    split; [done|]. eapply Forall_impl; [exact Hkv|]. done. }
  intros d Hd Hsub.
  assert (Forall (λ kv, length kv.2 = length (sorted_unique (subreddit <$> df))
                        ∧ Forall (λ x, f64_sign_clear x) kv.2) d) as Hd_shape.
  { apply Forall_forall. intros kv Hkv. rewrite Forall_forall in Hsigns.
    apply Hsigns. by eapply elem_of_sublist. }
  assert (stackable_f64 (vectors_of_f64 d)) as Hs.
  { split; [by destruct d|].
    exists (length (sorted_unique (subreddit <$> df))).
    unfold vectors_of_f64. apply Forall_fmap.
    eapply Forall_impl; [exact Hd_shape|]. by intros kv [? _]. }
  exists (dot_transpose_f64 (unit_row_f64 <$> vectors_of_f64 d)).
  split; [by apply similarity_matrix_f64_stackable|].
  intros i j Hi Hj.
  destruct (lookup_lt_is_Some_2 d i Hi) as [a Ha].
  destruct (lookup_lt_is_Some_2 d j Hj) as [b Hb'].
  exists (dot_f64 (unit_row_f64 a.2) (unit_row_f64 b.2)). split.
  { apply entry_f64_unit_rows; unfold vectors_of_f64;
      rewrite list_lookup_fmap; [by rewrite Ha|by rewrite Hb']. }
  rewrite Forall_forall in Hd_shape.
  assert (∀ kv, kv ∈ d → Forall (λ x, f64_not_negative x) kv.2) as Hnn.
  { intros kv Hkv. destruct (Hd_shape kv Hkv) as [_ Hc].
    eapply Forall_impl; [exact Hc|]. apply f64_sign_clear_not_negative. }
  assert (f64_not_negative (dot_f64 (unit_row_f64 a.2) (unit_row_f64 b.2)))
    as Hdot.
  { apply dot_f64_not_negative; apply unit_row_f64_not_negative, Hnn;
      by eapply list_elem_of_lookup_2. }
  unfold f64_not_negative in Hdot. by destruct (f64_ltb _ _).
Qed.

Lemma pipeline_f64_not_negative_witness :
  (∃ u, 3 ≤ user_total twin_posts u)
  ∧ ∃ uv m x,
      create_user_vectors_f64 twin_posts = Ok (uv, ["x"; "y"])
      ∧ uv.*1 = ["a"; "b"]
      ∧ similarity_matrix_f64 (vectors_of_f64 uv) = Ok m
      ∧ entry_f64 m 0 1 = Some x
      ∧ f64_ltb x f64_zero = false.
Proof.
  assert (∃ u, 3 ≤ user_total twin_posts u) as Hex.
  { exists "a". vm_compute. lia. }
  split; [exact Hex|].
  destruct (proj1 (pipeline_f64_not_negative twin_posts) Hex)
    as (uv & ur & Hrun & _ & _ & _ & _ & Hsim).
  assert (create_user_vectors_f64 twin_posts
          = Ok ([("a", [S754_finite false 6004799503160661 (-55);
                        S754_finite false 7505999378950827 (-53)]);
                 ("b", [S754_finite false 6004799503160661 (-55);
                        S754_finite false 7505999378950827 (-53)])],
                ["x"; "y"])) as Hval.
  { vm_compute. reflexivity. }
  assert (sorted_unique (subreddit <$> twin_posts) = ["x"; "y"]) as Hsubs.
  { vm_compute. reflexivity. }
  rewrite Hsubs in Hrun.
  assert (uv.*1 = ["a"; "b"]) as Hkeys.
  { rewrite Hval in Hrun. by injection Hrun as <-. }
  assert (uv ≠ []) as Hne by (by destruct uv).
  destruct (Hsim uv Hne (reflexivity uv)) as (m & Hm & Hentries).
  destruct (Hentries 0 1) as (x & Hx & Hsign).
  { apply (f_equal length) in Hkeys. rewrite length_fmap in Hkeys.
    rewrite Hkeys. simpl. lia. }
  { apply (f_equal length) in Hkeys. rewrite length_fmap in Hkeys.
    rewrite Hkeys. simpl. lia. }
  exists uv, m, x. split; [exact Hrun|]. split; [exact Hkeys|].
  split; [exact Hm|]. split; [exact Hx|exact Hsign].
Defined.

(** ** The edge list *)

Lemma filter_sublist_impl {A} (P Q : A → Prop) `{∀ x, Decision (P x)}
    `{∀ x, Decision (Q x)} (l : list A) :
  (∀ x, P x → Q x) → filter P l `sublist_of` filter Q l.
Proof.
  intros HPQ. induction l as [|x l IH]; [done|].
  rewrite !filter_cons. destruct (decide (P x)) as [HP|HP].
  - rewrite decide_True by auto. by constructor.
  - destruct (decide (Q x)); [by constructor|done].
Qed.

Lemma edges_spec_threshold_sublist (t1 t2 : R) (d : dict) :
  (t1 <= t2)%R → edges_spec t2 d `sublist_of` edges_spec t1 d.
Proof.
  intros Ht. unfold edges_spec. apply fmap_sublist, filter_sublist_impl.
  intros p Hp. lra.
Qed.

Lemma later_pairs_length {A} (l : list A) :
  2 * length (later_pairs l) = length l * (length l - 1).
Proof.
  induction l as [|x l IH]; [done|]. simpl later_pairs.
  rewrite length_app, length_fmap. simpl length.
  destruct l as [|y l]; [done|]. simpl length in *.
  nia.
Qed.

Lemma later_pairs_elem_of_list {A} (l : list A) (x y : A) :
  (x, y) ∈ later_pairs l → x ∈ l ∧ y ∈ l.
Proof.
  intros (i & j & _ & Hi & Hj)%later_pairs_elem_of.
  split; by eapply list_elem_of_lookup_2.
Qed.

Lemma later_pairs_NoDup {A} (l : list A) : NoDup l → NoDup (later_pairs l).
Proof.
  induction 1 as [|x l Hx Hnd IH]; simpl; [constructor|].
  apply NoDup_app. split; [|split; [|done]].
  - apply NoDup_fmap_2; [|done]. by intros y1 y2 [= ->].
  - intros [a b] (y & [= -> ->] & Hy)%list_elem_of_fmap Hin.
    by apply later_pairs_elem_of_list in Hin as [? _].
Qed.

Lemma wf_dict_entry_eq (d : dict) (x y : string * vector) :
  wf_dict d → x ∈ d → y ∈ d → x.1 = y.1 → x = y.
Proof.
  intros Hwf (i & Hi)%list_elem_of_lookup (j & Hj)%list_elem_of_lookup Heq.
  assert (i = j) as ->.
  { apply (NoDup_lookup d.*1 i j x.1 Hwf).
    - by rewrite list_lookup_fmap, Hi.
    - by rewrite list_lookup_fmap, Hj, Heq. }
  congruence.
Qed.

Lemma edges_spec_NoDup (t : R) (d : dict) : wf_dict d → NoDup (edges_spec t d).
Proof.
  intros Hwf. unfold edges_spec. apply NoDup_fmap_2_strong.
  - intros [x1 y1] [x2 y2] [_ H1]%list_elem_of_filter [_ H2]%list_elem_of_filter.
    simpl. intros [= Hx Hy].
    apply later_pairs_elem_of_list in H1 as [? ?].
    apply later_pairs_elem_of_list in H2 as [? ?].
    f_equal; by apply (wf_dict_entry_eq d).
  - apply NoDup_filter, later_pairs_NoDup. by eapply NoDup_fmap_1.
Qed.

Lemma edges_spec_asym (t : R) (d : dict) (a b : string) :
  wf_dict d → (a, b) ∈ edges_spec t d → (b, a) ∉ edges_spec t d.
Proof.
  intros Hwf (i & j & x & y & Hlt & Hi & Hj & <- & <- & _)%edges_spec_elem_of
             (i' & j' & x' & y' & Hlt' & Hi' & Hj' & Hx' & Hy' & _)%edges_spec_elem_of.
  assert (i' = j).
  { apply (NoDup_lookup d.*1 i' j y.1 Hwf).
    - by rewrite list_lookup_fmap, Hi', <- Hx'.
    - by rewrite list_lookup_fmap, Hj. }
  assert (j' = i).
  { apply (NoDup_lookup d.*1 j' i x.1 Hwf).
    - by rewrite list_lookup_fmap, Hj', <- Hy'.
    - by rewrite list_lookup_fmap, Hi. }
  lia.
Qed.

Lemma edges_spec_length (t : R) (d : dict) :
  2 * length (edges_spec t d) ≤ length d * (length d - 1).
Proof.
  unfold edges_spec. rewrite length_fmap, <- later_pairs_length.
  pose proof (length_filter
    (λ p : (string * vector) * (string * vector),
       (cosine p.1.2 p.2.2 >= t)%R) (later_pairs d)). lia.
Qed.

(** X6.  Raising the edge threshold only removes edges: on the same input,
    the edge list written for the higher threshold is a sublist of the edge
    list written for the lower one. *)
Theorem edges_shrink_with_threshold (uv : dict) (t1 t2 : R) (f : string)
    (fs : filesystem) :
  wf_dict uv → stackable (vectors_of uv) → (t1 <= t2)%R →
  ∃ edges1 edges2,
    generate_similarity_network_vectorized uv (Some t1) (Some f) fs
    = (Ok f, <[f := edge_lines edges1]> fs)
    ∧ generate_similarity_network_vectorized uv (Some t2) (Some f) fs
      = (Ok f, <[f := edge_lines edges2]> fs)
    ∧ edges2 `sublist_of` edges1.
Proof.
  intros Hwf Hs Ht.
  exists (edges_spec t1 (drop_users (round_todrop 1 uv) uv)),
         (edges_spec t2 (drop_users (round_todrop 1 uv) uv)).
  split; [by rewrite generate_closed|]. split; [by rewrite generate_closed|].
  by apply edges_spec_threshold_sublist.
Qed.

Lemma edges_shrink_with_threshold_witness :
  wf_dict two_users ∧ stackable (vectors_of two_users) ∧ (1 / 10 <= 95 / 100)%R ∧
  ∃ edges1 edges2,
    generate_similarity_network_vectorized two_users (Some (1 / 10)%R)
      (Some "edges.txt") ∅
    = (Ok "edges.txt", <["edges.txt" := edge_lines edges1]> ∅)
    ∧ generate_similarity_network_vectorized two_users (Some (95 / 100)%R)
        (Some "edges.txt") ∅
      = (Ok "edges.txt", <["edges.txt" := edge_lines edges2]> ∅)
    ∧ edges2 `sublist_of` edges1.
Proof.
  assert (1 / 10 <= 95 / 100)%R as Ht by lra.
  split; [apply two_users_wf|]. split; [apply two_users_stackable|].
  split; [exact Ht|].
  exact (edges_shrink_with_threshold two_users _ _ "edges.txt" ∅
           two_users_wf two_users_stackable Ht).
Defined.

(** X7.  The edge list that is written has no repeated edge and no edge in
    both directions; both ends of an edge are users of the input, and with
    [n] users left after deduplication there are at most [n (n - 1) / 2]
    edges. *)
Theorem edge_list_simple_graph (uv : dict) (t : R) (f : string)
    (fs : filesystem) :
  wf_dict uv → stackable (vectors_of uv) →
  ∃ out edges,
    deduplicate uv (Some 1%R) None = Ok out
    ∧ generate_similarity_network_vectorized uv (Some t) (Some f) fs
      = (Ok f, <[f := edge_lines edges]> fs)
    ∧ NoDup edges
    ∧ (∀ a b, (a, b) ∈ edges → (b, a) ∉ edges)
    ∧ (∀ a b, (a, b) ∈ edges → a ∈ uv.*1 ∧ b ∈ uv.*1)
    ∧ 2 * length edges ≤ length out * (length out - 1).
Proof.
  intros Hwf Hs. set (out := drop_users (round_todrop 1 uv) uv).
  assert (wf_dict out) as Hwf' by by apply drop_users_wf.
  exists out, (edges_spec t out).
  split; [by apply deduplicate_closed|]. split; [by rewrite generate_closed|].
  split; [by apply edges_spec_NoDup|].
  split; [intros a b; by apply edges_spec_asym|].
  split; [|apply edges_spec_length].
  intros a b (i & j & x & y & _ & Hi & Hj & <- & <- & _)%edges_spec_elem_of.
  assert (∀ z : string * vector, z ∈ out → z.1 ∈ uv.*1) as Hkeys.
  { intros z [_ Hz]%drop_users_elem_of. apply list_elem_of_fmap. eauto. }
  split; apply Hkeys; by eapply list_elem_of_lookup_2.
Qed.

Lemma edge_list_simple_graph_witness :
  wf_dict two_users ∧ stackable (vectors_of two_users) ∧
  ∃ out edges,
    deduplicate two_users (Some 1%R) None = Ok out
    ∧ generate_similarity_network_vectorized two_users (Some (1 / 4)%R)
        (Some "edges.txt") ∅
      = (Ok "edges.txt", <["edges.txt" := edge_lines edges]> ∅)
    ∧ NoDup edges
    ∧ (∀ a b, (a, b) ∈ edges → (b, a) ∉ edges)
    ∧ (∀ a b, (a, b) ∈ edges → a ∈ two_users.*1 ∧ b ∈ two_users.*1)
    ∧ 2 * length edges ≤ length out * (length out - 1).
Proof.
  split; [apply two_users_wf|]. split; [apply two_users_stackable|].
  exact (edge_list_simple_graph two_users (1 / 4)%R "edges.txt" ∅
           two_users_wf two_users_stackable).
Defined.

(** ** The notebook from the posts to the edge-list file *)

Lemma make_network_closed (df : dataframe) (fs : filesystem) (uv : dict)
    (all_subreddits : list string) :
  create_user_vectors df = Ok (uv, all_subreddits) →
  make_network df fs
  = (Ok "network_similarity_vec.csv",
     <["network_similarity_vec.csv" :=
         edge_lines (edges_spec (95 / 100)%R
                       (drop_users (round_todrop 1 uv) uv))]> fs).
Proof.
  intros Hrun.
  destruct (create_user_vectors_Ok_inv _ _ _ Hrun) as (_ & Hb & Hex).
  assert (wf_dict uv) as Hwf by apply Hb.
  assert (stackable (vectors_of uv)) as Hs by by eapply built_from_stackable.
  unfold make_network, edge_list_file_vec. rewrite Hrun.
  by rewrite generate_closed.
Qed.

Lemma survivor_edges (df : dataframe) (uv : dict) (t : R) :
  built_from df uv →
  NoDup (edges_spec t (drop_users (round_todrop 1 uv) uv))
  ∧ (∀ a b, (a, b) ∈ edges_spec t (drop_users (round_todrop 1 uv) uv) →
       (b, a) ∉ edges_spec t (drop_users (round_todrop 1 uv) uv))
  ∧ (∀ a b, (a, b) ∈ edges_spec t (drop_users (round_todrop 1 uv) uv) →
       3 ≤ user_total df a ∧ 3 ≤ user_total df b).
Proof.
  intros Hb. assert (wf_dict uv) as Hwf by apply Hb.
  set (out := drop_users (round_todrop 1 uv) uv).
  assert (wf_dict out) as Hwf' by by apply drop_users_wf.
  split; [by apply edges_spec_NoDup|].
  split; [intros a b; by apply edges_spec_asym|].
  intros a b (i & j & x & y & _ & Hi & Hj & <- & <- & _)%edges_spec_elem_of.
  assert (∀ z : string * vector, z ∈ out → 3 ≤ user_total df z.1) as Hkeys.
  { intros z [_ Hz]%drop_users_elem_of. apply Hb, list_elem_of_fmap. eauto. }
  split; apply Hkeys; by eapply list_elem_of_lookup_2.
Qed.

(** X9.  The two top-level calls of the notebook, one after the other.
    When some user has at least three posts they run to the end: the
    vectors are built and the default file is set to the lines of a list
    of edges that has no edge twice and no edge in both directions, each
    between two users with at least three posts.  When no user has three
    posts the first call raises [StopIteration] and no file is written. *)
Theorem make_network_runs (df : dataframe) (fs : filesystem) :
  ((∃ u, 3 ≤ user_total df u) →
   ∃ uv all_subreddits edges,
     create_user_vectors df = Ok (uv, all_subreddits)
     ∧ make_network df fs
       = (Ok "network_similarity_vec.csv",
          <["network_similarity_vec.csv" := edge_lines edges]> fs)
     ∧ NoDup edges
     ∧ (∀ a b, (a, b) ∈ edges → (b, a) ∉ edges)
     ∧ (∀ a b, (a, b) ∈ edges → 3 ≤ user_total df a ∧ 3 ≤ user_total df b))
  ∧ ((∀ u, user_total df u < 3) →
     make_network df fs = (Raise StopIteration, fs)).
Proof.
  split.
  - intros Hex. destruct (create_user_vectors_Ok df Hex) as (uv & Hrun & Hb).
    destruct (survivor_edges df uv (95 / 100) Hb) as (Hnd & Hasym & Hends).
    exists uv, (sorted_unique (subreddit <$> df)),
           (edges_spec (95 / 100) (drop_users (round_todrop 1 uv) uv)).
    split; [done|]. split; [by eapply make_network_closed|]. done.
  - intros Hno. unfold make_network.
    by rewrite create_user_vectors_no_survivor.
Qed.

Lemma make_network_runs_witness :
  (∃ u, 3 ≤ user_total seven_posts u) ∧
  ∃ uv all_subreddits edges,
    create_user_vectors seven_posts = Ok (uv, all_subreddits)
    ∧ uv.*1 = ["a"; "b"]
    ∧ make_network seven_posts ∅
      = (Ok "network_similarity_vec.csv",
         <["network_similarity_vec.csv" := edge_lines edges]> ∅)
    ∧ NoDup edges.
Proof.
  assert (∃ u, 3 ≤ user_total seven_posts u) as Hex.
  { exists "a". vm_compute. lia. }
  split; [exact Hex|].
  destruct (proj1 (make_network_runs seven_posts ∅) Hex)
    as (uv & subs & edges & Hrun & Hfile & Hnd & _).
  exists uv, subs, edges. split; [exact Hrun|]. split; [|by split].
  rewrite create_user_vectors_seven_posts in Hrun. by injection Hrun as <- _.
Defined.

(** ** The order of the output *)

Lemma ascii_compare_lt_trans (a b c : Ascii.ascii) :
  Ascii.compare a b = Lt → Ascii.compare b c = Lt → Ascii.compare a c = Lt.
Proof.
  unfold Ascii.compare. rewrite !N.compare_lt_iff. lia.
Qed.

Lemma ascii_compare_refl (a : Ascii.ascii) : Ascii.compare a a = Eq.
Proof. unfold Ascii.compare. apply N.compare_refl. Qed.

Lemma string_compare_refl (s : string) : String.compare s s = Eq.
Proof.
  induction s as [|a s IH]; [done|]. simpl. by rewrite ascii_compare_refl.
Qed.

Lemma string_compare_lt_trans (s1 s2 s3 : string) :
  String.compare s1 s2 = Lt → String.compare s2 s3 = Lt →
  String.compare s1 s3 = Lt.
Proof.
  revert s2 s3. induction s1 as [|a s1 IH]; intros [|b s2] [|c s3]; try done.
  simpl.
  destruct (Ascii.compare a b) eqn:Hab; [|
    destruct (Ascii.compare b c) eqn:Hbc; [| |done] | done].
  - apply Ascii.compare_eq_iff in Hab as ->.
    destruct (Ascii.compare b c); [apply IH|done|done].
  - apply Ascii.compare_eq_iff in Hbc as ->. by rewrite Hab.
  - by rewrite (ascii_compare_lt_trans a b c).
Qed.

Lemma str_le_alt (s1 s2 : string) :
  str_le s1 s2 ↔ String.compare s1 s2 = Lt ∨ s1 = s2.
Proof.
  unfold str_le, String.leb. split.
  - destruct (String.compare s1 s2) eqn:Hc; [|by left|done].
    intros _. right. by apply String.compare_eq_iff.
  - intros [->| ->]; [done|]. by rewrite string_compare_refl.
Qed.

Lemma str_le_total : Total str_le.
Proof. intros s1 s2. apply String.leb_total. Qed.

Lemma str_le_trans : Transitive str_le.
Proof.
  intros s1 s2 s3. rewrite !str_le_alt.
  intros [H12| ->] [H23| ->]; auto.
  left. by eapply string_compare_lt_trans.
Qed.

Lemma str_le_antisym : AntiSymm eq str_le.
Proof. intros s1 s2. apply String.leb_antisym. Qed.

Lemma key_le_alt (k1 k2 : string * string) :
  key_le k1 k2 ↔
  String.compare k1.1 k2.1 = Lt ∨ (k1.1 = k2.1 ∧ str_le k1.2 k2.2).
Proof.
  unfold key_le, String.ltb.
  rewrite orb_true_iff, andb_true_iff, String.eqb_eq. split.
  - intros [H|[H1 H2]]; [left|by right].
    by destruct (String.compare k1.1 k2.1).
  - intros [->|[H1 H2]]; [by left|by right].
Qed.

Lemma key_le_total : Total key_le.
Proof.
  intros k1 k2. rewrite !key_le_alt.
  destruct (String.compare k1.1 k2.1) eqn:Hc.
  - apply String.compare_eq_iff in Hc.
    destruct (str_le_total k1.2 k2.2); [left|right]; right; done.
  - by left; left.
  - right; left. rewrite String.compare_antisym, Hc. done.
Qed.

Lemma key_le_trans : Transitive key_le.
Proof.
  intros k1 k2 k3. rewrite !key_le_alt.
  intros [H12|[E12 L12]] [H23|[E23 L23]].
  - left. by eapply string_compare_lt_trans.
  - left. by rewrite <- E23.
  - left. by rewrite E12.
  - right. split; [congruence|]. by apply (str_le_trans _ k2.2).
Qed.

Lemma key_le_antisym : AntiSymm eq key_le.
Proof.
  intros [a1 b1] [a2 b2]. rewrite !key_le_alt. simpl.
  intros [H12|[E12 L12]] [H21|[E21 L21]].
  - rewrite String.compare_antisym, H21 in H12. done.
  - subst. by rewrite string_compare_refl in H12.
  - subst. by rewrite string_compare_refl in H21.
  - subst. f_equal. by apply str_le_antisym.
Qed.

Lemma key_le_fst (k1 k2 : string * string) : key_le k1 k2 → str_le k1.1 k2.1.
Proof.
  rewrite key_le_alt. intros [?|[? _]]; apply str_le_alt; [by left|by right].
Qed.

Lemma unique_Permutation {A} `{EqDecision A} (l1 l2 : list A) :
  l1 ≡ₚ l2 → unique l1 ≡ₚ unique l2.
Proof.
  intros Hp. apply NoDup_Permutation; [apply unique_NoDup..|].
  intros x. by rewrite !unique_elem_of, Hp.
Qed.

Lemma sorted_unique_Permutation (l1 l2 : list string) :
  l1 ≡ₚ l2 → sorted_unique l1 = sorted_unique l2.
Proof.
  intros Hp. unfold sorted_unique.
  apply (@Sorted_unique _ str_le str_le_trans str_le_antisym);
    [apply Sorted_merge_sort, str_le_total..|].
  rewrite !merge_sort_Permutation. by apply unique_Permutation.
Qed.

Lemma groupby_size_Permutation (df1 df2 : dataframe) :
  df1 ≡ₚ df2 → groupby_size df1 = groupby_size df2.
Proof.
  intros Hp. unfold groupby_size.
  assert (merge_sort key_le (unique (group_key <$> df1))
          = merge_sort key_le (unique (group_key <$> df2))) as ->.
  { apply (@Sorted_unique _ key_le key_le_trans key_le_antisym);
      [apply Sorted_merge_sort, key_le_total..|].
    rewrite !merge_sort_Permutation. apply unique_Permutation.
    by rewrite Hp. }
  apply list_fmap_ext. intros _ k _. f_equal. by rewrite Hp.
Qed.

(** X10.  [create_user_vectors] does not depend on the order of the rows of
    its input: two post sets that are permutations of each other give the
    same outcome, the same dict in the same order and the same subreddit
    list, or the same exception. *)
Theorem create_user_vectors_order_independent (df1 df2 : dataframe) :
  df1 ≡ₚ df2 → create_user_vectors df1 = create_user_vectors df2.
Proof.
  intros Hp. unfold create_user_vectors.
  rewrite (groupby_size_Permutation df1 df2 Hp).
  rewrite (sorted_unique_Permutation (subreddit <$> df1) (subreddit <$> df2));
    [done|]. by rewrite Hp.
Qed.

Lemma create_user_vectors_order_independent_witness :
  seven_posts ≡ₚ reverse seven_posts ∧
  create_user_vectors seven_posts = create_user_vectors (reverse seven_posts).
Proof.
  assert (seven_posts ≡ₚ reverse seven_posts) as Hp.
  { symmetry. apply reverse_Permutation. }
  split; [exact Hp|].
  exact (create_user_vectors_order_independent _ _ Hp).
Defined.

Lemma StronglySorted_sublist {A} (R : relation A) (l1 l2 : list A) :
  l1 `sublist_of` l2 → StronglySorted R l2 → StronglySorted R l1.
Proof.
  induction 1 as [|x l1 l2 Hsub IH|x l1 l2 Hsub IH]; intros Hs; [done| |].
  - apply StronglySorted_inv in Hs as [Hs Hx]. constructor; [by apply IH|].
    rewrite Forall_forall in *. intros y Hy. apply Hx.
    by eapply elem_of_sublist.
  - apply StronglySorted_inv in Hs as [Hs _]. by apply IH.
Qed.

Lemma StronglySorted_keys_fst (K : list (string * string)) :
  StronglySorted key_le K → StronglySorted str_le K.*1.
Proof.
  induction 1 as [|k K Hs IH Hk]; csimpl; constructor; [done|].
  apply Forall_fmap. eapply Forall_impl; [done|].
  intros k' Hk'. by apply key_le_fst.
Qed.

Lemma vector_row_body_keys (subs : list string) (idx : gmap string nat)
    (totals : list (string * nat)) (uv uv' : dict) (r : count_row) :
  vector_row_body subs idx totals uv r = Ok uv' →
  uv'.*1 = uv.*1 ∨ uv'.*1 = uv.*1 ++ [row_author r].
Proof.
  unfold vector_row_body.
  intros (k & _ & (n & _ & (v & _ & (v' & _ & [= <-])%bind_Ok)%bind_Ok)%bind_Ok)%bind_Ok.
  rewrite dict_replace_keys. case_decide; [by left|right].
  by rewrite fmap_app.
Qed.

Lemma for_each_keys_sublist (subs : list string) (idx : gmap string nat)
    (totals : list (string * nat)) (rows : list count_row) (uv uv' : dict) :
  for_each (vector_row_body subs idx totals) uv rows = Ok uv' →
  uv'.*1 `sublist_of` uv.*1 ++ (row_author <$> rows).
Proof.
  revert uv. induction rows as [|r rows IH]; intros uv; simpl.
  - intros [= <-]. by rewrite app_nil_r.
  - intros (uv1 & Hstep & Hrest)%bind_Ok. apply IH in Hrest.
    apply vector_row_body_keys in Hstep as [Hk|Hk]; rewrite Hk in Hrest.
    + etrans; [done|]. apply sublist_app; [done|]. by apply sublist_cons.
    + by rewrite <- app_assoc in Hrest.
Qed.

Lemma create_user_vectors_keys_sorted (df : dataframe) (uv : dict)
    (all_subreddits : list string) :
  create_user_vectors df = Ok (uv, all_subreddits) →
  StronglySorted str_le uv.*1.
Proof.
  unfold create_user_vectors. cbv zeta.
  intros (uv' & Hloop & (n & _ & [= <- _])%bind_Ok)%bind_Ok.
  apply for_each_keys_sublist in Hloop. simpl in Hloop.
  eapply StronglySorted_sublist; [exact Hloop|].
  eapply StronglySorted_sublist.
  { apply fmap_sublist, sublist_filter. }
  assert (row_author <$> groupby_size df = (row_key <$> groupby_size df).*1)
    as ->.
  { rewrite <- list_fmap_compose. by apply list_fmap_ext. }
  apply StronglySorted_keys_fst. rewrite groupby_size_keys.
  apply StronglySorted_merge_sort; [apply key_le_trans | apply key_le_total].
Qed.

Lemma sorted_unique_StronglySorted (l : list string) :
  StronglySorted str_le (sorted_unique l).
Proof.
  apply StronglySorted_merge_sort; [apply str_le_trans | apply str_le_total].
Qed.

(** X11.  When some user has at least three posts, the dict that
    [create_user_vectors] returns lists its users in ascending order of
    their names, each once: its keys are the sorted distinct authors of the
    input with at least three posts.  The subreddit list is ascending too,
    each subreddit once.  This is the order in which deduplication meets the
    users. *)
Theorem create_user_vectors_sorted (df : dataframe) :
  (∃ u, 3 ≤ user_total df u) →
  ∃ uv all_subreddits,
    create_user_vectors df = Ok (uv, all_subreddits)
    ∧ uv.*1 = filter (λ u, 3 ≤ user_total df u)
                     (sorted_unique (author_name <$> df))
    ∧ StronglySorted str_le uv.*1
    ∧ NoDup uv.*1
    ∧ StronglySorted str_le all_subreddits
    ∧ NoDup all_subreddits.
Proof.
  intros Hex. destruct (create_user_vectors_Ok df Hex) as (uv & Hrun & Hb).
  exists uv, (sorted_unique (subreddit <$> df)). split; [done|].
  pose proof (create_user_vectors_keys_sorted df uv _ Hrun) as Hsorted.
  destruct Hb as (Hwf & Hkeys & _).
  split; [|split; [done|split; [done|split]]].
  - apply (@StronglySorted_unique _ str_le str_le_antisym); [done| |].
    + eapply StronglySorted_sublist; [apply sublist_filter|].
      apply sorted_unique_StronglySorted.
    + apply NoDup_Permutation; [done| |].
      * apply NoDup_filter, sorted_unique_NoDup.
      * intros u. rewrite Hkeys, list_elem_of_filter, sorted_unique_elem_of.
        unfold lurker_threshold. split; [|by intros [? _]].
        intros Hu. split; [done|].
        assert (0 < user_total df u) as Hpos by lia.
        apply user_total_pos in Hpos as (p & Hp & <-).
        apply list_elem_of_fmap. eauto.
  - apply sorted_unique_StronglySorted.
  - apply sorted_unique_NoDup.
Qed.

Lemma create_user_vectors_sorted_witness :
  (∃ u, 3 ≤ user_total seven_posts u) ∧
  ∃ uv all_subreddits,
    create_user_vectors seven_posts = Ok (uv, all_subreddits)
    ∧ uv.*1 = filter (λ u, 3 ≤ user_total seven_posts u)
                     (sorted_unique (author_name <$> seven_posts))
    ∧ StronglySorted str_le uv.*1
    ∧ NoDup uv.*1
    ∧ StronglySorted str_le all_subreddits
    ∧ NoDup all_subreddits.
Proof.
  assert (∃ u, 3 ≤ user_total seven_posts u) as Hex.
  { exists "a". vm_compute. lia. }
  split; [exact Hex|].
  exact (create_user_vectors_sorted seven_posts Hex).
Defined.

(** * The loading cells *)

Lemma outcome_bind_Returns {A B} (m : outcome A) (f : A → outcome B) (b : B) :
  m ≫= f = Returns b ↔ ∃ a, m = Returns a ∧ f a = Returns b.
Proof.
  destruct m as [a|e]; simpl; split.
  - eauto.
  - by intros (a' & [= ->] & ?).
  - discriminate.
  - by intros (? & ? & ?).
Qed.

Lemma unique_sublist {A} `{EqDecision A} (l : list A) : unique l `sublist_of` l.
Proof.
  induction l as [|x l IH]; simpl; [done|]. constructor.
  etrans; [apply sublist_filter|done].
Qed.

Lemma unique_NoDup_id {A} `{EqDecision A} (l : list A) : NoDup l → unique l = l.
Proof.
  induction 1 as [|x l Hx _ IH]; simpl; [done|]. rewrite IH. f_equal. clear IH.
  induction l as [|y l IHl]; [done|].
  apply not_elem_of_cons in Hx as [Hne Hx].
  rewrite filter_cons_True by congruence. f_equal. by apply IHl.
Qed.

(** X12.  [load_and_clean_data] raises [FileNotFoundError] when the path
    does not exist.  Otherwise it returns the rows of the table with every
    repeated row removed: no row occurs twice, every row of the table is
    still there, the rows that stay keep their order, and a table without
    repeated rows is returned as it is. *)
Theorem load_and_clean_data_spec (disk : tables) (filepath : string) :
  (disk !! filepath = None →
   load_and_clean_data disk filepath = Raises FileNotFoundError)
  ∧ (∀ table, disk !! filepath = Some table →
       ∃ rows,
         load_and_clean_data disk filepath = Returns (RawFrame rows)
         ∧ NoDup rows
         ∧ (∀ r, r ∈ rows ↔ r ∈ table)
         ∧ rows `sublist_of` table
         ∧ head rows = head table
         ∧ (NoDup table → rows = table)).
Proof.
  unfold load_and_clean_data. split; [by intros ->|].
  intros table ->. exists (unique table). split; [done|].
  split; [apply unique_NoDup|]. split; [apply unique_elem_of|].
  split; [apply unique_sublist|]. split; [by destruct table|].
  apply unique_NoDup_id.
Qed.

Lemma load_and_clean_data_spec_witness :
  load_and_clean_data toy_disk "missing.csv" = Raises FileNotFoundError
  ∧ ∃ rows,
      load_and_clean_data toy_disk "reddit_opinion_ru_ua.csv"
      = Returns (RawFrame rows)
      ∧ NoDup rows ∧ length rows = 6.
Proof.
  destruct (load_and_clean_data_spec toy_disk "missing.csv") as [Hmiss _].
  destruct (load_and_clean_data_spec toy_disk "reddit_opinion_ru_ua.csv")
    as [_ Hthere].
  split; [by apply Hmiss|].
  destruct (Hthere toy_table eq_refl) as (rows & Hrows & Hnd & _).
  exists rows. split; [exact Hrows|]. split; [exact Hnd|].
  injection Hrows as <-. reflexivity.
Defined.

(** ** Dates *)

Lemma series_max_spec (times : list timestamp) :
  match series_max times with
  | Some hi => Some hi ∈ times ∧ ∀ x, Some x ∈ times → (x <= hi)%Z
  | None => ∀ x, Some x ∉ times
  end.
Proof.
  induction times as [|t times IH]; simpl.
  - intros x. apply not_elem_of_nil.
  - destruct t as [x|], (series_max times) as [y|].
    + destruct IH as [Hy Hle]. split.
      * destruct (Z.max_spec x y) as [[_ ->]|[_ ->]]; [by right|left].
      * intros z [[= ->]|Hz]%elem_of_cons; [lia|]. apply Hle in Hz. lia.
    + split; [left|]. intros z [[= ->]|Hz]%elem_of_cons; [lia|].
      by apply IH in Hz.
    + destruct IH as [Hy Hle]. split; [by right|].
      intros z [?|Hz]%elem_of_cons; [done|]. by apply Hle.
    + intros z [?|Hz]%elem_of_cons; [done|]. by apply IH in Hz.
Qed.

Lemma series_min_spec (times : list timestamp) :
  match series_min times with
  | Some lo => Some lo ∈ times ∧ ∀ x, Some x ∈ times → (lo <= x)%Z
  | None => ∀ x, Some x ∉ times
  end.
Proof.
  induction times as [|t times IH]; simpl.
  - intros x. apply not_elem_of_nil.
  - destruct t as [x|], (series_min times) as [y|].
    + destruct IH as [Hy Hle]. split.
      * destruct (Z.min_spec x y) as [[_ ->]|[_ ->]]; [left|by right].
      * intros z [[= ->]|Hz]%elem_of_cons; [lia|]. apply Hle in Hz. lia.
    + split; [left|]. intros z [[= ->]|Hz]%elem_of_cons; [lia|].
      by apply IH in Hz.
    + destruct IH as [Hy Hle]. split; [by right|].
      intros z [?|Hz]%elem_of_cons; [done|]. by apply Hle.
    + intros z [?|Hz]%elem_of_cons; [done|]. by apply IH in Hz.
Qed.

Lemma on_or_after_spec (start_date t : timestamp) :
  on_or_after start_date t
  ↔ ∃ x lo, t = Some x ∧ start_date = Some lo ∧ (lo <= x)%Z.
Proof.
  unfold on_or_after. destruct t as [x|], start_date as [lo|]; simpl.
  - rewrite Is_true_true, Z.leb_le. split; [by eauto|].
    by intros (? & ? & [= <-] & [= <-] & ?).
  - split; [done|]. by intros (? & ? & _ & ? & _).
  - split; [done|]. by intros (? & ? & ? & _).
  - split; [done|]. by intros (? & ? & ? & _).
Qed.

Lemma on_or_before_spec (end_date t : timestamp) :
  on_or_before end_date t
  ↔ ∃ x hi, t = Some x ∧ end_date = Some hi ∧ (x <= hi)%Z.
Proof.
  unfold on_or_before. destruct t as [x|], end_date as [hi|]; simpl.
  - rewrite Is_true_true, Z.leb_le. split; [by eauto|].
    by intros (? & ? & [= <-] & [= <-] & ?).
  - split; [done|]. by intros (? & ? & _ & ? & _).
  - split; [done|]. by intros (? & ? & ? & _).
  - split; [done|]. by intros (? & ? & ? & _).
Qed.

Lemma zip_with_set_time (raw : list (row string)) (times : list timestamp) :
  length times = length raw →
  row_post <$> zip_with set_time raw times = row_post <$> raw
  ∧ times_of (zip_with set_time raw times) = times
  ∧ length (zip_with set_time raw times) = length raw.
Proof.
  revert times. induction raw as [|r raw IH]; intros [|t times] [=]; [done|].
  destruct (IH times) as (IH1 & IH2 & IH3); [done|].
  unfold times_of in *. csimpl. by rewrite IH1, IH2, IH3.
Qed.

Lemma toy_keeps_length : keeps_length toy_to_datetime_series.
Proof. intros texts times H. symmetry. by eapply length_mapM. Qed.

Section dates_facts.
Context (to_datetime : string → option timestamp).
Context (to_datetime_series : list string → option (list timestamp)).
Context (Hlen : keeps_length to_datetime_series).

Lemma convert_dates_Returns (df : frame) (rows : list (row timestamp)) :
  convert_dates to_datetime_series df = Returns rows →
  row_post <$> rows = frame_posts df ∧ length rows = frame_length df.
Proof.
  destruct df as [raw|dated]; simpl.
  - destruct (to_datetime_series _) as [times|] eqn:Hp; [|done].
    intros [= <-]. apply Hlen in Hp. rewrite length_fmap in Hp.
    by destruct (zip_with_set_time raw times Hp) as (? & _ & ?).
  - by intros [= ->].
Qed.

(** X13.  When [analyze_post_dates] returns, the frame it leaves holds
    the same posts with timestamps for dates, every date that is not
    [NaT] lies between the two returned dates, each returned date that is
    not [NaT] is the date of a row, and a second call on the frame returns
    the same pair. *)
Theorem analyze_post_dates_bounds (df df' : frame) (min_date max_date : timestamp) :
  analyze_post_dates to_datetime_series df = Returns (df', (min_date, max_date)) →
  ∃ rows,
    df' = DatedFrame rows
    ∧ frame_posts df' = frame_posts df
    ∧ frame_length df' = frame_length df
    ∧ (∀ t, Some t ∈ times_of rows →
         ∃ lo hi, min_date = Some lo ∧ max_date = Some hi ∧ (lo <= t <= hi)%Z)
    ∧ (∀ lo, min_date = Some lo → Some lo ∈ times_of rows)
    ∧ (∀ hi, max_date = Some hi → Some hi ∈ times_of rows)
    ∧ analyze_post_dates to_datetime_series df' = Returns (df', (min_date, max_date)).
Proof.
  unfold analyze_post_dates at 1.
  intros (rows & Hconv & [= <- <- <-])%outcome_bind_Returns.
  destruct (convert_dates_Returns df rows Hconv) as [Hposts Hlength].
  exists rows. split; [done|]. split; [done|]. split; [done|].
  pose proof (series_min_spec (times_of rows)) as Hmin.
  pose proof (series_max_spec (times_of rows)) as Hmax.
  unfold times_of in *.
  split; [|split; [|split]].
  - intros t Ht.
    destruct (series_min _) as [lo|]; [|by apply Hmin in Ht].
    destruct (series_max _) as [hi|]; [|by apply Hmax in Ht].
    exists lo, hi. split; [done|]. split; [done|].
    split; [by apply Hmin|by apply Hmax].
  - intros lo Hlo. rewrite Hlo in Hmin. apply Hmin.
  - intros hi Hhi. rewrite Hhi in Hmax. apply Hmax.
  - done.
Qed.

Lemma filter_by_date_stamps (df : frame) (rows : list (row timestamp))
    (lo hi : option timestamp) :
  convert_dates to_datetime_series df = Returns rows →
  (frame_length df = 0 →
   filter_by_date to_datetime to_datetime_series df
     (DateStamp <$> lo) (DateStamp <$> hi)
   = Raises ZeroDivisionError)
  ∧ (0 < frame_length df →
     ∃ kept,
       filter_by_date to_datetime to_datetime_series df
         (DateStamp <$> lo) (DateStamp <$> hi)
       = Returns (DatedFrame kept)
       ∧ kept `sublist_of` rows
       ∧ (∀ r, r ∈ kept ↔
            r ∈ rows
            ∧ (∀ s, lo = Some s →
                 ∃ x l, post_created_time r = Some x ∧ s = Some l ∧ (l <= x)%Z)
            ∧ (∀ e, hi = Some e →
                 ∃ x h, post_created_time r = Some x ∧ e = Some h ∧ (x <= h)%Z))
       ∧ (lo = None → hi = None → kept = rows)).
Proof.
  intros Hconv.
  destruct (convert_dates_Returns df rows Hconv) as [_ Hlength].
  unfold filter_by_date. rewrite Hconv. cbn [mbind outcome_bind].
  split.
  - intros H0. rewrite H0 in Hlength.
    destruct lo, hi; cbn; by rewrite Hlength.
  - intros Hpos.
    assert (length rows ≠ 0) as Hne by lia.
    destruct lo as [s|], hi as [e|]; cbn;
      (destruct (decide (length rows = 0)) as [|_]; [done|]);
      eexists; (split; [reflexivity|]).
    + split; [etrans; apply sublist_filter|]. split; [|done].
      intros r. rewrite !list_elem_of_filter, on_or_after_spec, on_or_before_spec.
      split.
      * intros (He & Hs & Hr). split; [done|].
        split; [by intros ? ?; simplify_eq|by intros ? ?; simplify_eq].
      * intros (Hr & Hs & He). split; [by apply He|]. split; [by apply Hs|done].
    + split; [apply sublist_filter|]. split; [|done].
      intros r. rewrite list_elem_of_filter, on_or_after_spec. split.
      * intros (Hs & Hr). split; [done|]. split; [by intros ? ?; simplify_eq|done].
      * intros (Hr & Hs & _). split; [by apply Hs|done].
    + split; [apply sublist_filter|]. split; [|done].
      intros r. rewrite list_elem_of_filter, on_or_before_spec. split.
      * intros (He & Hr). split; [done|]. split; [done|by intros ? ?; simplify_eq].
      * intros (Hr & _ & He). split; [by apply He|done].
    + split; [done|]. split; [|done]. intros r. split; [|by intros (? & _)].
      intros Hr. split; [done|]. by split; intros ? ?.
Qed.

Lemma bound_of_Returns (d : option date_arg) (b : option timestamp) :
  bound_of to_datetime d = Returns b →
  match d with
  | Some d => ∃ t, date_of_arg to_datetime d = Returns t ∧ b = Some t
  | None => b = None
  end.
Proof.
  destruct d as [d|]; simpl; [|by intros [= <-]].
  destruct (date_of_arg to_datetime d) as [t|e]; simpl; [|done].
  intros [= <-]. by exists t.
Qed.

Lemma filter_by_date_resolved (df : frame) (rows : list (row timestamp))
    (start_date end_date : option date_arg) (lo hi : option timestamp) :
  convert_dates to_datetime_series df = Returns rows →
  bound_of to_datetime start_date = Returns lo →
  bound_of to_datetime end_date = Returns hi →
  filter_by_date to_datetime to_datetime_series df start_date end_date
  = filter_by_date to_datetime to_datetime_series df
      (DateStamp <$> lo) (DateStamp <$> hi).
Proof.
  intros Hconv Hlo%bound_of_Returns Hhi%bound_of_Returns.
  unfold filter_by_date. rewrite Hconv. cbn [mbind outcome_bind].
  destruct start_date as [d1|], end_date as [d2|].
  - destruct Hlo as (t1 & -> & ->), Hhi as (t2 & -> & ->). done.
  - destruct Hlo as (t1 & -> & ->). by rewrite Hhi.
  - destruct Hhi as (t2 & -> & ->). by rewrite Hlo.
  - by rewrite Hlo, Hhi.
Qed.

(** X14.  [filter_by_date] with any bounds, each a text, a timestamp or
    left out.  An exception of the date conversion leaves the function,
    then one of the start bound, then one of the end bound: a text that
    does not parse raises also on a frame without rows.  When the bounds
    stand for timestamps, a frame without rows raises
    [ZeroDivisionError], with or without bounds; any other frame gives, in
    their order, exactly the rows whose date is not [NaT] and lies on or
    after the start bound and on or before the end bound, for each bound
    that is given; a bound that is [NaT] keeps no row, and without bounds
    every row is kept. *)
Theorem filter_by_date_spec (df : frame) (start_date end_date : option date_arg) :
  (∀ e, convert_dates to_datetime_series df = Raises e →
     filter_by_date to_datetime to_datetime_series df start_date end_date
     = Raises e)
  ∧ (∀ rows, convert_dates to_datetime_series df = Returns rows →
       (∀ e, bound_of to_datetime start_date = Raises e →
          filter_by_date to_datetime to_datetime_series df start_date end_date
          = Raises e)
       ∧ (∀ lo e, bound_of to_datetime start_date = Returns lo →
            bound_of to_datetime end_date = Raises e →
            filter_by_date to_datetime to_datetime_series df start_date end_date
            = Raises e)
       ∧ (∀ lo hi, bound_of to_datetime start_date = Returns lo →
            bound_of to_datetime end_date = Returns hi →
            (frame_length df = 0 →
             filter_by_date to_datetime to_datetime_series df
               start_date end_date
             = Raises ZeroDivisionError)
            ∧ (0 < frame_length df →
               ∃ kept,
                 filter_by_date to_datetime to_datetime_series df
                   start_date end_date
                 = Returns (DatedFrame kept)
                 ∧ kept `sublist_of` rows
                 ∧ (∀ r, r ∈ kept ↔
                      r ∈ rows
                      ∧ (∀ s, lo = Some s →
                           ∃ x l, post_created_time r = Some x
                                  ∧ s = Some l ∧ (l <= x)%Z)
                      ∧ (∀ e, hi = Some e →
                           ∃ x h, post_created_time r = Some x
                                  ∧ e = Some h ∧ (x <= h)%Z))
                 ∧ (lo = None → hi = None → kept = rows)))).
Proof.
  split.
  { intros e He. unfold filter_by_date. by rewrite He. }
  intros rows Hconv. split; [|split].
  - intros e He. unfold filter_by_date. rewrite Hconv.
    cbn [mbind outcome_bind]. destruct start_date as [d|]; [|done].
    simpl in He. destruct (date_of_arg to_datetime d); simpl in *; [done|].
    by injection He as ->.
  - intros lo e Hlo He. unfold filter_by_date. rewrite Hconv.
    cbn [mbind outcome_bind]. apply bound_of_Returns in Hlo.
    destruct end_date as [d2|]; [|done]. simpl in He.
    destruct (date_of_arg to_datetime d2) as [|e2] eqn:Hd2; [done|].
    injection He as ->.
    destruct start_date as [d1|].
    + destruct Hlo as (t1 & -> & _). done.
    + done.
  - intros lo hi Hlo Hhi.
    rewrite (filter_by_date_resolved df rows _ _ lo hi Hconv Hlo Hhi).
    by apply filter_by_date_stamps.
Qed.
End dates_facts.

Lemma analyze_post_dates_bounds_witness :
  ∃ rows,
    analyze_post_dates toy_to_datetime_series (RawFrame toy_table)
    = Returns (DatedFrame rows, (Some 0%Z, Some (31 * 86400 * 1000000000)%Z))
    ∧ frame_posts (DatedFrame rows) = frame_posts (RawFrame toy_table)
    ∧ ∀ t, Some t ∈ times_of rows → (0 <= t <= 31 * 86400 * 1000000000)%Z.
Proof.
  assert (analyze_post_dates toy_to_datetime_series (RawFrame toy_table)
          = Returns
              (DatedFrame
                 (zip_with set_time toy_table
                    (default [] (toy_to_datetime_series
                                   (post_created_time <$> toy_table)))),
               (Some 0%Z, Some (31 * 86400 * 1000000000)%Z))) as Hrun.
  { vm_compute. reflexivity. }
  destruct (analyze_post_dates_bounds toy_to_datetime_series toy_keeps_length
              _ _ _ _ Hrun)
    as (rows & Hrows & Hposts & _ & Hbetween & _).
  exists rows. split; [by rewrite <- Hrows|]. split; [by rewrite <- Hrows|].
  intros t Ht. destruct (Hbetween t Ht) as (lo & hi & Hlo & Hhi & ?).
  injection Hlo as <-. injection Hhi as <-. done.
Defined.

Lemma filter_by_date_spec_witness :
  filter_by_date toy_to_datetime toy_to_datetime_series (RawFrame [])
    (Some (DateString "yesterday")) None
  = Raises DateParseError
  ∧ filter_by_date toy_to_datetime toy_to_datetime_series (RawFrame [])
      (Some (DateString "2025-04-29")) None
    = Raises ZeroDivisionError
  ∧ ∃ kept,
      filter_by_date toy_to_datetime toy_to_datetime_series (RawFrame toy_table)
        (Some (DateString "2025-04-29")) None
      = Returns (DatedFrame kept)
      ∧ length kept = 5.
Proof.
  destruct (filter_by_date_spec toy_to_datetime toy_to_datetime_series
              toy_keeps_length (RawFrame [])
              (Some (DateString "yesterday")) None) as [_ Hempty].
  destruct (Hempty [] eq_refl) as (Hbad & _).
  split; [exact (Hbad DateParseError eq_refl)|].
  destruct (filter_by_date_spec toy_to_datetime toy_to_datetime_series
              toy_keeps_length (RawFrame [])
              (Some (DateString "2025-04-29")) None) as [_ Hempty'].
  destruct (Hempty' [] eq_refl) as (_ & _ & Hgood).
  destruct (Hgood (Some (Some (31 * 86400 * 1000000000)%Z)) None eq_refl eq_refl)
    as [Hzero _].
  split; [exact (Hzero eq_refl)|].
  destruct (filter_by_date_spec toy_to_datetime toy_to_datetime_series
              toy_keeps_length (RawFrame toy_table)
              (Some (DateString "2025-04-29")) None) as [_ Hfull].
  assert (convert_dates toy_to_datetime_series (RawFrame toy_table)
          = Returns (zip_with set_time toy_table
                       (default [] (toy_to_datetime_series
                                      (post_created_time <$> toy_table)))))
    as Hconv by (vm_compute; reflexivity).
  destruct (Hfull _ Hconv) as (_ & _ & Hrows).
  destruct (Hrows (Some (Some (31 * 86400 * 1000000000)%Z)) None eq_refl eq_refl)
    as [_ Hkept].
  destruct Hkept as (kept & Hrun & _); [simpl; lia|].
  exists kept. split; [exact Hrun|].
  assert (filter_by_date toy_to_datetime toy_to_datetime_series
            (RawFrame toy_table) (Some (DateString "2025-04-29")) None
          = Returns (DatedFrame
                       (filter (λ r, on_or_after (Some (31 * 86400 * 1000000000)%Z)
                                       (post_created_time r))
                          (zip_with set_time toy_table
                             (default [] (toy_to_datetime_series
                                            (post_created_time <$> toy_table)))))))
    as Hval by (vm_compute; reflexivity).
  rewrite Hval in Hrun. injection Hrun as <-. by vm_compute.
Defined.

(** ** From the file to the recent posts *)

Lemma unique_nil_inv {A} `{EqDecision A} (l : list A) : unique l = [] → l = [].
Proof. by destruct l. Qed.

Lemma filter_after_NaT (rows : list (row timestamp)) :
  filter (λ r, on_or_after None (post_created_time r)) rows = [].
Proof.
  induction rows as [|r rows IH]; [done|].
  rewrite filter_cons_False; [done|].
  unfold on_or_after. destruct (post_created_time r); simpl; tauto.
Qed.

Lemma thirty_days_pos : (0 < thirty_days)%Z.
Proof. unfold thirty_days. lia. Qed.

Section recent.
Context (to_datetime : string → option timestamp).
Context (to_datetime_series : list string → option (list timestamp)).
Context (sub_timedelta : timestamp → Z → outcome timestamp).
Context (Hlen : keeps_length to_datetime_series).

Lemma load_recent_parsed (disk : tables) (filepath : string)
    (table : list (row string)) (times : list timestamp) :
  disk !! filepath = Some table →
  to_datetime_series (post_created_time <$> unique table) = Some times →
  times_of (zip_with set_time (unique table) times) = times
  ∧ length (zip_with set_time (unique table) times) = length (unique table)
  ∧ load_recent to_datetime to_datetime_series sub_timedelta disk filepath
    = (cutoff_date ← sub_timedelta (series_max times) thirty_days;
       filter_by_date to_datetime to_datetime_series
         (DatedFrame (zip_with set_time (unique table) times))
         (Some (DateStamp cutoff_date)) None).
Proof.
  intros Hdisk Hparse.
  apply Hlen in Hparse as Hlength. rewrite length_fmap in Hlength.
  destruct (zip_with_set_time (unique table) times Hlength)
    as (_ & Htimes & Hrows).
  split; [done|]. split; [done|].
  unfold load_recent, load_and_clean_data. rewrite Hdisk.
  cbn [mbind outcome_bind]. unfold analyze_post_dates, convert_dates.
  rewrite Hparse. cbn [mbind outcome_bind fst snd].
  unfold times_of in Htimes. by rewrite Htimes.
Qed.

Lemma load_recent_in_range (disk : tables) (filepath : string)
    (table : list (row string)) (times : list timestamp) (hi : Z) :
  disk !! filepath = Some table →
  to_datetime_series (post_created_time <$> unique table) = Some times →
  series_max times = Some hi →
  sub_timedelta (Some hi) thirty_days = Returns (Some (hi - thirty_days)%Z) →
  ∃ kept,
    load_recent to_datetime to_datetime_series sub_timedelta disk filepath
    = Returns (DatedFrame kept)
    ∧ kept `sublist_of` zip_with set_time (unique table) times
    ∧ (∀ r, r ∈ kept ↔
         r ∈ zip_with set_time (unique table) times
         ∧ ∃ x, post_created_time r = Some x
                ∧ (hi - thirty_days <= x <= hi)%Z)
    ∧ (∃ r, r ∈ kept ∧ post_created_time r = Some hi).
Proof.
  intros Hdisk Hparse Hhi Hsub.
  destruct (load_recent_parsed disk filepath table times Hdisk Hparse)
    as (Htimes & Hrows & ->).
  set (rows := zip_with set_time (unique table) times) in *.
  rewrite Hhi, Hsub.
  cbn [mbind outcome_bind]. unfold filter_by_date, convert_dates, date_of_arg.
  cbn [mbind outcome_bind].
  pose proof (series_max_spec times) as Hmax. rewrite Hhi in Hmax.
  destruct Hmax as [Hin Hle].
  assert (∃ r, r ∈ rows ∧ post_created_time r = Some hi) as (r0 & Hr0 & Ht0).
  { rewrite <- Htimes in Hin. apply list_elem_of_fmap in Hin as (r & ? & ?).
    by exists r. }
  destruct (decide (length rows = 0)) as [H0|_].
  { apply nil_length_inv in H0.
    rewrite H0 in Hr0. by apply elem_of_nil in Hr0. }
  eexists. split; [reflexivity|]. split; [apply sublist_filter|].
  assert (∀ r, r ∈ filter (λ r, on_or_after (Some (hi - thirty_days)%Z)
                                  (post_created_time r)) rows
               ↔ r ∈ rows ∧ ∃ x, post_created_time r = Some x
                                 ∧ (hi - thirty_days <= x <= hi)%Z) as Hchar.
  { intros r. rewrite list_elem_of_filter, on_or_after_spec. split.
    - intros ((x & lo & Hx & [= <-] & Hlo) & Hr). split; [done|].
      exists x. split; [done|]. split; [done|]. apply Hle.
      rewrite <- Htimes, <- Hx. apply list_elem_of_fmap. by exists r.
    - intros (Hr & x & Hx & Hlo & _). split; [|done].
      by exists x, (hi - thirty_days)%Z. }
  split; [done|]. exists r0. split; [|done]. apply Hchar. split; [done|].
  exists hi. split; [done|]. pose proof thirty_days_pos. lia.
Qed.

(** X15.  The loading cells, case by case.  A missing file raises
    [FileNotFoundError] and a date column that does not parse raises
    [DateParseError].  When the dates parse, an exception of the
    subtraction of the thirty days from the latest date leaves the cells.
    When the subtraction returns [NaT] for [NaT] and the date thirty days
    earlier for a date: a table without rows raises [ZeroDivisionError]; a
    table with rows whose dates are all [NaT] gives a frame without rows;
    any other table gives exactly the rows, repeated rows removed, whose
    date lies within thirty days of the latest date, a row with the latest
    date among them. *)
Theorem load_recent_keeps_latest (disk : tables) (filepath : string) :
  (disk !! filepath = None →
   load_recent to_datetime to_datetime_series sub_timedelta disk filepath
   = Raises FileNotFoundError)
  ∧ (∀ table, disk !! filepath = Some table →
       (to_datetime_series (post_created_time <$> unique table) = None →
        load_recent to_datetime to_datetime_series sub_timedelta disk filepath
        = Raises DateParseError)
       ∧ (∀ times,
            to_datetime_series (post_created_time <$> unique table) = Some times →
            (∀ e, sub_timedelta (series_max times) thirty_days = Raises e →
               load_recent to_datetime to_datetime_series sub_timedelta
                 disk filepath
               = Raises e)
            ∧ (sub_timedelta (series_max times) thirty_days
               = Returns ((λ t, (t - thirty_days)%Z) <$> series_max times) →
               (table = [] →
                load_recent to_datetime to_datetime_series sub_timedelta
                  disk filepath
                = Raises ZeroDivisionError)
               ∧ (table ≠ [] → series_max times = None →
                  load_recent to_datetime to_datetime_series sub_timedelta
                    disk filepath
                  = Returns (DatedFrame []))
               ∧ (∀ hi, series_max times = Some hi →
                    ∃ kept,
                      load_recent to_datetime to_datetime_series sub_timedelta
                        disk filepath
                      = Returns (DatedFrame kept)
                      ∧ kept `sublist_of` zip_with set_time (unique table) times
                      ∧ (∀ r, r ∈ kept ↔
                           r ∈ zip_with set_time (unique table) times
                           ∧ ∃ x, post_created_time r = Some x
                                  ∧ (hi - thirty_days <= x <= hi)%Z)
                      ∧ (∃ r, r ∈ kept ∧ post_created_time r = Some hi))))).
Proof.
  split.
  { intros Hdisk. unfold load_recent, load_and_clean_data. by rewrite Hdisk. }
  intros table Hdisk. split.
  { intros Hparse. unfold load_recent, load_and_clean_data. rewrite Hdisk.
    cbn [mbind outcome_bind]. unfold analyze_post_dates, convert_dates.
    by rewrite Hparse. }
  intros times Hparse.
  destruct (load_recent_parsed disk filepath table times Hdisk Hparse)
    as (Htimes & Hrows & Hrun).
  split.
  { intros e He. by rewrite Hrun, He. }
  intros Hsub. split; [|split].
  - intros ->. rewrite Hrun, Hsub. simpl in Htimes. by rewrite <- Htimes.
  - intros Hne Hmax. rewrite Hrun, Hsub, Hmax. simpl.
    unfold filter_by_date, convert_dates, date_of_arg.
    cbn [mbind outcome_bind]. rewrite Hrows.
    destruct (decide (length (unique table) = 0)) as [H0|_].
    { by apply nil_length_inv, unique_nil_inv in H0. }
    by rewrite filter_after_NaT.
  - intros hi Hmax. rewrite Hmax in Hsub. by eapply load_recent_in_range.
Qed.

(** X16.  The notebook from the file to the edge list, for a table whose
    dates parse, with a latest date from which the thirty days are taken
    in range.  The loading cells do not raise and hand at least one post
    to the engine.  When some user has three or more posts within the
    thirty days, the run sets the default file to the lines of a list of
    edges that has no edge twice and no edge in both directions, each
    between two users with three or more posts within the thirty days;
    when no user has, the run ends with [StopIteration] and writes
    nothing. *)
Theorem run_notebook_recent (disk : tables) (fs : filesystem)
    (table : list (row string)) (times : list timestamp) (hi : Z) :
  disk !! "reddit_opinion_ru_ua.csv" = Some table →
  to_datetime_series (post_created_time <$> unique table) = Some times →
  series_max times = Some hi →
  sub_timedelta (Some hi) thirty_days = Returns (Some (hi - thirty_days)%Z) →
  ∃ kept,
    load_recent to_datetime to_datetime_series sub_timedelta disk
      "reddit_opinion_ru_ua.csv"
    = Returns (DatedFrame kept)
    ∧ kept ≠ []
    ∧ ((∃ u, 3 ≤ user_total (row_post <$> kept) u) →
       ∃ edges,
         run_notebook to_datetime to_datetime_series sub_timedelta disk fs
         = (EngineRan (Ok "network_similarity_vec.csv"),
            <["network_similarity_vec.csv" := edge_lines edges]> fs)
         ∧ NoDup edges
         ∧ (∀ a b, (a, b) ∈ edges → (b, a) ∉ edges)
         ∧ (∀ a b, (a, b) ∈ edges →
              3 ≤ user_total (row_post <$> kept) a
              ∧ 3 ≤ user_total (row_post <$> kept) b))
    ∧ ((∀ u, user_total (row_post <$> kept) u < 3) →
       run_notebook to_datetime to_datetime_series sub_timedelta disk fs
       = (EngineRan (Raise StopIteration), fs)).
Proof.
  intros Hdisk Hparse Hhi Hsub.
  destruct (load_recent_in_range disk "reddit_opinion_ru_ua.csv" table times hi
              Hdisk Hparse Hhi Hsub)
    as (kept & Hrun & _ & _ & (r0 & Hr0 & _)).
  exists kept. split; [done|]. split.
  { intros ->. by apply elem_of_nil in Hr0. }
  unfold run_notebook. rewrite Hrun. cbn [frame_posts]. split.
  - intros Hex.
    destruct (create_user_vectors_Ok (row_post <$> kept) Hex)
      as (uv & Hcreate & Hb).
    destruct (survivor_edges _ uv (95 / 100) Hb) as (Hnd & Hasym & Hends).
    exists (edges_spec (95 / 100) (drop_users (round_todrop 1 uv) uv)).
    by rewrite (make_network_closed _ fs uv _ Hcreate).
  - intros Hno. unfold make_network.
    by rewrite create_user_vectors_no_survivor.
Qed.
End recent.

Lemma load_recent_keeps_latest_witness :
  ∃ kept,
    load_recent toy_to_datetime toy_to_datetime_series toy_sub_timedelta
      toy_disk "reddit_opinion_ru_ua.csv"
    = Returns (DatedFrame kept)
    ∧ length kept = 4
    ∧ ∃ r, r ∈ kept
           ∧ post_created_time r = Some (31 * 86400 * 1000000000)%Z.
Proof.
  destruct (load_recent_keeps_latest toy_to_datetime toy_to_datetime_series
              toy_sub_timedelta toy_keeps_length toy_disk
              "reddit_opinion_ru_ua.csv")
    as [_ Hthere].
  destruct (Hthere toy_table eq_refl) as [_ Hparsed].
  assert (toy_to_datetime_series (post_created_time <$> unique toy_table)
          = Some (default [] (toy_to_datetime_series
                                (post_created_time <$> unique toy_table))))
    as Hparse by (vm_compute; reflexivity).
  destruct (Hparsed _ Hparse) as (_ & Hsub).
  destruct Hsub as (_ & _ & Hkept); [reflexivity|].
  destruct (Hkept (31 * 86400 * 1000000000)%Z) as (kept & Hrun & _ & _ & Hlast).
  { vm_compute. reflexivity. }
  exists kept. split; [exact Hrun|]. split; [|exact Hlast].
  assert (load_recent toy_to_datetime toy_to_datetime_series toy_sub_timedelta
            toy_disk "reddit_opinion_ru_ua.csv"
          = Returns (DatedFrame
                       [Row (Post "a" "x") (Some (31 * 86400 * 1000000000)%Z) [];
                        Row (Post "a" "y") (Some (31 * 86400 * 1000000000)%Z) [];
                        Row (Post "a" "x") (Some (31 * 86400 * 1000000000)%Z)
                          ["again"];
                        Row (Post "c" "x") (Some (31 * 86400 * 1000000000)%Z) []]))
    as Hval by (vm_compute; reflexivity).
  rewrite Hval in Hrun. by injection Hrun as <-.
Defined.

Lemma run_notebook_recent_witness :
  ∃ kept,
    load_recent toy_to_datetime toy_to_datetime_series toy_sub_timedelta
      toy_disk "reddit_opinion_ru_ua.csv"
    = Returns (DatedFrame kept)
    ∧ kept ≠ []
    ∧ ∃ edges,
        run_notebook toy_to_datetime toy_to_datetime_series toy_sub_timedelta
          toy_disk ∅
        = (EngineRan (Ok "network_similarity_vec.csv"),
           <["network_similarity_vec.csv" := edge_lines edges]> ∅)
        ∧ NoDup edges.
Proof.
  assert (toy_to_datetime_series (post_created_time <$> unique toy_table)
          = Some (default [] (toy_to_datetime_series
                                (post_created_time <$> unique toy_table))))
    as Hparse by (vm_compute; reflexivity).
  destruct (run_notebook_recent toy_to_datetime toy_to_datetime_series
              toy_sub_timedelta toy_keeps_length toy_disk ∅ toy_table _
              (31 * 86400 * 1000000000)%Z eq_refl Hparse)
    as (kept & Hrun & Hne & Hwrites & _).
  { vm_compute. reflexivity. }
  { reflexivity. }
  exists kept. split; [exact Hrun|]. split; [exact Hne|].
  destruct Hwrites as (edges & Hfile & Hnd & _).
  { assert (load_recent toy_to_datetime toy_to_datetime_series toy_sub_timedelta
              toy_disk "reddit_opinion_ru_ua.csv"
            = Returns (DatedFrame
                         [Row (Post "a" "x") (Some (31 * 86400 * 1000000000)%Z) [];
                          Row (Post "a" "y") (Some (31 * 86400 * 1000000000)%Z) [];
                          Row (Post "a" "x") (Some (31 * 86400 * 1000000000)%Z)
                            ["again"];
                          Row (Post "c" "x") (Some (31 * 86400 * 1000000000)%Z) []]))
      as Hval by (vm_compute; reflexivity).
    rewrite Hval in Hrun. injection Hrun as <-.
    exists "a". vm_compute. lia. }
  by exists edges.
Defined.
